(** * The job tracker of CustomGPT/src/job_tracker.py

    A shallow embedding of the [JobTracker] class: the two dataclasses, the
    two SQLite tables that [init_database] creates, and every method of the
    class as a function on the state of the database file.

    The SQL text that the methods send to SQLite is embedded statement by
    statement; the SQLite features the statements rely on (NULL, the BINARY
    collation, TEXT and INTEGER affinity, LIKE, AUTOINCREMENT, GROUP BY,
    ORDER BY, LIMIT, [date('now', ...)]) are defined in the first part of
    the file.  Logging has no effect on any result and is left out. *)

From Stdlib Require Import ZArith List String Ascii Bool Lia.
From Stdlib Require Import QArith Qabs.
From Stdlib Require Import Permutation Sorted.
From Stdlib Require Import DecimalString.
Import ListNotations.

Local Open Scope string_scope.
Local Open Scope Z_scope.

(** ** Python values and exceptions *)

(** A value of a TEXT column, or of a [str] attribute that may be [None]:
    [None] is SQL NULL.  A string is the UTF-8 encoding of the Python
    [str], one [ascii] per byte. *)
Definition text := option string.

(** The values the callers of [update_application] put in the [updates]
    dictionary ([Dict[str, Any]]): [None], an [int] or a [str]. *)
Inductive pyval :=
| PNone
| PInt (z : Z)
| PStr (s : string).

(** A number that a method returns: an [int], or a [float], held as the
    rational that it stands for. *)
Inductive number :=
| Int (z : Z)
| Float (q : Q).

(** The exceptions that the statements of the class can raise. *)
Inductive exn :=
| OperationalError (msg : string)
| IntegrityError (msg : string)
| OverflowError (msg : string)
| ZeroDivisionError (msg : string).

(** A Python call either returns or raises. *)
Inductive result (A : Type) : Type :=
| Ret (a : A)
| Raise (e : exn).
Arguments Ret {A} a.
Arguments Raise {A} e.

Definition bind {A B : Type} (m : result A) (k : A -> result B) : result B :=
  match m with
  | Ret a => k a
  | Raise e => Raise e
  end.

Notation "x <- m ;; k" := (bind m (fun x => k))
  (at level 61, m at next level, right associativity).

(** [try: body  except Exception as e: handler e]. *)
Definition try_except {A : Type} (body : result A) (handler : exn -> result A)
  : result A :=
  match body with
  | Ret a => Ret a
  | Raise e => handler e
  end.

(** Python truthiness of an optional [str] argument ([if status:]) and of
    an optional [int] argument ([if application_id:]). *)
Definition truthy_str (s : text) : bool :=
  match s with
  | None => false
  | Some s => negb (s =? "")%string
  end.

Definition truthy_int (n : option Z) : bool :=
  match n with
  | None => false
  | Some n => negb (n =? 0)%Z
  end.

(** [f"{s}"] for an optional [str], and ['{}'.format(n)] for an [int]. *)
Definition format_str (s : text) : string :=
  match s with
  | Some s => s
  | None => "None"
  end.

Definition format_int (n : Z) : string := NilZero.string_of_int (Z.to_int n).

(** ** SQLite: comparison, ordering, LIMIT *)

Module Sqlite.

(** [a = b] in a WHERE clause under the BINARY collation: NULL equals
    nothing. *)
Definition eq_where (a b : text) : bool :=
  match a, b with
  | Some s, Some t => (s =? t)%string
  | _, _ => false
  end.

(** [a <= b] in a WHERE clause: bytewise comparison, false on NULL. *)
Definition le_where (a b : text) : bool :=
  match a, b with
  | Some s, Some t => (s <=? t)%string
  | _, _ => false
  end.

(** The order of ORDER BY ... ASC on a TEXT column: NULL first, then the
    strings bytewise. *)
Definition order_leb (a b : text) : bool :=
  match a, b with
  | None, _ => true
  | Some _, None => false
  | Some s, Some t => (s <=? t)%string
  end.

(** Equality of group keys in GROUP BY: NULLs form one group. *)
Definition key_eqb (a b : text) : bool :=
  match a, b with
  | None, None => true
  | Some s, Some t => (s =? t)%string
  | _, _ => false
  end.

(** ORDER BY is a sort.  SQL leaves the order of rows with equal keys
    open: SQLite returns them in the order of the index or table that
    the plan of the query scans.  This model keeps them in the order of
    the table, and no theorem of this file depends on the order of rows
    with equal keys. *)
Fixpoint insert_by {A : Type} (leb : A -> A -> bool) (x : A) (l : list A)
  : list A :=
  match l with
  | [] => [x]
  | y :: l' => if leb x y then x :: l else y :: insert_by leb x l'
  end.

Definition sort_by {A : Type} (leb : A -> A -> bool) (l : list A) : list A :=
  fold_right (insert_by leb) [] l.

Definition order_by_asc {A : Type} (key : A -> text) : list A -> list A :=
  sort_by (fun x y => order_leb (key x) (key y)).

Definition order_by_desc {A : Type} (key : A -> text) : list A -> list A :=
  sort_by (fun x y => order_leb (key y) (key x)).

(** [LIMIT n]: a negative [n] means no limit. *)
Definition limit {A : Type} (n : Z) (l : list A) : list A :=
  if (n <? 0)%Z then l else firstn (Z.to_nat n) l.

(** ** SQLite: LIKE *)

(** LIKE folds the case of the 26 ASCII letters only. *)
Definition is_upper (c : ascii) : bool :=
  (65 <=? nat_of_ascii c)%nat && (nat_of_ascii c <=? 90)%nat.

Definition to_lower (c : ascii) : ascii :=
  if is_upper c then ascii_of_nat (nat_of_ascii c + 32) else c.

Definition eq_nocase (c d : ascii) : bool :=
  (to_lower c =? to_lower d)%char.

Fixpoint lower (s : string) : string :=
  match s with
  | EmptyString => EmptyString
  | String c s' => String (to_lower c) (lower s')
  end.

(** ['_'] matches one UTF-8 character: a lead byte together with the
    continuation bytes (10xxxxxx) that follow it. *)
Definition is_continuation (c : ascii) : bool :=
  (128 <=? nat_of_ascii c)%nat && (nat_of_ascii c <? 192)%nat.

Fixpoint skip_continuation (s : string) : string :=
  match s with
  | EmptyString => EmptyString
  | String c s' => if is_continuation c then skip_continuation s' else s
  end.

Definition skip_char (c : ascii) (rest : string) : string :=
  if (192 <=? nat_of_ascii c)%nat then skip_continuation rest else rest.

(** The comparison of a pattern with a text, without an ESCAPE clause
    ([patternCompare]). *)
Fixpoint pattern_compare (p : string) : string -> bool :=
  match p with
  | EmptyString =>
      fun s => match s with EmptyString => true | String _ _ => false end
  | String c p' =>
      if (c =? "%")%char then
        fix any (s : string) : bool :=
          pattern_compare p' s
          || match s with
             | EmptyString => false
             | String _ s' => any s'
             end
      else if (c =? "_")%char then
        fun s =>
          match s with
          | EmptyString => false
          | String b s' => pattern_compare p' (skip_char b s')
          end
      else
        fun s =>
          match s with
          | EmptyString => false
          | String b s' => eq_nocase c b && pattern_compare p' s'
          end
  end.

(** The LIKE function reads the pattern and the text as C strings
    ([sqlite3_value_text]): what follows the first NUL byte of either is
    not looked at. *)
Fixpoint c_string (s : string) : string :=
  match s with
  | EmptyString => EmptyString
  | String c s' =>
      if (c =? zero)%char then EmptyString else String c (c_string s')
  end.

(** [like p s] is [s LIKE p]. *)
Definition like (p s : string) : bool :=
  pattern_compare (c_string p) (c_string s).

(** SQLITE_LIMIT_LIKE_PATTERN_LENGTH: a pattern of more bytes, those
    after a NUL byte counted, makes the LIKE function fail with "LIKE or
    GLOB pattern too complex". *)
Definition MAX_LIKE_PATTERN_LENGTH : Z := 50000.

(** ** SQLite: INTEGER PRIMARY KEY AUTOINCREMENT *)

Definition MAX_ROWID : Z := 9223372036854775807.
Definition MIN_ROWID : Z := -9223372036854775808.

(** The sqlite3 module refuses an [int] that does not fit 64 bits. *)
Definition bind_int (z : Z) : result Z :=
  if (MIN_ROWID <=? z)%Z && (z <=? MAX_ROWID)%Z then Ret z
  else Raise (OverflowError "Python int too large to convert to SQLite INTEGER").

Definition largest (ids : list Z) : option Z :=
  match ids with
  | [] => None
  | i :: ids' => Some (fold_right Z.max i ids')
  end.

(** The rowid of a new row of an AUTOINCREMENT table: one more than the
    largest rowid of the table and than the largest rowid ever generated
    ([seq], the table's entry in sqlite_sequence); SQLITE_FULL when either
    has reached the largest 64-bit integer. *)
Definition new_rowid (ids : list Z) (seq : Z) : result Z :=
  let full := Raise (OperationalError "database or disk is full") in
  let above_table :=
    match largest ids with
    | None => Some 1%Z
    | Some m => if (MAX_ROWID <=? m)%Z then None else Some (m + 1)%Z
    end in
  match above_table with
  | None => full
  | Some v => if (seq =? MAX_ROWID)%Z then full else Ret (Z.max v (seq + 1))
  end.

(** ** SQLite: GROUP BY with COUNT *)

Fixpoint distinct (keys : list text) : list text :=
  match keys with
  | [] => []
  | k :: keys' =>
      k :: filter (fun k' => negb (key_eqb k k')) (distinct keys')
  end.

Definition count_key (k : text) (keys : list text) : Z :=
  Z.of_nat (List.length (filter (key_eqb k) keys)).

(** [SELECT key, COUNT( * ) ... GROUP BY key]: one pair per distinct key,
    in the order of the keys. *)
Definition group_count (keys : list text) : list (text * Z) :=
  map (fun k => (k, count_key k keys)) (sort_by order_leb (distinct keys)).

(** ** SQLite: [date('now', '+N days')] *)

(** The civil date of a day counted from 1970-01-01 (proleptic Gregorian
    calendar), as year, month, day. *)
Definition civil_from_days (day : Z) : Z * Z * Z :=
  let z := day + 719468 in
  let era := z / 146097 in
  let doe := z mod 146097 in
  let yoe := (doe - doe / 1460 + doe / 36524 - doe / 146096) / 365 in
  let doy := doe - (365 * yoe + yoe / 4 - yoe / 100) in
  let mp := (5 * doy + 2) / 153 in
  let d := doy - (153 * mp + 2) / 5 + 1 in
  let m := if mp <? 10 then mp + 3 else mp - 9 in
  let y := yoe + era * 400 + (if m <=? 2 then 1 else 0) in
  (y, m, d).

Definition digit (n : Z) : ascii := ascii_of_nat (48 + Z.to_nat (n mod 10)).

Definition pad2 (n : Z) : string :=
  String (digit (n / 10)) (String (digit n) "").

Definition pad4 (n : Z) : string :=
  String (digit (n / 1000)) (String (digit (n / 100)) (pad2 n)).

(** The text [YYYY-MM-DD]. *)
Definition iso_date (ymd : Z * Z * Z) : string :=
  let '(y, m, d) := ymd in
  pad4 y ++ "-" ++ pad2 m ++ "-" ++ pad2 d.

(** SQLite's dates run from 0000-01-01 to 9999-12-31. *)
Definition FIRST_DAY : Z := -719528.
Definition LAST_DAY : Z := 2932896.

(** [date('now', '+{} days'.format(n))], where [today] is the current UTC
    day counted from 1970-01-01.  For a negative [n] the text is ['+-3
    days'], which SQLite does not take as a modifier: the result is NULL,
    as it is for a date outside SQLite's range. *)
Definition date_now_plus_days (today n : Z) : text :=
  if n <? 0 then None
  else if (FIRST_DAY <=? today + n) && (today + n <=? LAST_DAY)
       then Some (iso_date (civil_from_days (today + n)))
       else None.

End Sqlite.

(** [dict(cursor.fetchall())] for rows of two columns, and [d.get(k, 0)]. *)
Definition counts := list (text * Z).

Fixpoint counts_get (k : string) (d : counts) : Z :=
  match d with
  | [] => 0
  | (k', n) :: d' =>
      if Sqlite.key_eqb (Some k) k' then n else counts_get k d'
  end.

Definition counts_find (k : text) (d : counts) : option Z :=
  option_map snd (find (fun kn => Sqlite.key_eqb k (fst kn)) d).
(** ** The dataclasses *)

(** [@dataclass class JobApplication].  [id] is [None] until the store has
    assigned one. *)
Module JobApp.
Record JobApplication := make {
  id : option Z;
  company : text;
  position : text;
  location : text;
  job_url : text;
  job_description : text;
  application_date : text;
  status : text;
  priority : text;
  salary_range : text;
  notes : text;
  recruiter_name : text;
  recruiter_email : text;
  follow_up_date : text;
  interview_date : text;
  interview_type : text;
  interview_notes : text;
  rejection_reason : text;
  offer_amount : text;
  created_at : text;
  updated_at : text
}.
End JobApp.

(** [@dataclass class Interview]. *)
Module Intv.
Record Interview := make {
  id : option Z;
  application_id : Z;
  interview_date : text;
  interview_type : text;
  interviewer_name : text;
  interviewer_title : text;
  questions_asked : text;
  my_answers : text;
  feedback_received : text;
  next_steps : text;
  preparation_notes : text;
  created_at : text;
  updated_at : text
}.
End Intv.

(** ** The tables

    The rows of the two tables that [init_database] creates.  The primary
    key is an INTEGER PRIMARY KEY AUTOINCREMENT, the other columns of
    [job_applications] are TEXT, [company] and [position] are NOT NULL. *)
Module AppTable.
Record row := make {
  id : Z;
  company : text;
  position : text;
  location : text;
  job_url : text;
  job_description : text;
  application_date : text;
  status : text;
  priority : text;
  salary_range : text;
  notes : text;
  recruiter_name : text;
  recruiter_email : text;
  follow_up_date : text;
  interview_date : text;
  interview_type : text;
  interview_notes : text;
  rejection_reason : text;
  offer_amount : text;
  created_at : text;
  updated_at : text
}.

(** The TEXT columns, and all columns. *)
Inductive text_column :=
| c_company
| c_position
| c_location
| c_job_url
| c_job_description
| c_application_date
| c_status
| c_priority
| c_salary_range
| c_notes
| c_recruiter_name
| c_recruiter_email
| c_follow_up_date
| c_interview_date
| c_interview_type
| c_interview_notes
| c_rejection_reason
| c_offer_amount
| c_created_at
| c_updated_at.

Inductive column :=
| Id
| Text (c : text_column).

Definition text_column_eqb (c d : text_column) : bool :=
  match c, d with
  | c_company, c_company => true
  | c_position, c_position => true
  | c_location, c_location => true
  | c_job_url, c_job_url => true
  | c_job_description, c_job_description => true
  | c_application_date, c_application_date => true
  | c_status, c_status => true
  | c_priority, c_priority => true
  | c_salary_range, c_salary_range => true
  | c_notes, c_notes => true
  | c_recruiter_name, c_recruiter_name => true
  | c_recruiter_email, c_recruiter_email => true
  | c_follow_up_date, c_follow_up_date => true
  | c_interview_date, c_interview_date => true
  | c_interview_type, c_interview_type => true
  | c_interview_notes, c_interview_notes => true
  | c_rejection_reason, c_rejection_reason => true
  | c_offer_amount, c_offer_amount => true
  | c_created_at, c_created_at => true
  | c_updated_at, c_updated_at => true
  | _, _ => false
  end.

Definition column_eqb (c d : column) : bool :=
  match c, d with
  | Id, Id => true
  | Text c, Text d => text_column_eqb c d
  | _, _ => false
  end.

Definition get_text (c : text_column) (r : row) : text :=
  match c with
  | c_company => company r
  | c_position => position r
  | c_location => location r
  | c_job_url => job_url r
  | c_job_description => job_description r
  | c_application_date => application_date r
  | c_status => status r
  | c_priority => priority r
  | c_salary_range => salary_range r
  | c_notes => notes r
  | c_recruiter_name => recruiter_name r
  | c_recruiter_email => recruiter_email r
  | c_follow_up_date => follow_up_date r
  | c_interview_date => interview_date r
  | c_interview_type => interview_type r
  | c_interview_notes => interview_notes r
  | c_rejection_reason => rejection_reason r
  | c_offer_amount => offer_amount r
  | c_created_at => created_at r
  | c_updated_at => updated_at r
  end.

(** A row from its identifier and its TEXT cells. *)
Definition build (i : Z) (cell : text_column -> text) : row :=
  {| id := i; company := cell c_company; position := cell c_position;
     location := cell c_location; job_url := cell c_job_url;
     job_description := cell c_job_description;
     application_date := cell c_application_date; status := cell c_status;
     priority := cell c_priority; salary_range := cell c_salary_range;
     notes := cell c_notes; recruiter_name := cell c_recruiter_name;
     recruiter_email := cell c_recruiter_email;
     follow_up_date := cell c_follow_up_date;
     interview_date := cell c_interview_date;
     interview_type := cell c_interview_type;
     interview_notes := cell c_interview_notes;
     rejection_reason := cell c_rejection_reason;
     offer_amount := cell c_offer_amount; created_at := cell c_created_at;
     updated_at := cell c_updated_at |}.

(** [SET c = v] and [SET id = z] on one row. *)
Definition set_text (c : text_column) (v : text) (r : row) : row :=
  build (id r) (fun c' => if text_column_eqb c c' then v else get_text c' r).

Definition set_id (z : Z) (r : row) : row :=
  build z (fun c => get_text c r).

(** The names of the columns in the CREATE TABLE statement. *)
Definition column_names : list (string * column) :=
  [ ("id", Id);
    ("company", Text c_company);
    ("position", Text c_position);
    ("location", Text c_location);
    ("job_url", Text c_job_url);
    ("job_description", Text c_job_description);
    ("application_date", Text c_application_date);
    ("status", Text c_status);
    ("priority", Text c_priority);
    ("salary_range", Text c_salary_range);
    ("notes", Text c_notes);
    ("recruiter_name", Text c_recruiter_name);
    ("recruiter_email", Text c_recruiter_email);
    ("follow_up_date", Text c_follow_up_date);
    ("interview_date", Text c_interview_date);
    ("interview_type", Text c_interview_type);
    ("interview_notes", Text c_interview_notes);
    ("rejection_reason", Text c_rejection_reason);
    ("offer_amount", Text c_offer_amount);
    ("created_at", Text c_created_at);
    ("updated_at", Text c_updated_at) ].

Definition not_null (c : text_column) : bool :=
  match c with
  | c_company | c_position => true
  | _ => false
  end.

End AppTable.

Module IntvTable.
Record row := make {
  id : Z;
  application_id : Z;
  interview_date : text;
  interview_type : text;
  interviewer_name : text;
  interviewer_title : text;
  questions_asked : text;
  my_answers : text;
  feedback_received : text;
  next_steps : text;
  preparation_notes : text;
  created_at : text;
  updated_at : text
}.
End IntvTable.

(** ** The database file *)

(** The content of the file at [self.db_path] once the tables exist: the
    rows of the two tables and, for each, the largest rowid generated so
    far (its entry in sqlite_sequence).  The lists hold the rows in the
    order in which a scan meets them. *)
Record database := {
  job_applications : list AppTable.row;
  interviews : list IntvTable.row;
  seq_job_applications : Z;
  seq_interviews : Z
}.

(** The file as a method finds it: it cannot be opened or read
    ([sqlite3.connect] or the first statement raises [e]), it is a new
    database without tables, or it holds the tables. *)
Inductive db_file :=
| Unreachable (e : exn)
| Fresh
| Tables (d : database).

Definition empty_database : database :=
  {| job_applications := []; interviews := [];
     seq_job_applications := 0; seq_interviews := 0 |}.

(** [with sqlite3.connect(self.db_path) as conn:] *)
Definition connect (f : db_file) : result (option database) :=
  match f with
  | Unreachable e => Raise e
  | Fresh => Ret None
  | Tables d => Ret (Some d)
  end.

(** A statement on a table that does not exist fails. *)
Definition tables (conn : option database) : result database :=
  match conn with
  | Some d => Ret d
  | None => Raise (OperationalError "no such table")
  end.

(** Leaving the [with] block: the changes are committed when the body
    returned and rolled back when it raised; [handler] is the [except]
    clause of the method. *)
Definition commit {A : Type} (f : db_file) (body : result (database * A))
    (handler : exn -> result A) : result A * db_file :=
  match body with
  | Ret (d, a) => (Ret a, Tables d)
  | Raise e => (handler e, f)
  end.

(** ** Rows and dataclasses *)

Definition _row_to_application (row : AppTable.row) : JobApp.JobApplication :=
  {| JobApp.id := Some (AppTable.id row);
     JobApp.company := AppTable.company row;
     JobApp.position := AppTable.position row;
     JobApp.location := AppTable.location row;
     JobApp.job_url := AppTable.job_url row;
     JobApp.job_description := AppTable.job_description row;
     JobApp.application_date := AppTable.application_date row;
     JobApp.status := AppTable.status row;
     JobApp.priority := AppTable.priority row;
     JobApp.salary_range := AppTable.salary_range row;
     JobApp.notes := AppTable.notes row;
     JobApp.recruiter_name := AppTable.recruiter_name row;
     JobApp.recruiter_email := AppTable.recruiter_email row;
     JobApp.follow_up_date := AppTable.follow_up_date row;
     JobApp.interview_date := AppTable.interview_date row;
     JobApp.interview_type := AppTable.interview_type row;
     JobApp.interview_notes := AppTable.interview_notes row;
     JobApp.rejection_reason := AppTable.rejection_reason row;
     JobApp.offer_amount := AppTable.offer_amount row;
     JobApp.created_at := AppTable.created_at row;
     JobApp.updated_at := AppTable.updated_at row |}.

Definition _row_to_interview (row : IntvTable.row) : Intv.Interview :=
  {| Intv.id := Some (IntvTable.id row);
     Intv.application_id := IntvTable.application_id row;
     Intv.interview_date := IntvTable.interview_date row;
     Intv.interview_type := IntvTable.interview_type row;
     Intv.interviewer_name := IntvTable.interviewer_name row;
     Intv.interviewer_title := IntvTable.interviewer_title row;
     Intv.questions_asked := IntvTable.questions_asked row;
     Intv.my_answers := IntvTable.my_answers row;
     Intv.feedback_received := IntvTable.feedback_received row;
     Intv.next_steps := IntvTable.next_steps row;
     Intv.preparation_notes := IntvTable.preparation_notes row;
     Intv.created_at := IntvTable.created_at row;
     Intv.updated_at := IntvTable.updated_at row |}.

(** The row that the INSERT of [add_application] writes: the twenty
    values of the VALUES clause under the new rowid; the [id] of the
    dataclass is not among them.  [created_at] and [updated_at] are the
    current time, which the method has stored in the dataclass. *)
Definition application_row (rowid : Z) (now : string)
    (application : JobApp.JobApplication) : AppTable.row :=
  {| AppTable.id := rowid;
     AppTable.company := JobApp.company application;
     AppTable.position := JobApp.position application;
     AppTable.location := JobApp.location application;
     AppTable.job_url := JobApp.job_url application;
     AppTable.job_description := JobApp.job_description application;
     AppTable.application_date := JobApp.application_date application;
     AppTable.status := JobApp.status application;
     AppTable.priority := JobApp.priority application;
     AppTable.salary_range := JobApp.salary_range application;
     AppTable.notes := JobApp.notes application;
     AppTable.recruiter_name := JobApp.recruiter_name application;
     AppTable.recruiter_email := JobApp.recruiter_email application;
     AppTable.follow_up_date := JobApp.follow_up_date application;
     AppTable.interview_date := JobApp.interview_date application;
     AppTable.interview_type := JobApp.interview_type application;
     AppTable.interview_notes := JobApp.interview_notes application;
     AppTable.rejection_reason := JobApp.rejection_reason application;
     AppTable.offer_amount := JobApp.offer_amount application;
     AppTable.created_at := Some now;
     AppTable.updated_at := Some now |}.

Definition interview_row (rowid : Z) (now : string)
    (interview : Intv.Interview) : IntvTable.row :=
  {| IntvTable.id := rowid;
     IntvTable.application_id := Intv.application_id interview;
     IntvTable.interview_date := Intv.interview_date interview;
     IntvTable.interview_type := Intv.interview_type interview;
     IntvTable.interviewer_name := Intv.interviewer_name interview;
     IntvTable.interviewer_title := Intv.interviewer_title interview;
     IntvTable.questions_asked := Intv.questions_asked interview;
     IntvTable.my_answers := Intv.my_answers interview;
     IntvTable.feedback_received := Intv.feedback_received interview;
     IntvTable.next_steps := Intv.next_steps interview;
     IntvTable.preparation_notes := Intv.preparation_notes interview;
     IntvTable.created_at := Some now;
     IntvTable.updated_at := Some now |}.

(** ** The UPDATE statement of [update_application] *)

(** [updates: Dict[str, Any]]: the items in insertion order, the keys
    pairwise different. *)
Definition dict := list (string * pyval).

(** [updates[k] = v]: the value of an existing key is replaced where the
    key stands, a new key goes to the end. *)
Fixpoint dict_set (k : string) (v : pyval) (d : dict) : dict :=
  match d with
  | [] => [(k, v)]
  | (k', v') :: d' =>
      if (k' =? k)%string then (k, v) :: d' else (k', v') :: dict_set k v d'
  end.

(** A key of the dictionary is spliced into the statement as the name of
    the column to set ([f"{key} = ?"]).  SQLite compares the names of
    columns without regard to ASCII case, and [rowid], [oid] and [_rowid_]
    name the INTEGER PRIMARY KEY.  The embedding takes a key for one
    name; a key that is no name of a column makes the statement fail. *)
Definition rowid_aliases : list string := ["rowid"; "oid"; "_rowid_"].

Definition resolve_column (key : string) : option AppTable.column :=
  let name := Sqlite.lower key in
  match find (fun nc => (fst nc =? name)%string) AppTable.column_names with
  | Some (_, c) => Some c
  | None =>
      if existsb (String.eqb name) rowid_aliases then Some AppTable.Id
      else None
  end.

Definition assignment := (AppTable.column * pyval)%type.

(** Compiling the statement: every key has to name a column. *)
Fixpoint prepare_update (updates : dict) : result (list assignment) :=
  match updates with
  | [] => Ret []
  | (key, v) :: rest =>
      match resolve_column key with
      | None => Raise (OperationalError ("no such column: " ++ key))
      | Some c => l <- prepare_update rest ;; Ret ((c, v) :: l)
      end
  end.

(** Binding the parameters. *)
Definition bind_value (v : pyval) : result pyval :=
  match v with
  | PInt z => z' <- Sqlite.bind_int z ;; Ret (PInt z')
  | _ => Ret v
  end.

Fixpoint bind_values (l : list assignment) : result (list assignment) :=
  match l with
  | [] => Ret []
  | (c, v) :: rest =>
      v' <- bind_value v ;; l' <- bind_values rest ;; Ret ((c, v') :: l')
  end.

(** When a column is set more than once, all but the rightmost assignment
    are ignored. *)
Fixpoint effective (l : list assignment) : list assignment :=
  match l with
  | [] => []
  | (c, v) :: rest =>
      if existsb (fun cv => AppTable.column_eqb c (fst cv)) rest
      then effective rest
      else (c, v) :: effective rest
  end.

(** TEXT affinity: an integer is stored as its decimal text. *)
Definition to_text (v : pyval) : text :=
  match v with
  | PNone => None
  | PInt z => Some (format_int z)
  | PStr s => Some s
  end.

Section Tracker.

(** Three operations are parameters of the model.  Two are conversions
    of SQLite: the integer that a text denotes when it is stored as a
    rowid ([None] when it denotes none), and [strftime('%Y-%m', t)], the
    year and month of a text read as a date (NULL when SQLite cannot read
    it).  The third is [round(x, 2)] on a [float]: Python forms the rate
    and rounds it in binary floating point, the model forms the rate as
    an exact rational and leaves the rounding open. *)
Variable integer_of_text : string -> option Z.
Variable strftime_Ym : text -> text.
Variable round_float : Q -> Q.

(** The new value of an INTEGER PRIMARY KEY has to be an integer. *)
Definition to_rowid (v : pyval) : result Z :=
  let mismatch := Raise (IntegrityError "datatype mismatch") in
  match v with
  | PNone => mismatch
  | PInt z => Ret z
  | PStr s =>
      match integer_of_text s with
      | Some z => Ret z
      | None => mismatch
      end
  end.

Definition assign (r : AppTable.row) (cv : assignment) : result AppTable.row :=
  match cv with
  | (AppTable.Id, v) => z <- to_rowid v ;; Ret (AppTable.set_id z r)
  | (AppTable.Text c, v) =>
      match to_text v with
      | None =>
          if AppTable.not_null c
          then Raise (IntegrityError "NOT NULL constraint failed")
          else Ret (AppTable.set_text c None r)
      | Some s => Ret (AppTable.set_text c (Some s) r)
      end
  end.

Fixpoint assign_all (r : AppTable.row) (l : list assignment)
  : result AppTable.row :=
  match l with
  | [] => Ret r
  | cv :: rest => r' <- assign r cv ;; assign_all r' rest
  end.

(** The new content of one row of [table]; a new rowid must not be the
    rowid of another row. *)
Definition update_row (table : list AppTable.row) (l : list assignment)
    (r : AppTable.row) : result AppTable.row :=
  r' <- assign_all r (effective l) ;;
  if negb (AppTable.id r' =? AppTable.id r)
     && existsb (fun o => AppTable.id o =? AppTable.id r') table
  then Raise (IntegrityError "UNIQUE constraint failed: job_applications.id")
  else Ret r'.

(** [UPDATE job_applications SET ... WHERE id = ?]: the new rows and
    [cursor.rowcount]. *)
Fixpoint update_where (table : list AppTable.row) (l : list assignment)
    (application_id : Z) (rows : list AppTable.row)
  : result (list AppTable.row * Z) :=
  match rows with
  | [] => Ret ([], 0)
  | r :: rows' =>
      if AppTable.id r =? application_id then
        r' <- update_row table l r ;;
        rest <- update_where table l application_id rows' ;;
        Ret (r' :: fst rest, snd rest + 1)
      else
        rest <- update_where table l application_id rows' ;;
        Ret (r :: fst rest, snd rest)
  end.

Definition with_job_applications (d : database) (rows : list AppTable.row)
  : database :=
  {| job_applications := rows; interviews := interviews d;
     seq_job_applications := seq_job_applications d;
     seq_interviews := seq_interviews d |}.

Definition sql_update (updates : dict) (application_id : Z) (d : database)
  : result (database * Z) :=
  l <- prepare_update updates ;;
  l <- bind_values l ;;
  application_id <- Sqlite.bind_int application_id ;;
  rows <- update_where (job_applications d) l application_id
            (job_applications d) ;;
  Ret (with_job_applications d (fst rows), snd rows).

(** ** The other statements *)

(** The INSERT of [add_application]: [company] and [position] are NOT
    NULL; the result is the new content and [cursor.lastrowid]. *)
Definition sql_insert_application (now : string)
    (application : JobApp.JobApplication) (d : database)
  : result (database * Z) :=
  match JobApp.company application, JobApp.position application with
  | Some _, Some _ =>
      rowid <- Sqlite.new_rowid (map AppTable.id (job_applications d))
                 (seq_job_applications d) ;;
      Ret ({| job_applications :=
                job_applications d ++ [application_row rowid now application];
              interviews := interviews d;
              seq_job_applications := rowid;
              seq_interviews := seq_interviews d |}, rowid)
  | _, _ => Raise (IntegrityError "NOT NULL constraint failed")
  end.

(** The INSERT of [add_interview].  Foreign keys are not enforced (the
    connection never turns them on), so any [application_id] is taken. *)
Definition sql_insert_interview (now : string) (interview : Intv.Interview)
    (d : database) : result (database * Z) :=
  _ <- Sqlite.bind_int (Intv.application_id interview) ;;
  rowid <- Sqlite.new_rowid (map IntvTable.id (interviews d))
             (seq_interviews d) ;;
  Ret ({| job_applications := job_applications d;
          interviews := interviews d ++ [interview_row rowid now interview];
          seq_job_applications := seq_job_applications d;
          seq_interviews := rowid |}, rowid).

(** The two DELETE statements of [delete_application] and the
    [cursor.rowcount] of the second. *)
Definition sql_delete (application_id : Z) (d : database)
  : result (database * Z) :=
  application_id <- Sqlite.bind_int application_id ;;
  let kept_interviews :=
    filter (fun i => negb (IntvTable.application_id i =? application_id))
      (interviews d) in
  let deleted :=
    filter (fun r => AppTable.id r =? application_id) (job_applications d) in
  let kept :=
    filter (fun r => negb (AppTable.id r =? application_id))
      (job_applications d) in
  Ret ({| job_applications := kept;
          interviews := kept_interviews;
          seq_job_applications := seq_job_applications d;
          seq_interviews := seq_interviews d |},
       Z.of_nat (List.length deleted)).

(** [company LIKE ?] on the rows that reach it. *)
Definition like_where (pattern : string) (c : text) : bool :=
  match c with
  | Some s => Sqlite.like pattern s
  | None => false
  end.

(** The LIKE function refuses a pattern that is too long when it is
    called, that is, when a row reaches it. *)
Definition sql_like_company (pattern : string) (rows : list AppTable.row)
  : result (list AppTable.row) :=
  match rows with
  | [] => Ret []
  | _ :: _ =>
      if Sqlite.MAX_LIKE_PATTERN_LENGTH <? Z.of_nat (String.length pattern)
      then Raise (OperationalError "LIKE or GLOB pattern too complex")
      else Ret (filter (fun r => like_where pattern (AppTable.company r)) rows)
  end.

(** The SELECT of [get_applications]. *)
Definition sql_select_applications (status company : text) (limit : Z)
    (d : database) : result (list AppTable.row) :=
  limit <- Sqlite.bind_int limit ;;
  let by_status :=
    if truthy_str status
    then filter (fun r => Sqlite.eq_where (AppTable.status r) status)
           (job_applications d)
    else job_applications d in
  by_company <-
    (if truthy_str company
     then sql_like_company ("%" ++ format_str company ++ "%") by_status
     else Ret by_status) ;;
  Ret (Sqlite.limit limit
         (Sqlite.order_by_desc AppTable.application_date by_company)).

(** The SELECT of [get_follow_up_reminders]. *)
Definition needs_follow_up (deadline : text) (r : AppTable.row) : bool :=
  match AppTable.follow_up_date r with
  | None => false
  | Some _ =>
      Sqlite.le_where (AppTable.follow_up_date r) deadline
      && (Sqlite.eq_where (AppTable.status r) (Some "applied")
          || Sqlite.eq_where (AppTable.status r) (Some "under_review"))
  end.

Definition sql_select_follow_ups (today days_ahead : Z) (d : database)
  : list AppTable.row :=
  Sqlite.order_by_asc AppTable.follow_up_date
    (filter (needs_follow_up (Sqlite.date_now_plus_days today days_ahead))
       (job_applications d)).

(** ** Statistics *)

(** [round(x, 2)]: an [int] is its own rounding. *)
Definition py_round2 (x : number) : number :=
  match x with
  | Int z => Int z
  | Float q => Float (round_float q)
  end.

Record statistics := {
  total_applications : Z;
  status_counts : counts;
  company_counts : counts;
  monthly_counts : counts;
  total_interviews : Z;
  response_rate : number
}.

(** [a / b] on two [int]s: a [float]. *)
Definition py_truediv (a b : Z) : result Q :=
  if b =? 0 then Raise (ZeroDivisionError "division by zero")
  else Ret (inject_Z a / inject_Z b)%Q.

Definition sql_statistics (d : database) : result statistics :=
  let rows := job_applications d in
  let total_applications := Z.of_nat (List.length rows) in
  let status_counts := Sqlite.group_count (map AppTable.status rows) in
  let company_counts :=
    Sqlite.limit 10
      (Sqlite.sort_by (fun a b => snd b <=? snd a)
         (Sqlite.group_count (map AppTable.company rows))) in
  let monthly_counts :=
    Sqlite.limit 12
      (Sqlite.order_by_desc fst
         (Sqlite.group_count
            (map (fun r => strftime_Ym (AppTable.application_date r)) rows))) in
  let total_interviews := Z.of_nat (List.length (interviews d)) in
  let responded :=
    counts_get "interview_scheduled" status_counts
    + counts_get "rejected" status_counts
    + counts_get "offer_received" status_counts in
  response_rate <-
    (if 0 <? total_applications
     then q <- py_truediv responded total_applications ;;
          Ret (Float (q * 100))
     else Ret (Int 0)) ;;
  Ret {| total_applications := total_applications;
         status_counts := status_counts;
         company_counts := company_counts;
         monthly_counts := monthly_counts;
         total_interviews := total_interviews;
         response_rate := py_round2 response_rate |}.

(** ** The methods of [JobTracker]

    Every method takes the state of the file and, where the source reads
    the clock, the current time: [now] is [datetime.now().isoformat()],
    [today] the current UTC day counted from 1970-01-01.  A method that
    writes returns the new state of the file next to its result.  Two
    methods also write to their argument ([add_application] and
    [add_interview] store the time in the dataclass, [update_application]
    adds [updated_at] to the dictionary); no method reads the argument
    again afterwards, and the embedding passes the new values on instead
    of modelling the shared object. *)

(** [CREATE TABLE IF NOT EXISTS], twice, and the indexes. *)
Definition init_database (f : db_file) : result unit * db_file :=
  commit f
    (conn <- connect f ;;
     Ret (match conn with
          | None => empty_database
          | Some d => d
          end, tt))
    (fun e => Raise e).

Definition add_application (now : string)
    (application : JobApp.JobApplication) (f : db_file)
  : result Z * db_file :=
  commit f
    (conn <- connect f ;;
     d <- tables conn ;;
     sql_insert_application now application d)
    (fun e => Raise e).

Definition get_application (application_id : Z) (f : db_file)
  : result (option JobApp.JobApplication) :=
  try_except
    (conn <- connect f ;;
     d <- tables conn ;;
     application_id <- Sqlite.bind_int application_id ;;
     let row :=
       find (fun r => AppTable.id r =? application_id) (job_applications d) in
     Ret (option_map _row_to_application row))
    (fun _ => Ret None).

Definition default_limit : Z := 50.

Definition get_applications (status company : text) (limit : Z) (f : db_file)
  : result (list JobApp.JobApplication) :=
  try_except
    (conn <- connect f ;;
     d <- tables conn ;;
     rows <- sql_select_applications status company limit d ;;
     Ret (map _row_to_application rows))
    (fun _ => Ret []).

Definition update_application (now : string) (application_id : Z)
    (updates : dict) (f : db_file) : result bool * db_file :=
  commit f
    (conn <- connect f ;;
     d <- tables conn ;;
     let updates := dict_set "updated_at" (PStr now) updates in
     done <- sql_update updates application_id d ;;
     Ret (fst done, 0 <? snd done))
    (fun _ => Ret false).

Definition delete_application (application_id : Z) (f : db_file)
  : result bool * db_file :=
  commit f
    (conn <- connect f ;;
     d <- tables conn ;;
     done <- sql_delete application_id d ;;
     Ret (fst done, 0 <? snd done))
    (fun _ => Ret false).

Definition add_interview (now : string) (interview : Intv.Interview)
    (f : db_file) : result Z * db_file :=
  commit f
    (conn <- connect f ;;
     d <- tables conn ;;
     sql_insert_interview now interview d)
    (fun e => Raise e).

Definition get_interviews (application_id : option Z) (f : db_file)
  : result (list Intv.Interview) :=
  try_except
    (conn <- connect f ;;
     d <- tables conn ;;
     rows <-
       (match application_id with
        | Some a =>
            if truthy_int application_id then
              a <- Sqlite.bind_int a ;;
              Ret (filter (fun i => IntvTable.application_id i =? a)
                     (interviews d))
            else Ret (interviews d)
        | None => Ret (interviews d)
        end) ;;
     Ret (map _row_to_interview
            (Sqlite.order_by_desc IntvTable.interview_date rows)))
    (fun _ => Ret []).

(** The result is the dictionary of the six statistics, or [{}] ([None]
    here) after an exception. *)
Definition get_statistics (f : db_file) : result (option statistics) :=
  try_except
    (conn <- connect f ;;
     d <- tables conn ;;
     stats <- sql_statistics d ;;
     Ret (Some stats))
    (fun _ => Ret None).

Definition default_days_ahead : Z := 7.

Definition get_follow_up_reminders (today days_ahead : Z) (f : db_file)
  : result (list JobApp.JobApplication) :=
  try_except
    (conn <- connect f ;;
     d <- tables conn ;;
     Ret (map _row_to_application (sql_select_follow_ups today days_ahead d)))
    (fun _ => Ret []).

End Tracker.


(** * Sessions

    A session is a sequence of calls of the methods that write.  The
    identifiers that the successful calls of [add_application] return are
    collected in the order of the calls. *)

Inductive call :=
| AddApplication (now : string) (application : JobApp.JobApplication)
| UpdateApplication (now : string) (application_id : Z) (updates : dict)
| DeleteApplication (application_id : Z)
| AddInterview (now : string) (interview : Intv.Interview).

Section Session.

Variable integer_of_text : string -> option Z.

Definition perform (c : call) (f : db_file) : option Z * db_file :=
  match c with
  | AddApplication now application =>
      match add_application now application f with
      | (Ret i, f') => (Some i, f')
      | (Raise _, f') => (None, f')
      end
  | UpdateApplication now application_id updates =>
      (None, snd (update_application integer_of_text now application_id
                    updates f))
  | DeleteApplication application_id =>
      (None, snd (delete_application application_id f))
  | AddInterview now interview =>
      (None, snd (add_interview now interview f))
  end.

Fixpoint returned_identifiers (calls : list call) (f : db_file) : list Z :=
  match calls with
  | [] => []
  | c :: rest =>
      match fst (perform c f) with
      | Some i => i :: returned_identifiers rest (snd (perform c f))
      | None => returned_identifiers rest (snd (perform c f))
      end
  end.

End Session.

(** * Field-to-value mappings *)

(** The names of the fields of [JobApplication], which are the names of
    the columns. *)
Definition field_names : list string := map fst AppTable.column_names.

(** A dictionary whose keys are fields of [JobApplication]. *)
Definition field_mapping (updates : dict) : Prop :=
  NoDup (map fst updates)
  /\ Forall (fun key => In key field_names) (map fst updates).

(** A key made of letters, digits and underscores.  For such keys the
    embedding of the SET clause is exact: the key is one token of the
    statement and either names a column or makes SQLite refuse the
    statement. *)
Definition is_name_char (c : ascii) : bool :=
  let n := nat_of_ascii c in
  ((48 <=? n) && (n <=? 57) || (65 <=? n) && (n <=? 90)
   || (97 <=? n) && (n <=? 122) || (n =? 95))%nat.

Fixpoint is_name (s : string) : bool :=
  match s with
  | EmptyString => true
  | String c s' => is_name_char c && is_name s'
  end.

Definition plain_keys (updates : dict) : Prop :=
  Forall (fun key => is_name key = true) (map fst updates).

(** The dictionary has a key that names the column. *)
Definition names (updates : dict) (c : AppTable.column) : Prop :=
  exists key, In key (map fst updates) /\ resolve_column key = Some c.

(** The number of rows that the UPDATE of a call of [update_application]
    changes: [cursor.rowcount] when the statement runs, none when it
    raises and is rolled back. *)
Definition rows_affected (integer_of_text : string -> option Z)
    (now : string) (application_id : Z) (updates : dict) (f : db_file) : Z :=
  match f with
  | Tables d =>
      match sql_update integer_of_text
              (dict_set "updated_at" (PStr now) updates) application_id d with
      | Ret (_, n) => n
      | Raise _ => 0
      end
  | _ => 0
  end.

(** * Substrings

    [contains_nocase needle s]: the text [s] contains [needle] when the
    case of the ASCII letters is disregarded. *)
Fixpoint prefix_nocase (p s : string) : bool :=
  match p, s with
  | EmptyString, _ => true
  | String _ _, EmptyString => false
  | String a p', String b s' => Sqlite.eq_nocase a b && prefix_nocase p' s'
  end.

Fixpoint contains_nocase (needle s : string) : bool :=
  prefix_nocase needle s
  || match s with
     | EmptyString => false
     | String _ s' => contains_nocase needle s'
     end.

(** No character of the text is a wildcard of LIKE. *)
Fixpoint wildcard_free (p : string) : bool :=
  match p with
  | EmptyString => true
  | String c p' =>
      negb (c =? "%")%char && negb (c =? "_")%char && wildcard_free p'
  end.

(** No byte of the text is the NUL byte. *)
Fixpoint nul_free (p : string) : bool :=
  match p with
  | EmptyString => true
  | String c p' => negb (c =? zero)%char && nul_free p'
  end.

(** * Follow-up dates

    An application is due when its status is [applied] or [under_review]
    and its follow-up date is, as a text, on or before the date of
    [today + days_ahead] written [YYYY-MM-DD]. *)
Definition due_on_or_before (today days_ahead : Z) (r : AppTable.row) : bool :=
  (Sqlite.eq_where (AppTable.status r) (Some "applied")
   || Sqlite.eq_where (AppTable.status r) (Some "under_review"))
  && Sqlite.le_where (AppTable.follow_up_date r)
       (Some (Sqlite.iso_date (Sqlite.civil_from_days (today + days_ahead)))).

(** The place of a date in the calendar: dates compare as their keys do. *)
Definition date_key (ymd : Z * Z * Z) : Z :=
  let '(y, m, d) := ymd in y * 10000 + m * 100 + d.

(** * Rounding

    What the theorems ask of [round(x, 2)]: the result is a multiple of
    0.01 and no multiple of 0.01 is nearer to [x]. *)
Definition rounds_to_hundredths (round_float : Q -> Q) : Prop :=
  forall q, exists k,
    round_float q = Qmake k 100
    /\ 2 * Z.abs (k * Z.pos (Qden q) - 100 * Qnum q) <= Z.pos (Qden q).

(** * Responses

    An application has been answered when its status is
    [interview_scheduled], [rejected] or [offer_received]. *)
Definition responded_status (r : AppTable.row) : bool :=
  Sqlite.eq_where (AppTable.status r) (Some "interview_scheduled")
  || Sqlite.eq_where (AppTable.status r) (Some "rejected")
  || Sqlite.eq_where (AppTable.status r) (Some "offer_received").

(** * Example data *)

(** [JobApplication()] and [Interview()]: the defaults of the dataclasses. *)
Definition default_application : JobApp.JobApplication :=
  {| JobApp.id := None;
     JobApp.company := Some "";
     JobApp.position := Some "";
     JobApp.location := Some "";
     JobApp.job_url := Some "";
     JobApp.job_description := Some "";
     JobApp.application_date := Some "";
     JobApp.status := Some "applied";
     JobApp.priority := Some "medium";
     JobApp.salary_range := Some "";
     JobApp.notes := Some "";
     JobApp.recruiter_name := Some "";
     JobApp.recruiter_email := Some "";
     JobApp.follow_up_date := Some "";
     JobApp.interview_date := Some "";
     JobApp.interview_type := Some "";
     JobApp.interview_notes := Some "";
     JobApp.rejection_reason := Some "";
     JobApp.offer_amount := Some "";
     JobApp.created_at := Some "";
     JobApp.updated_at := Some "" |}.


(** [JobApplication(company=..., position="Data Engineer", status=...,
    application_date=..., follow_up_date=...)]. *)
Definition application (company status application_date follow_up_date : string)
  : JobApp.JobApplication :=
  {| JobApp.id := None;
     JobApp.company := Some company;
     JobApp.position := Some "Data Engineer";
     JobApp.location := Some "";
     JobApp.job_url := Some "";
     JobApp.job_description := Some "";
     JobApp.application_date := Some application_date;
     JobApp.status := Some status;
     JobApp.priority := Some "medium";
     JobApp.salary_range := Some "";
     JobApp.notes := Some "";
     JobApp.recruiter_name := Some "";
     JobApp.recruiter_email := Some "";
     JobApp.follow_up_date := Some follow_up_date;
     JobApp.interview_date := Some "";
     JobApp.interview_type := Some "";
     JobApp.interview_notes := Some "";
     JobApp.rejection_reason := Some "";
     JobApp.offer_amount := Some "";
     JobApp.created_at := Some "";
     JobApp.updated_at := Some "" |}.

(** [Interview(application_id=..., interview_date=...)]. *)
Definition interview (application_id : Z) (interview_date : string)
  : Intv.Interview :=
  {| Intv.id := None;
     Intv.application_id := application_id;
     Intv.interview_date := Some interview_date;
     Intv.interview_type := Some "";
     Intv.interviewer_name := Some "";
     Intv.interviewer_title := Some "";
     Intv.questions_asked := Some "";
     Intv.my_answers := Some "";
     Intv.feedback_received := Some "";
     Intv.next_steps := Some "";
     Intv.preparation_notes := Some "";
     Intv.created_at := Some "";
     Intv.updated_at := Some "" |}.

(** The tables of a file, for a file that has them. *)
Definition database_of (f : db_file) : database :=
  match f with
  | Tables d => d
  | _ => empty_database
  end.

(** A tracker on a new file, then one application and one interview for
    it. *)
Definition new_store : db_file := snd (init_database Fresh).

Definition one_application_store : db_file :=
  snd (add_application "2024-01-15T09:00:00"
         (application "Google" "applied" "2024-01-15" "2024-01-22")
         new_store).

Definition one_interview_store : db_file :=
  snd (add_interview "2024-01-20T09:00:00" (interview 1 "2024-01-25")
         one_application_store).

(** Instances of the parameters for the examples: a text that is a plain
    decimal numeral denotes its integer, and the year and month of a date
    written [YYYY-MM-DD] are its first seven characters.  SQLite does the
    same on such texts. *)
Definition decimal_integer (s : string) : option Z :=
  option_map Z.of_int (NilZero.int_of_string s).

Definition year_month (t : text) : text :=
  match t with
  | Some s => if (String.length s =? 10)%nat then Some (substring 0 7 s)
              else None
  | None => None
  end.

(** An instance of the rounding: the multiple of 0.01 nearest to the
    exact value, a tie going to the even multiple. *)
Definition round_half_even (q : Q) : Z :=
  let n := Qnum q in
  let d := Z.pos (Qden q) in
  let fl := n / d in
  let r := n mod d in
  if 2 * r <? d then fl
  else if d <? 2 * r then fl + 1
  else if Z.even fl then fl else fl + 1.

Definition nearest_hundredth (q : Q) : Q :=
  Qmake (round_half_even (q * 100)) 100.

(** A second application with an interview, after which the first
    application is given the identifier 0. *)
Definition two_applications_store : db_file :=
  snd (add_interview "2024-01-20T09:00:00" (interview 2 "2024-01-25")
         (snd (add_application "2024-01-16T09:00:00"
                 (application "Meta" "applied" "2024-01-16" "2024-01-23")
                 one_application_store))).

Definition application_zero_store : db_file :=
  snd (update_application decimal_integer "2024-01-21T09:00:00" 1
         [("id", PInt 0)] two_applications_store).


(** Three applications, one of them rejected. *)
Definition three_applications_store : db_file :=
  snd (add_application "2024-02-03T09:00:00"
         (application "Meta" "applied" "2024-02-03" "2024-02-10")
         (snd (add_application "2024-02-02T09:00:00"
                 (application "Meta" "rejected" "2024-02-02" "")
                 one_application_store))).

(** Twenty-one applications: two at each of the companies A to J, spread
    over the twelve months from 2023-02 to 2024-01, and one at K in
    2023-01. *)
Definition many_applications : list (string * string) :=
  [ ("K", "2023-01-05");
    ("A", "2023-02-01"); ("A", "2023-02-15");
    ("B", "2023-03-01"); ("B", "2023-03-15");
    ("C", "2023-04-01"); ("C", "2023-04-15");
    ("D", "2023-05-01"); ("D", "2023-05-15");
    ("E", "2023-06-01"); ("E", "2023-06-15");
    ("F", "2023-07-01"); ("F", "2023-07-15");
    ("G", "2023-08-01"); ("G", "2023-08-15");
    ("H", "2023-09-01"); ("H", "2023-09-15");
    ("I", "2023-10-01"); ("I", "2023-11-01");
    ("J", "2023-12-01"); ("J", "2024-01-01") ].

Definition busy_store : db_file :=
  fold_left
    (fun f company_date =>
       snd (add_application "2024-02-01T09:00:00"
              (application (fst company_date) "applied" (snd company_date) "")
              f))
    many_applications new_store.

(** * Notions for the further properties of the tracker *)

(** What a call of [update_application] with a field-to-value mapping
    without the key [id] that returns [True] has made of a row: the row
    keeps its identifier; a row with another identifier is as it was; in
    a row with the identifier every column that a key names holds the
    value of the key, as a text, and every column that no key names is
    as it was.  [updated_at] is among the keys, with the current time. *)
Definition updated_row (now : string) (application_id : Z) (updates : dict)
    (r r' : AppTable.row) : Prop :=
  AppTable.id r' = AppTable.id r
  /\ (AppTable.id r <> application_id -> r' = r)
  /\ (AppTable.id r = application_id ->
      (forall key v c,
         In (key, v) (dict_set "updated_at" (PStr now) updates) ->
         resolve_column key = Some (AppTable.Text c) ->
         AppTable.get_text c r' = to_text v)
      /\ (forall c,
            ~ names (dict_set "updated_at" (PStr now) updates)
                (AppTable.Text c) ->
            AppTable.get_text c r' = AppTable.get_text c r)).

(** The store after a sequence of calls. *)
Definition after_calls (integer_of_text : string -> option Z)
    (calls : list call) (f : db_file) : db_file :=
  fold_left (fun f c => snd (perform integer_of_text c f)) calls f.

(** The identifiers of the applications are pairwise different, and so
    are those of the interviews. *)
Definition identifiers_differ (d : database) : Prop :=
  NoDup (map AppTable.id (job_applications d))
  /\ NoDup (map IntvTable.id (interviews d)).

(** [sum(counts.values())]. *)
Definition counts_total (d : counts) : Z := fold_right Z.add 0 (map snd d).

(** The status asks for a follow-up; the status passes the filter of
    [get_applications]. *)
Definition active_status (r : AppTable.row) : bool :=
  Sqlite.eq_where (AppTable.status r) (Some "applied")
  || Sqlite.eq_where (AppTable.status r) (Some "under_review").

Definition has_status (status : text) (r : AppTable.row) : bool :=
  if truthy_str status then Sqlite.eq_where (AppTable.status r) status
  else true.

(** The row has kept its identifier, and it is due at [deadline] if it
    was. *)
Definition kept_due (deadline : text) (r r' : AppTable.row) : Prop :=
  AppTable.id r' = AppTable.id r
  /\ (needs_follow_up deadline r = true ->
      needs_follow_up deadline r' = true).

(** The columns other than [status], [follow_up_date] and [updated_at]
    are as they were. *)
Definition other_columns_kept (r r' : AppTable.row) : Prop :=
  forall c, c <> AppTable.c_status -> c <> AppTable.c_follow_up_date ->
            c <> AppTable.c_updated_at ->
            AppTable.get_text c r' = AppTable.get_text c r.

(** What a run of [_process_new_applications] over [apps] has made of a
    row: nothing, or a row ready to apply, for an application of
    [apps]. *)
Definition made_ready (apps : list JobApp.JobApplication)
    (r r' : AppTable.row) : Prop :=
  AppTable.id r' = AppTable.id r
  /\ (r' = r
      \/ (AppTable.status r' = Some "ready_to_apply"
          /\ (forall c, c <> AppTable.c_status -> c <> AppTable.c_notes ->
                        c <> AppTable.c_updated_at ->
                        AppTable.get_text c r' = AppTable.get_text c r)
          /\ exists app, In app apps
                         /\ JobApp.id app = Some (AppTable.id r))).

(** * The callers of the tracker

    The parts of src/agent.py, ui/dashboard.py and src/jobs_search.py
    that read and write the tracker.  What these modules leave to
    collaborators outside the repository (the texts that the language
    model generates, the clock, the configuration file) enters as a
    parameter.  An entry of [results["errors"]] is a text made from an
    exception; the embedding keeps the exception. *)

(** The exceptions that reach the callers: those of the tracker and of
    the arithmetic of dates, with their messages, and TypeError and
    ValueError, without. *)
Inductive caller_exn :=
| TrackerError (e : exn)
| TypeError
| ValueError.


(** ** ui/dashboard.py and src/jobs_search.py *)

(** [render_dashboard]: [stats = ...get_statistics()], then the metric
    Active Applications,
    [stats.get('status_counts', {}).get('applied', 0)
     + stats.get('status_counts', {}).get('under_review', 0)]. *)
Definition active_apps (stats : option statistics) : Z :=
  let status_counts :=
    match stats with
    | Some s => status_counts s
    | None => []
    end in
  counts_get "applied" status_counts
  + counts_get "under_review" status_counts.

Definition dashboard_active_apps (strftime_Ym : text -> text)
    (round_float : Q -> Q) (f : db_file) : result Z :=
  stats <- get_statistics strftime_Ym round_float f ;;
  Ret (active_apps stats).

Section Dashboard.

(** The values of a search result (texts, numbers, NaN), a text as a
    value, [f"{v}"], and the dataclass that the constructor builds from
    keywords that are all fields. *)
Variable value : Type.
Variable of_str : string -> value.
Variable format_value : value -> string.
Variable build : list (string * value) -> JobApp.JobApplication.

(** [d.get(key, default)]. *)
Fixpoint dict_get (key : string) (default : value) (d : list (string * value))
  : value :=
  match d with
  | [] => default
  | (k, v) :: d' => if (k =? key)%string then v else dict_get key default d'
  end.

(** jobs_search.py; [today] is [datetime.now().strftime("%Y-%m-%d")]. *)
Definition create_job_application_from_search (today : string)
    (job_data : list (string * value)) : list (string * value) :=
  [ ("company", dict_get "company" (of_str "") job_data);
    ("position", dict_get "title" (of_str "") job_data);
    ("location", dict_get "location" (of_str "") job_data);
    ("job_description", dict_get "description" (of_str "") job_data);
    ("job_url", dict_get "link" (of_str "") job_data);
    ("application_date", of_str today);
    ("status", of_str "new");
    ("priority", of_str "medium");
    ("source", of_str "job_search");
    ("notes",
     of_str ("Found via "
             ++ format_value (dict_get "via" (of_str "job search") job_data)
             ++ " on "
             ++ format_value (dict_get "date_collected" (of_str "") job_data)))
  ].

(** [JobApplication( **kwargs )]: the [__init__] of the dataclass takes
    its fields as keywords and no other keyword. *)
Definition JobApplication_init (kwargs : list (string * value))
  : caller_exn + JobApp.JobApplication :=
  match find (fun kv => negb (existsb (String.eqb (fst kv)) field_names))
          kwargs with
  | Some _ => inl TypeError
  | None => inr (build kwargs)
  end.

(** [save_all_to_tracker]: the rows of the search results are saved one
    after the other; the result is the number of the message of success,
    or the exception of the message of failure.  [today k] and [stamp k]
    are the readings of the clock in the round [k]. *)
Fixpoint save_all_from (today stamp : nat -> string) (k : nat)
    (results : list (list (string * value))) (f : db_file) (saved_count : Z)
  : (caller_exn + Z) * db_file :=
  match results with
  | [] => (inr saved_count, f)
  | job :: rest =>
      match JobApplication_init
              (create_job_application_from_search (today k) job) with
      | inl e => (inl e, f)
      | inr application =>
          match add_application (stamp k) application f with
          | (Ret _, f') =>
              save_all_from today stamp (S k) rest f' (saved_count + 1)
          | (Raise e, f') => (inl (TrackerError e), f')
          end
      end
  end.

Definition save_all_to_tracker (today stamp : nat -> string)
    (results : list (list (string * value))) (f : db_file)
  : (caller_exn + Z) * db_file :=
  save_all_from today stamp 0 results f 0.

End Dashboard.

(** ** src/agent.py *)

(** The dictionary [results] of [run_daily_workflow]. *)
Record results := {
  applications_processed : Z;
  follow_ups_sent : Z;
  new_jobs_found : Z;
  errors : list caller_exn
}.

Definition append_error (e : caller_exn) (res : results) : results :=
  {| applications_processed := applications_processed res;
     follow_ups_sent := follow_ups_sent res;
     new_jobs_found := new_jobs_found res;
     errors := (errors res ++ [e])%list |}.

Definition count_follow_up (res : results) : results :=
  {| applications_processed := applications_processed res;
     follow_ups_sent := follow_ups_sent res + 1;
     new_jobs_found := new_jobs_found res;
     errors := errors res |}.

(** A reading of [datetime.now()]: the local date, as a day counted from
    1970-01-01, and the text of [isoformat()]. *)
Record reading := {
  local_day : Z;
  isoformat : string
}.

(** [s[:n]] on a text: the first [n] characters, a character being a lead
    byte and the continuation bytes that follow it. *)
Fixpoint take_continuation (s : string) : string :=
  match s with
  | EmptyString => EmptyString
  | String c s' =>
      if Sqlite.is_continuation c then String c (take_continuation s')
      else EmptyString
  end.

Fixpoint slice_to (n : nat) (s : string) : string :=
  match n, s with
  | O, _ => EmptyString
  | S _, EmptyString => EmptyString
  | S n', String c s' =>
      String c (take_continuation s'
                ++ slice_to n' (Sqlite.skip_continuation s'))
  end.

(** A job that the search has found: the dictionary with the keys
    [company], [position], [location], [url], [description] and
    [priority]. *)
Module Job.
Record job := make {
  company : string;
  position : string;
  location : string;
  url : string;
  description : string;
  priority : string
}.
End Job.

(** [_discover_jobs]: the two jobs of the simulation. *)
Definition _discover_jobs : list Job.job :=
  [ {| Job.company := "Google";
       Job.position := "Senior Data Engineer";
       Job.location := "Mountain View, CA";
       Job.url := "https://careers.google.com/jobs/results/123456";
       Job.description :=
         "Looking for a Senior Data Engineer with GCP experience...";
       Job.priority := "high" |};
    {| Job.company := "Meta";
       Job.position := "ML Engineer";
       Job.location := "Menlo Park, CA";
       Job.url := "https://careers.meta.com/jobs/123456";
       Job.description := "Seeking an ML Engineer for real-time ML systems...";
       Job.priority := "high" |} ].

(** [needle in s] on two texts. *)
Fixpoint contains (needle s : string) : bool :=
  String.prefix needle s
  || match s with
     | EmptyString => false
     | String _ s' => contains needle s'
     end.

Section Agent.

Variable integer_of_text : string -> option Z.

(** [strftime("%Y-%m-%d")] of a local date and [datetime.strptime(s,
    "%Y-%m-%d")] as the day of the date that the text denotes, [None]
    when it denotes none (ValueError). *)
Variable strftime_Ymd : Z -> string.
Variable strptime_Ymd : string -> option Z.

(** [now k j] is the reading of the [j]-th call of [datetime.now()] in
    the [k]-th round of a loop, and [message k] the outcome of
    [generate_follow_up_message] in that round: the text of the message,
    or the exception that the call raised. *)
Variable now : nat -> nat -> reading.
Variable message : nat -> caller_exn + string.

(** [(datetime.now() + timedelta(days=n)).strftime("%Y-%m-%d")]: the sum
    has to be a date before the year 10000. *)
Definition strftime_plus_days (r : reading) (n : Z) : result string :=
  if local_day r + n <=? Sqlite.LAST_DAY
  then Ret (strftime_Ymd (local_day r + n))
  else Raise (OverflowError "date value out of range").

(** [update_application(app.id, updates)] with the [id] of a dataclass:
    for [None] the statement is [WHERE id = NULL], which selects no
    row. *)
Definition update_by_id (stamp : string) (id : option Z) (updates : dict)
    (f : db_file) : result bool * db_file :=
  match id with
  | Some i => update_application integer_of_text stamp i updates f
  | None => (Ret false, f)
  end.

(** One round of the loop of [_process_follow_ups]. *)
Definition process_follow_up (k : nat) (app : JobApp.JobApplication)
    (f : db_file) (res : results) : db_file * results :=
  match message k with
  | inl e => (f, append_error e res)
  | inr text =>
      match strftime_plus_days (now k 0%nat) 7 with
      | Raise e => (f, append_error (TrackerError e) res)
      | Ret next_follow_up =>
          let updates :=
            [("follow_up_date", PStr next_follow_up);
             ("notes",
              PStr ("Follow-up sent: " ++ slice_to 100 text ++ "..."))] in
          (snd (update_by_id (isoformat (now k 1%nat)) (JobApp.id app)
                  updates f),
           count_follow_up res)
      end
  end.

Fixpoint process_follow_ups_from (k : nat) (apps : list JobApp.JobApplication)
    (f : db_file) (res : results) : db_file * results :=
  match apps with
  | [] => (f, res)
  | app :: rest =>
      let '(f', res') := process_follow_up k app f res in
      process_follow_ups_from (S k) rest f' res'
  end.

(** [today] is the UTC day of the [date('now', ...)] of the query. *)
Definition _process_follow_ups (today : Z) (f : db_file) (res : results)
  : db_file * results :=
  match get_follow_up_reminders today default_days_ahead f with
  | Ret follow_up_apps => process_follow_ups_from 0 follow_up_apps f res
  | Raise e => (f, append_error (TrackerError e) res)
  end.

(** [a == s] for an attribute that may be [None]. *)
Definition py_eq_str (a : text) (s : string) : bool :=
  match a with
  | Some t => (t =? s)%string
  | None => false
  end.

(** One round of the loop of [_update_application_statuses]:
    [strptime] raises TypeError for [None] and ValueError for a text
    that is no date. *)
Definition update_status (k : nat) (app : JobApp.JobApplication)
    (f : db_file) (res : results) : db_file * results :=
  match JobApp.application_date app with
  | None => (f, append_error TypeError res)
  | Some s =>
      match strptime_Ymd s with
      | None => (f, append_error ValueError res)
      | Some app_date =>
          let days_since_applied := local_day (now k 0%nat) - app_date in
          if (7 <=? days_since_applied)
             && py_eq_str (JobApp.status app) "applied"
          then
            match strftime_plus_days (now k 1%nat) 7 with
            | Raise e => (f, append_error (TrackerError e) res)
            | Ret follow_up =>
                (snd (update_by_id (isoformat (now k 2%nat)) (JobApp.id app)
                        [("status", PStr "under_review");
                         ("follow_up_date", PStr follow_up)] f),
                 res)
            end
          else (f, res)
      end
  end.

Fixpoint update_statuses_from (k : nat) (apps : list JobApp.JobApplication)
    (f : db_file) (res : results) : db_file * results :=
  match apps with
  | [] => (f, res)
  | app :: rest =>
      let '(f', res') := update_status k app f res in
      update_statuses_from (S k) rest f' res'
  end.

Definition _update_application_statuses (f : db_file) (res : results)
  : db_file * results :=
  match get_applications (Some "applied") None default_limit f with
  | Ret applications => update_statuses_from 0 applications f res
  | Raise e => (f, append_error (TrackerError e) res)
  end.

(** What a run of [_update_application_statuses] over [apps] has made
    of a row: nothing, or a row under review whose follow-up date is
    seven days after a reading of the clock, for an application of
    [apps] that was at least seven days old. *)
Definition moved_to_review (apps : list JobApp.JobApplication)
    (r r' : AppTable.row) : Prop :=
  AppTable.id r' = AppTable.id r
  /\ (r' = r
      \/ (AppTable.status r' = Some "under_review"
          /\ other_columns_kept r r'
          /\ exists app k s day,
               In app apps
               /\ JobApp.id app = Some (AppTable.id r)
               /\ JobApp.application_date app = Some s
               /\ strptime_Ymd s = Some day
               /\ 7 <= local_day (now k 0%nat) - day
               /\ AppTable.follow_up_date r'
                  = Some (strftime_Ymd (local_day (now k 1%nat) + 7)))).

(** The loop of [_search_new_jobs]. *)
Definition count_new_job (res : results) : results :=
  {| applications_processed := applications_processed res;
     follow_ups_sent := follow_ups_sent res;
     new_jobs_found := new_jobs_found res + 1;
     errors := errors res |}.

(** [self.search_criteria.companies], and [str.lower]. *)
Variable companies : list string.
Variable py_lower : string -> string.

Definition _calculate_priority (job : Job.job) : string :=
  let company := py_lower (Job.company job) in
  let position := py_lower (Job.position job) in
  let tier_1_companies := map py_lower companies in
  if existsb (String.eqb company) tier_1_companies then "high"
  else if contains "senior" position || contains "staff" position
          || contains "principal" position
       then "high"
       else "medium".

Definition discovered_application (k : nat) (job : Job.job)
  : JobApp.JobApplication :=
  {| JobApp.id := None;
     JobApp.company := Some (Job.company job);
     JobApp.position := Some (Job.position job);
     JobApp.location := Some (Job.location job);
     JobApp.job_url := Some (Job.url job);
     JobApp.job_description := Some (Job.description job);
     JobApp.application_date := Some (strftime_Ymd (local_day (now k 0%nat)));
     JobApp.status := Some "discovered";
     JobApp.priority := Some (_calculate_priority job);
     JobApp.salary_range := Some "";
     JobApp.notes := Some "Discovered by AI agent";
     JobApp.recruiter_name := Some "";
     JobApp.recruiter_email := Some "";
     JobApp.follow_up_date := Some "";
     JobApp.interview_date := Some "";
     JobApp.interview_type := Some "";
     JobApp.interview_notes := Some "";
     JobApp.rejection_reason := Some "";
     JobApp.offer_amount := Some "";
     JobApp.created_at := Some "";
     JobApp.updated_at := Some "" |}.

Definition search_new_job (k : nat) (job : Job.job) (f : db_file)
    (res : results) : db_file * results :=
  match get_applications None (Some (Job.company job)) default_limit f with
  | Raise e => (f, append_error (TrackerError e) res)
  | Ret existing_apps =>
      if existsb (fun app => py_eq_str (JobApp.position app)
                               (Job.position job)) existing_apps
      then (f, res)
      else
        match add_application (isoformat (now k 1%nat))
                (discovered_application k job) f with
        | (Ret _, f') => (f', count_new_job res)
        | (Raise e, f') => (f', append_error (TrackerError e) res)
        end
  end.

Fixpoint search_new_jobs_from (k : nat) (jobs : list Job.job) (f : db_file)
    (res : results) : db_file * results :=
  match jobs with
  | [] => (f, res)
  | job :: rest =>
      let '(f', res') := search_new_job k job f res in
      search_new_jobs_from (S k) rest f' res'
  end.

Definition _search_new_jobs (f : db_file) (res : results)
  : db_file * results :=
  search_new_jobs_from 0 _discover_jobs f res.

(** [_process_new_applications].  [daily_limit] is the limit of the
    configuration, 5 when it gives none; [recruiter_message k] is the
    outcome of the steps of [_process_application] that generate texts in
    the round [k]: the recruiter message, or the exception that one of
    them raised. *)
Variable daily_limit : Z.
Variable recruiter_message : nat -> caller_exn + string.

Definition count_processed (res : results) : results :=
  {| applications_processed := applications_processed res + 1;
     follow_ups_sent := follow_ups_sent res;
     new_jobs_found := new_jobs_found res;
     errors := errors res |}.

Definition _process_application (k : nat) (application : JobApp.JobApplication)
    (f : db_file) : option caller_exn * db_file :=
  match recruiter_message k with
  | inl e => (Some e, f)
  | inr text =>
      (None,
       snd (update_by_id (isoformat (now k 0%nat)) (JobApp.id application)
              [("status", PStr "ready_to_apply");
               ("notes",
                PStr ("Tailored resume and cover letter generated. "
                      ++ "Recruiter message: " ++ slice_to 200 text
                      ++ "..."))] f))
  end.

(** The loop; [count] is [self.state.daily_application_count]. *)
Fixpoint process_new_applications_from (k : nat)
    (apps : list JobApp.JobApplication) (f : db_file) (res : results)
    (count : Z) : db_file * results * Z :=
  match apps with
  | [] => (f, res, count)
  | app :: rest =>
      if daily_limit <=? count then (f, res, count)
      else
        match _process_application k app f with
        | (Some e, f') =>
            process_new_applications_from (S k) rest f'
              (append_error e res) count
        | (None, f') =>
            process_new_applications_from (S k) rest f'
              (count_processed res) (count + 1)
        end
  end.

Definition _process_new_applications (f : db_file) (res : results)
    (count : Z) : db_file * results * Z :=
  match get_applications (Some "discovered") None default_limit f with
  | Ret new_apps => process_new_applications_from 0 new_apps f res count
  | Raise e => (f, append_error (TrackerError e) res, count)
  end.

End Agent.

(** A job whose company can be looked up with LIKE as a substring, and
    the store holds an application that [_search_new_jobs] takes for the
    job. *)
Definition job_ok (job : Job.job) : Prop :=
  Job.company job <> ""
  /\ wildcard_free (Job.company job) = true
  /\ nul_free (Job.company job) = true
  /\ Z.of_nat (String.length ("%" ++ Job.company job ++ "%"))
     <= Sqlite.MAX_LIKE_PATTERN_LENGTH.

Definition tracked (job : Job.job) (rows : list AppTable.row) : bool :=
  existsb (fun r => like_where ("%" ++ Job.company job ++ "%")
                      (AppTable.company r)
                    && py_eq_str (AppTable.position r) (Job.position job))
    rows.

(** * More example data *)

(** The day of a date of the proleptic Gregorian calendar, counted from
    1970-01-01. *)
Definition days_from_civil (ymd : Z * Z * Z) : Z :=
  let '(y, m, d) := ymd in
  let y' := if m <=? 2 then y - 1 else y in
  let era := y' / 400 in
  let yoe := y' - era * 400 in
  let mp := if 2 <? m then m - 3 else m + 9 in
  let doy := (153 * mp + 2) / 5 + d - 1 in
  let doe := yoe * 365 + yoe / 4 - yoe / 100 + doy in
  era * 146097 + doe - 719468.

(** Instances of the parameters of the agent for the examples.  A date
    is formatted as [YYYY-MM-DD], which is what [strftime] does from the
    year 1000 on.  A text is read as a date when it is the text
    [YYYY-MM-DD] of a date from the year 1 on; [strptime] reads these
    texts in the same way (and some others, which the examples do not
    use). *)
Definition example_strftime (day : Z) : string :=
  Sqlite.iso_date (Sqlite.civil_from_days day).

Definition example_strptime (s : string) : option Z :=
  match decimal_integer (substring 0 4 s),
        decimal_integer (substring 5 2 s),
        decimal_integer (substring 8 2 s) with
  | Some y, Some m, Some d =>
      let day := days_from_civil (y, m, d) in
      if (1 <=? y) && (example_strftime day =? s)%string then Some day
      else None
  | _, _, _ => None
  end.

(** A clock that stands at ten o'clock on 2024-01-15, the day 19737. *)
Definition example_clock (k j : nat) : reading :=
  {| local_day := 19737; isoformat := "2024-01-15T10:00:00" |}.

Definition example_message (k : nat) : caller_exn + string :=
  inr "Hi Sarah, I wanted to follow up on my previous message.".

Definition no_results : results :=
  {| applications_processed := 0; follow_ups_sent := 0;
     new_jobs_found := 0; errors := [] |}.

(** An application of 2024-01-01, and the store after a first search for
    new jobs. *)
Definition old_application_store : db_file :=
  snd (add_application "2024-01-01T09:00:00"
         (application "Meta" "applied" "2024-01-01" "2024-01-08") new_store).

Definition discovered_store : db_file :=
  fst (_search_new_jobs example_strftime example_clock ["Google"]
         Sqlite.lower new_store no_results).

Definition example_recruiter_message (k : nat) : caller_exn + string :=
  inr "Dear Hiring Manager, I am writing about the role.".

(** * Properties *)

(** ** The result monad *)

Lemma bind_ret_inv {A B : Type} (m : result A) (k : A -> result B) (b : B) :
  bind m k = Ret b -> exists a, m = Ret a /\ k a = Ret b.
Proof.
  destruct m as [a | e]; simpl; intros H.
  - exists a. split; [reflexivity | exact H].
  - discriminate H.
Qed.

Lemma bind_int_ret (z z' : Z) :
  Sqlite.bind_int z = Ret z' ->
  z' = z /\ Sqlite.MIN_ROWID <= z <= Sqlite.MAX_ROWID.
Proof.
  unfold Sqlite.bind_int.
  destruct (Sqlite.MIN_ROWID <=? z) eqn:Hlo;
    destruct (z <=? Sqlite.MAX_ROWID) eqn:Hhi; simpl; intros H;
    try discriminate H.
  inversion H; subst. apply Z.leb_le in Hlo. apply Z.leb_le in Hhi. lia.
Qed.

Lemma bind_int_fits (z : Z) :
  Sqlite.MIN_ROWID <= z <= Sqlite.MAX_ROWID -> Sqlite.bind_int z = Ret z.
Proof.
  intros [Hlo Hhi]. unfold Sqlite.bind_int.
  apply Z.leb_le in Hlo. apply Z.leb_le in Hhi. rewrite Hlo, Hhi.
  reflexivity.
Qed.

(** ** The bytewise order of strings *)

Lemma ascii_compare_refl (a : ascii) : (a ?= a)%char = Eq.
Proof. unfold Ascii.compare. apply N.compare_refl. Qed.

Lemma ascii_compare_lt_trans (a b c : ascii) :
  (a ?= b)%char = Lt -> (b ?= c)%char = Lt -> (a ?= c)%char = Lt.
Proof.
  unfold Ascii.compare. rewrite !N.compare_lt_iff. apply N.lt_trans.
Qed.

Lemma string_compare_refl (s : string) : (s ?= s)%string = Eq.
Proof.
  induction s as [| c s IH]; simpl.
  - reflexivity.
  - rewrite ascii_compare_refl. exact IH.
Qed.

Lemma string_compare_lt_trans (s t u : string) :
  (s ?= t)%string = Lt -> (t ?= u)%string = Lt -> (s ?= u)%string = Lt.
Proof.
  revert t u.
  induction s as [| a s IH]; intros [| b t] [| c u]; simpl;
    try discriminate; try reflexivity.
  destruct (a ?= b)%char eqn:Hab; try discriminate.
  - apply Ascii.compare_eq_iff in Hab. subst b.
    destruct (a ?= c)%char eqn:Hac; try discriminate; try reflexivity.
    apply IH.
  - intros _.
    destruct (b ?= c)%char eqn:Hbc; try discriminate.
    + apply Ascii.compare_eq_iff in Hbc. subst c. rewrite Hab. reflexivity.
    + intros _. rewrite (ascii_compare_lt_trans a b c Hab Hbc). reflexivity.
Qed.

Lemma string_leb_refl (s : string) : (s <=? s)%string = true.
Proof. unfold String.leb. rewrite string_compare_refl. reflexivity. Qed.

Lemma string_leb_trans (s t u : string) :
  (s <=? t)%string = true -> (t <=? u)%string = true ->
  (s <=? u)%string = true.
Proof.
  unfold String.leb.
  destruct (s ?= t)%string eqn:Hst; try discriminate; intros _.
  - apply String.compare_eq_iff in Hst. subst t. tauto.
  - destruct (t ?= u)%string eqn:Htu; try discriminate; intros _.
    + apply String.compare_eq_iff in Htu. subst u. rewrite Hst. reflexivity.
    + rewrite (string_compare_lt_trans s t u Hst Htu). reflexivity.
Qed.

Lemma order_leb_total (a b : text) :
  Sqlite.order_leb a b = true \/ Sqlite.order_leb b a = true.
Proof.
  destruct a as [s |], b as [t |]; simpl; auto.
  apply String.leb_total.
Qed.

Lemma order_leb_trans (a b c : text) :
  Sqlite.order_leb a b = true -> Sqlite.order_leb b c = true ->
  Sqlite.order_leb a c = true.
Proof.
  destruct a as [s |], b as [t |], c as [u |]; simpl; try discriminate; auto.
  apply string_leb_trans.
Qed.

Lemma key_eqb_eq (a b : text) : Sqlite.key_eqb a b = true <-> a = b.
Proof.
  destruct a as [s |], b as [t |]; simpl; split; intros H;
    try discriminate; try reflexivity.
  - apply String.eqb_eq in H. subst. reflexivity.
  - inversion H. apply String.eqb_refl.
Qed.

Lemma key_eqb_refl (a : text) : Sqlite.key_eqb a a = true.
Proof. apply key_eqb_eq. reflexivity. Qed.

Lemma eq_where_eq (a : text) (s : string) :
  Sqlite.eq_where a (Some s) = true <-> a = Some s.
Proof.
  destruct a as [t |]; simpl; split; intros H; try discriminate.
  - apply String.eqb_eq in H. subst. reflexivity.
  - inversion H. apply String.eqb_refl.
Qed.

(** ** ORDER BY and LIMIT *)

Section SortFacts.

Context {A : Type} (leb : A -> A -> bool).

Let le (x y : A) : Prop := leb x y = true.

Lemma insert_by_perm (x : A) (l : list A) :
  Permutation (Sqlite.insert_by leb x l) (x :: l).
Proof.
  induction l as [| y l IH]; simpl.
  - apply Permutation_refl.
  - destruct (leb x y).
    + apply Permutation_refl.
    + apply perm_trans with (y :: x :: l).
      * apply perm_skip. exact IH.
      * apply perm_swap.
Qed.

Lemma sort_by_perm (l : list A) : Permutation (Sqlite.sort_by leb l) l.
Proof.
  induction l as [| x l IH]; simpl.
  - apply perm_nil.
  - apply perm_trans with (x :: Sqlite.sort_by leb l).
    + apply insert_by_perm.
    + apply perm_skip. exact IH.
Qed.

Lemma sort_by_in (x : A) (l : list A) :
  In x (Sqlite.sort_by leb l) <-> In x l.
Proof.
  split; apply Permutation_in.
  - apply sort_by_perm.
  - apply Permutation_sym. apply sort_by_perm.
Qed.

Lemma sort_by_length (l : list A) :
  List.length (Sqlite.sort_by leb l) = List.length l.
Proof. apply Permutation_length. apply sort_by_perm. Qed.

Hypothesis leb_total : forall x y, leb x y = true \/ leb y x = true.

Lemma insert_by_hdrel (x y : A) (l : list A) :
  le y x -> HdRel le y l -> HdRel le y (Sqlite.insert_by leb x l).
Proof.
  intros Hyx Hl. destruct l as [| z l]; simpl.
  - constructor. exact Hyx.
  - destruct (leb x z); constructor.
    + exact Hyx.
    + inversion Hl; assumption.
Qed.

Lemma insert_by_sorted (x : A) (l : list A) :
  Sorted le l -> Sorted le (Sqlite.insert_by leb x l).
Proof.
  induction 1 as [| y l Hs IH Hhd]; simpl.
  - repeat constructor.
  - destruct (leb x y) eqn:Hxy.
    + constructor; [constructor; assumption | constructor; exact Hxy].
    + constructor; [exact IH |].
      apply insert_by_hdrel; [| exact Hhd].
      destruct (leb_total x y) as [H | H]; [congruence | exact H].
Qed.

Lemma sort_by_sorted (l : list A) : Sorted le (Sqlite.sort_by leb l).
Proof.
  induction l as [| x l IH]; simpl.
  - constructor.
  - apply insert_by_sorted. exact IH.
Qed.

Hypothesis leb_trans :
  forall x y z, leb x y = true -> leb y z = true -> leb x z = true.

Lemma sort_by_strongly_sorted (l : list A) :
  StronglySorted le (Sqlite.sort_by leb l).
Proof.
  apply Sorted_StronglySorted.
  - intros x y z. apply leb_trans.
  - apply sort_by_sorted.
Qed.

End SortFacts.


Lemma firstn_in {A : Type} (n : nat) (l : list A) (x : A) :
  In x (firstn n l) -> In x l.
Proof.
  revert l. induction n as [| n IH]; intros [| y l]; simpl; try tauto.
  intros [H | H]; [left; exact H | right; apply IH; exact H].
Qed.


Lemma limit_in {A : Type} (n : Z) (l : list A) (x : A) :
  In x (Sqlite.limit n l) -> In x l.
Proof.
  unfold Sqlite.limit. destruct (n <? 0); [tauto |]. apply firstn_in.
Qed.

Lemma limit_length {A : Type} (n : Z) (l : list A) :
  0 <= n -> Z.of_nat (List.length (Sqlite.limit n l)) <= n.
Proof.
  intros Hn. unfold Sqlite.limit.
  destruct (n <? 0) eqn:Hneg; [apply Z.ltb_lt in Hneg; lia |].
  pose proof (firstn_le_length (Z.to_nat n) l). lia.
Qed.

Lemma firstn_length_min {A : Type} (n : nat) (l : list A) :
  List.length (firstn n l) = Nat.min n (List.length l).
Proof.
  revert l. induction n as [| n IH]; intros l; [reflexivity |].
  destruct l as [| x l]; [reflexivity |].
  cbn [firstn List.length Nat.min]. rewrite IH. reflexivity.
Qed.

Lemma limit_length_min {A : Type} (n : Z) (l : list A) :
  0 <= n ->
  List.length (Sqlite.limit n l) = Nat.min (Z.to_nat n) (List.length l).
Proof.
  intros Hn. unfold Sqlite.limit.
  destruct (n <? 0) eqn:Hneg; [apply Z.ltb_lt in Hneg; lia |].
  apply firstn_length_min.
Qed.

Lemma limit_all {A : Type} (n : Z) (l : list A) :
  n < 0 \/ Z.of_nat (List.length l) <= n -> Sqlite.limit n l = l.
Proof.
  intros H. unfold Sqlite.limit.
  destruct (n <? 0) eqn:Hneg; [reflexivity |].
  apply Z.ltb_ge in Hneg. apply firstn_all2. lia.
Qed.

Lemma map_sorted {A B : Type} (f : A -> B) (R : B -> B -> Prop) (l : list A) :
  Sorted (fun x y => R (f x) (f y)) l -> Sorted R (map f l).
Proof.
  induction 1 as [| x l Hs IH Hhd]; simpl; constructor.
  - exact IH.
  - destruct Hhd; simpl; constructor. assumption.
Qed.

(** ** Lists *)

Lemma find_absent {A : Type} (f : A -> bool) (l : list A) :
  (forall x, In x l -> f x = false) -> find f l = None.
Proof.
  induction l as [| x l IH]; simpl; intros H.
  - reflexivity.
  - rewrite (H x (or_introl eq_refl)). apply IH.
    intros y Hy. apply H. right. exact Hy.
Qed.

Lemma filter_absent {A : Type} (f : A -> bool) (l : list A) :
  (forall x, In x l -> f x = false) -> filter f l = [].
Proof.
  induction l as [| x l IH]; simpl; intros H.
  - reflexivity.
  - rewrite (H x (or_introl eq_refl)). apply IH.
    intros y Hy. apply H. right. exact Hy.
Qed.

Lemma filter_all {A : Type} (f : A -> bool) (l : list A) :
  (forall x, In x l -> f x = true) -> filter f l = l.
Proof.
  induction l as [| x l IH]; simpl; intros H.
  - reflexivity.
  - rewrite (H x (or_introl eq_refl)). f_equal. apply IH.
    intros y Hy. apply H. right. exact Hy.
Qed.

(** ** Deleting an application (C1) *)

(** C1, as amended: on a readable database, for every identifier other
    than 0 that SQLite can hold, [delete_application] removes the
    application with that identifier and every interview whose
    [application_id] is that identifier, and nothing else; afterwards
    [get_application] returns [None] and [get_interviews] returns the
    empty list for that identifier. *)
Theorem delete_application_cascades (d : database) (application_id : Z) :
  application_id <> 0 ->
  Sqlite.MIN_ROWID <= application_id <= Sqlite.MAX_ROWID ->
  exists (ok : bool) (d' : database),
    delete_application application_id (Tables d) = (Ret ok, Tables d')
    /\ (forall r, In r (job_applications d') <->
                  In r (job_applications d)
                  /\ AppTable.id r <> application_id)
    /\ (forall i, In i (interviews d') <->
                  In i (interviews d)
                  /\ IntvTable.application_id i <> application_id)
    /\ get_application application_id (Tables d') = Ret None
    /\ get_interviews (Some application_id) (Tables d') = Ret [].
Proof.
  intros Hnz Hfits.
  unfold delete_application, sql_delete. simpl.
  rewrite (bind_int_fits _ Hfits). simpl.
  eexists. eexists. split; [reflexivity |].
  assert (Happs : forall r,
    In r (filter (fun r => negb (AppTable.id r =? application_id))
            (job_applications d)) <->
    In r (job_applications d) /\ AppTable.id r <> application_id).
  { intros r. rewrite filter_In, negb_true_iff, Z.eqb_neq. tauto. }
  assert (Hivs : forall i,
    In i (filter (fun i => negb (IntvTable.application_id i =? application_id))
            (interviews d)) <->
    In i (interviews d) /\ IntvTable.application_id i <> application_id).
  { intros i. rewrite filter_In, negb_true_iff, Z.eqb_neq. tauto. }
  split; [exact Happs |]. split; [exact Hivs |]. split.
  - unfold get_application. simpl. rewrite (bind_int_fits _ Hfits). simpl.
    rewrite find_absent; [reflexivity |].
    intros r Hr. apply Happs in Hr. apply Z.eqb_neq. tauto.
  - unfold get_interviews. simpl.
    assert (Htruthy : (application_id =? 0) = false)
      by (apply Z.eqb_neq; exact Hnz).
    rewrite Htruthy. simpl. rewrite (bind_int_fits _ Hfits). simpl.
    rewrite filter_absent; [reflexivity |].
    intros i Hi. apply Hivs in Hi. apply Z.eqb_neq. tauto.
Qed.

(** C1 as stated fails at the identifier 0, for which [get_interviews]
    applies no filter: in a store without an application 0 the call
    deletes nothing, in a store where an application has the identifier 0
    it deletes that application, and both times [get_interviews(0)]
    afterwards returns the interview of another application. *)
Lemma delete_application_zero_keeps_interviews :
  (fst (delete_application 0 one_interview_store) = Ret false
   /\ get_interviews (Some 0) (snd (delete_application 0 one_interview_store))
      = Ret [_row_to_interview
               (interview_row 1 "2024-01-20T09:00:00"
                  (interview 1 "2024-01-25"))])
  /\ (map AppTable.id (job_applications (database_of application_zero_store))
      = [0; 2]
      /\ fst (delete_application 0 application_zero_store) = Ret true
      /\ get_application 0 (snd (delete_application 0 application_zero_store))
         = Ret None
      /\ get_interviews (Some 0)
           (snd (delete_application 0 application_zero_store))
         = Ret [_row_to_interview
                  (interview_row 1 "2024-01-20T09:00:00"
                     (interview 2 "2024-01-25"))]).
Proof. repeat split. Qed.

(** The cascade at the identifier 1 of a store with one application and
    its interview. *)
Lemma delete_application_cascades_witness :
  1 <> 0
  /\ Sqlite.MIN_ROWID <= 1 <= Sqlite.MAX_ROWID
  /\ exists (ok : bool) (d' : database),
       delete_application 1 (Tables (database_of one_interview_store))
       = (Ret ok, Tables d')
       /\ (forall r, In r (job_applications d') <->
                     In r (job_applications (database_of one_interview_store))
                     /\ AppTable.id r <> 1)
       /\ (forall i, In i (interviews d') <->
                     In i (interviews (database_of one_interview_store))
                     /\ IntvTable.application_id i <> 1)
       /\ get_application 1 (Tables d') = Ret None
       /\ get_interviews (Some 1) (Tables d') = Ret [].
Proof.
  split; [lia |].
  split; [unfold Sqlite.MIN_ROWID, Sqlite.MAX_ROWID; lia |].
  apply (delete_application_cascades (database_of one_interview_store) 1).
  - lia.
  - unfold Sqlite.MIN_ROWID, Sqlite.MAX_ROWID. lia.
Defined.

(** ** Empty filters (C10) *)

Lemma order_by_desc_perm {A : Type} (key : A -> text) (l : list A) :
  Permutation (Sqlite.order_by_desc key l) l.
Proof. apply sort_by_perm. Qed.

Lemma order_by_asc_perm {A : Type} (key : A -> text) (l : list A) :
  Permutation (Sqlite.order_by_asc key l) l.
Proof. apply sort_by_perm. Qed.

(** C10: an empty [status] applies no status filter, and the
    [application_id] 0 applies no filter on the interviews: the two calls
    are the unfiltered calls, [get_interviews(0)] returns every stored
    interview, and [get_applications] with an empty [status], when no
    company filter and no limit cuts the result, returns every stored
    application. *)
Theorem empty_filters_apply_no_filter (d : database) (company : text)
    (limit : Z) :
  get_applications (Some "") company limit (Tables d)
  = get_applications None company limit (Tables d)
  /\ get_interviews (Some 0) (Tables d) = get_interviews None (Tables d)
  /\ (exists l, get_interviews (Some 0) (Tables d) = Ret l
                /\ Permutation l (map _row_to_interview (interviews d)))
  /\ (Sqlite.MIN_ROWID <= limit <= Sqlite.MAX_ROWID ->
      limit < 0 \/ Z.of_nat (List.length (job_applications d)) <= limit ->
      exists l, get_applications (Some "") None limit (Tables d) = Ret l
                /\ Permutation l
                     (map _row_to_application (job_applications d))).
Proof.
  split; [reflexivity |]. split; [reflexivity |]. split.
  - eexists. split; [reflexivity |].
    apply Permutation_map. apply order_by_desc_perm.
  - intros Hfits Hlimit.
    unfold get_applications, sql_select_applications. simpl.
    rewrite (bind_int_fits _ Hfits). simpl.
    eexists. split; [reflexivity |].
    apply Permutation_map. rewrite limit_all.
    + apply order_by_desc_perm.
    + unfold Sqlite.order_by_desc. rewrite sort_by_length. exact Hlimit.
Qed.

(** With the default limit and an empty [status], [get_applications]
    returns every application of the example store. *)
Lemma empty_filters_apply_no_filter_witness :
  exists l,
    get_applications (Some "") None 50
      (Tables (database_of one_interview_store)) = Ret l
    /\ Permutation l
         (map _row_to_application
            (job_applications (database_of one_interview_store))).
Proof.
  destruct (empty_filters_apply_no_filter
              (database_of one_interview_store) None 50) as (_ & _ & _ & H).
  apply H.
  - unfold Sqlite.MIN_ROWID, Sqlite.MAX_ROWID. lia.
  - right. vm_compute. discriminate.
Defined.

(** ** Exceptions (C5) *)






(** ** Identifiers of new applications (C6) *)

Lemma largest_bounds (ids : list Z) (m : Z) :
  Sqlite.largest ids = Some m -> Forall (fun j => j <= m) ids.
Proof.
  destruct ids as [| i ids]; simpl; [discriminate |].
  intros H. inversion H; subst m; clear H.
  induction ids as [| j ids IH]; simpl.
  - constructor; [lia | constructor].
  - inversion IH as [| ? ? Hi Hrest]; subst.
    constructor; [lia |]. constructor; [lia |].
    eapply Forall_impl; [| exact Hrest]. simpl. intros; lia.
Qed.

Lemma new_rowid_above (ids : list Z) (seq i : Z) :
  Sqlite.new_rowid ids seq = Ret i ->
  seq < i
  /\ Forall (fun j => j < i) ids
  /\ (seq <= Sqlite.MAX_ROWID -> i <= Sqlite.MAX_ROWID).
Proof.
  unfold Sqlite.new_rowid.
  destruct (Sqlite.largest ids) as [m |] eqn:Hm.
  - destruct (Sqlite.MAX_ROWID <=? m) eqn:Hfull; [discriminate |].
    destruct (seq =? Sqlite.MAX_ROWID) eqn:Hseq; [discriminate |].
    intros H. inversion H; subst i; clear H.
    apply Z.leb_gt in Hfull. apply Z.eqb_neq in Hseq.
    apply largest_bounds in Hm.
    split; [lia |]. split; [| lia].
    eapply Forall_impl; [| exact Hm]. simpl. intros; lia.
  - destruct ids; [| discriminate Hm].
    destruct (seq =? Sqlite.MAX_ROWID) eqn:Hseq; [discriminate |].
    intros H. inversion H; subst i; clear H.
    apply Z.eqb_neq in Hseq.
    split; [lia |]. split; [constructor |].
    unfold Sqlite.MAX_ROWID in *. lia.
Qed.

Lemma sql_insert_application_inv (now : string)
    (application : JobApp.JobApplication) (d d' : database) (i : Z) :
  sql_insert_application now application d = Ret (d', i) ->
  Sqlite.new_rowid (map AppTable.id (job_applications d))
    (seq_job_applications d) = Ret i
  /\ job_applications d'
     = (job_applications d ++ [application_row i now application])%list
  /\ interviews d' = interviews d
  /\ seq_job_applications d' = i
  /\ seq_interviews d' = seq_interviews d.
Proof.
  unfold sql_insert_application.
  destruct (JobApp.company application); [| discriminate].
  destruct (JobApp.position application); [| discriminate].
  intros H. apply bind_ret_inv in H. destruct H as (j & Hj & H).
  inversion H; subst; clear H. simpl. auto.
Qed.

Lemma sql_update_inv (integer_of_text : string -> option Z) (updates : dict)
    (application_id : Z) (d d' : database) (n : Z) :
  sql_update integer_of_text updates application_id d = Ret (d', n) ->
  exists l l' rows,
    prepare_update updates = Ret l
    /\ bind_values l = Ret l'
    /\ Sqlite.MIN_ROWID <= application_id <= Sqlite.MAX_ROWID
    /\ update_where integer_of_text (job_applications d) l' application_id
         (job_applications d) = Ret (rows, n)
    /\ d' = with_job_applications d rows.
Proof.
  unfold sql_update. intros H.
  apply bind_ret_inv in H. destruct H as (l & Hl & H).
  apply bind_ret_inv in H. destruct H as (l' & Hl' & H).
  apply bind_ret_inv in H. destruct H as (a & Ha & H).
  apply bind_ret_inv in H. destruct H as ([rows m] & Hrows & H).
  apply bind_int_ret in Ha. destruct Ha as [-> Hfits].
  inversion H; subst; clear H. simpl.
  exists l, l', rows. auto.
Qed.

Lemma perform_sequence (integer_of_text : string -> option Z) (c : call)
    (d : database) :
  exists d',
    snd (perform integer_of_text c (Tables d)) = Tables d'
    /\ seq_job_applications d <= seq_job_applications d'
    /\ (forall i, fst (perform integer_of_text c (Tables d)) = Some i ->
          seq_job_applications d < i /\ seq_job_applications d' = i).
Proof.
  destruct c as [now a | now aid updates | aid | now iv]; simpl.
  - unfold add_application. simpl.
    destruct (sql_insert_application now a d) as [[d' i] | e] eqn:Hins; simpl.
    + apply sql_insert_application_inv in Hins.
      destruct Hins as (Hnew & _ & _ & Hseq & _).
      apply new_rowid_above in Hnew.
      exists d'. split; [reflexivity |]. split; [lia |].
      intros j Hj. inversion Hj; subst j. lia.
    + exists d. split; [reflexivity |]. split; [lia |]. discriminate.
  - unfold update_application. simpl.
    destruct (sql_update integer_of_text _ aid d) as [[d' n] | e] eqn:Hupd;
      simpl.
    + apply sql_update_inv in Hupd.
      destruct Hupd as (l & l' & rows & _ & _ & _ & _ & ->).
      eexists. split; [reflexivity |]. simpl. split; [lia | discriminate].
    + exists d. split; [reflexivity |]. split; [lia | discriminate].
  - unfold delete_application, sql_delete. simpl.
    destruct (Sqlite.bind_int aid) as [a | e]; simpl;
      eexists; (split; [reflexivity |]); simpl; (split; [lia | discriminate]).
  - unfold add_interview, sql_insert_interview. simpl.
    destruct (Sqlite.bind_int (Intv.application_id iv)) as [a | e]; simpl;
      [| exists d; split; [reflexivity |]; split; [lia | discriminate]].
    destruct (Sqlite.new_rowid _ _) as [i | e]; simpl;
      eexists; (split; [reflexivity |]); simpl; (split; [lia | discriminate]).
Qed.

Lemma perform_without_tables (integer_of_text : string -> option Z)
    (c : call) (f : db_file) :
  (forall d, f <> Tables d) ->
  perform integer_of_text c f = (None, f).
Proof.
  intros Hf. destruct f as [e | | d];
    [| | exfalso; apply (Hf d); reflexivity];
    destruct c; reflexivity.
Qed.

Lemma returned_identifiers_without_tables
    (integer_of_text : string -> option Z) (calls : list call) (f : db_file) :
  (forall d, f <> Tables d) ->
  returned_identifiers integer_of_text calls f = [].
Proof.
  intros Hf. induction calls as [| c calls IH]; simpl; [reflexivity |].
  rewrite (perform_without_tables integer_of_text c f Hf). simpl. exact IH.
Qed.

Lemma returned_identifiers_above (integer_of_text : string -> option Z)
    (calls : list call) (d : database) :
  Forall (fun i => seq_job_applications d < i)
    (returned_identifiers integer_of_text calls (Tables d))
  /\ StronglySorted Z.lt
       (returned_identifiers integer_of_text calls (Tables d)).
Proof.
  revert d. induction calls as [| c calls IH]; intros d; simpl.
  - split; constructor.
  - destruct (perform_sequence integer_of_text c d) as (d' & Hd' & Hle & Hret).
    rewrite Hd'. destruct (IH d') as [Habove Hsorted].
    destruct (fst (perform integer_of_text c (Tables d))) as [i |] eqn:Hi.
    + destruct (Hret i eq_refl) as [Hlt Heq]. subst i. split.
      * constructor; [exact Hlt |].
        eapply Forall_impl; [| exact Habove]. simpl. intros; lia.
      * constructor; [exact Hsorted | exact Habove].
    + split; [| exact Hsorted].
      eapply Forall_impl; [| exact Habove]. simpl. intros; lia.
Qed.

Lemma strictly_increasing_nodup (l : list Z) :
  StronglySorted Z.lt l -> NoDup l.
Proof.
  induction 1 as [| x l Hs IH Hall]; constructor; [| exact IH].
  intros Hin. rewrite Forall_forall in Hall. specialize (Hall x Hin). lia.
Qed.

Lemma strictly_increasing_non_decreasing (l : list Z) :
  StronglySorted Z.lt l -> StronglySorted Z.le l.
Proof.
  induction 1 as [| x l Hs IH Hall]; constructor; [exact IH |].
  eapply Forall_impl; [| exact Hall]. simpl. intros; lia.
Qed.

Lemma find_last {A : Type} (f : A -> bool) (l : list A) (x : A) :
  (forall y, In y l -> f y = false) -> f x = true ->
  find f (l ++ [x]) = Some x.
Proof.
  intros Hl Hx. induction l as [| y l IH]; simpl.
  - rewrite Hx. reflexivity.
  - rewrite (Hl y (or_introl eq_refl)). apply IH.
    intros z Hz. apply Hl. right. exact Hz.
Qed.

(** The bound on sqlite_sequence under which a new rowid fits 64 bits; it
    holds of a new database and every call keeps it. *)
Lemma perform_keeps_sequence_bound (integer_of_text : string -> option Z)
    (c : call) (d : database) :
  0 <= seq_job_applications d <= Sqlite.MAX_ROWID ->
  0 <= seq_job_applications
         (database_of (snd (perform integer_of_text c (Tables d))))
    <= Sqlite.MAX_ROWID.
Proof.
  intros Hseq.
  destruct c as [now a | now aid updates | aid | now iv]; simpl.
  - unfold add_application. simpl.
    destruct (sql_insert_application now a d) as [[d' i] | e] eqn:Hins; simpl;
      [| exact Hseq].
    apply sql_insert_application_inv in Hins.
    destruct Hins as (Hnew & _ & _ & Hd' & _).
    apply new_rowid_above in Hnew. lia.
  - unfold update_application. simpl.
    destruct (sql_update integer_of_text _ aid d) as [[d' n] | e] eqn:Hupd;
      simpl; [| exact Hseq].
    apply sql_update_inv in Hupd.
    destruct Hupd as (l & l' & rows & _ & _ & _ & _ & ->). exact Hseq.
  - unfold delete_application, sql_delete. simpl.
    destruct (Sqlite.bind_int aid) as [a | e]; simpl; exact Hseq.
  - unfold add_interview, sql_insert_interview. simpl.
    destruct (Sqlite.bind_int (Intv.application_id iv)) as [a | e]; simpl;
      [| exact Hseq].
    destruct (Sqlite.new_rowid _ _) as [i | e]; simpl; exact Hseq.
Qed.

(** C6: within a session, whatever other calls come in between, the
    identifiers that the successful calls of [add_application] return are
    strictly increasing, hence pairwise different and non-decreasing; and
    a successful call returns the identifier under which the new record
    is stored: the record is appended with that identifier, no older
    record has it, and [get_application] finds the record under it. *)
Theorem add_application_identifiers (integer_of_text : string -> option Z)
    (calls : list call) (f : db_file) :
  StronglySorted Z.lt (returned_identifiers integer_of_text calls f)
  /\ NoDup (returned_identifiers integer_of_text calls f)
  /\ StronglySorted Z.le (returned_identifiers integer_of_text calls f)
  /\ (forall now application i f',
        add_application now application f = (Ret i, f') ->
        exists d d',
          f = Tables d /\ f' = Tables d'
          /\ job_applications d'
             = (job_applications d
                ++ [application_row i now application])%list
          /\ Forall (fun r => AppTable.id r <> i) (job_applications d)
          /\ (0 <= seq_job_applications d <= Sqlite.MAX_ROWID ->
              get_application i f'
              = Ret (Some (_row_to_application
                             (application_row i now application))))).
Proof.
  assert (Hsorted :
    StronglySorted Z.lt (returned_identifiers integer_of_text calls f)).
  { destruct f as [e | | d].
    - rewrite returned_identifiers_without_tables; [constructor |].
      intros d; discriminate.
    - rewrite returned_identifiers_without_tables; [constructor |].
      intros d; discriminate.
    - apply returned_identifiers_above. }
  split; [exact Hsorted |].
  split; [apply strictly_increasing_nodup; exact Hsorted |].
  split; [apply strictly_increasing_non_decreasing; exact Hsorted |].
  intros now application i f' Hadd.
  destruct f as [e | | d]; try discriminate Hadd.
  unfold add_application in Hadd. simpl in Hadd.
  destruct (sql_insert_application now application d) as [[d' j] | e] eqn:Hins;
    simpl in Hadd; [| discriminate Hadd].
  inversion Hadd; subst j f'; clear Hadd.
  apply sql_insert_application_inv in Hins.
  destruct Hins as (Hnew & Happs & _ & _ & _).
  apply new_rowid_above in Hnew. destruct Hnew as (Hseq & Hids & Hmax).
  assert (Hfresh : Forall (fun r => AppTable.id r <> i) (job_applications d)).
  { rewrite Forall_forall. intros r Hr.
    rewrite Forall_forall in Hids.
    specialize (Hids (AppTable.id r) (in_map AppTable.id _ _ Hr)). lia. }
  exists d, d'. split; [reflexivity |]. split; [reflexivity |].
  split; [exact Happs |]. split; [exact Hfresh |].
  intros Hbound. unfold get_application. simpl.
  rewrite bind_int_fits by (unfold Sqlite.MIN_ROWID in *; lia). simpl.
  rewrite Happs, find_last; [reflexivity | |].
  - intros r Hr. rewrite Forall_forall in Hfresh.
    apply Z.eqb_neq. apply Hfresh. exact Hr.
  - simpl. apply Z.eqb_refl.
Qed.

(** The first application of a new store is found again under the
    identifier 1 that [add_application] returned. *)
Lemma add_application_identifiers_witness :
  get_application 1 one_application_store
  = Ret (Some (_row_to_application
                 (application_row 1 "2024-01-15T09:00:00"
                    (application "Google" "applied" "2024-01-15"
                       "2024-01-22")))).
Proof.
  destruct (add_application_identifiers (fun _ => None) [] new_store)
    as (_ & _ & _ & H).
  destruct (H "2024-01-15T09:00:00"
              (application "Google" "applied" "2024-01-15" "2024-01-22")
              1 one_application_store eq_refl)
    as (d & d' & Hd & Hd' & _ & _ & Hget).
  apply Hget. inversion Hd; subst d. simpl.
  unfold Sqlite.MAX_ROWID. lia.
Defined.

(** ** Rows and columns *)

Lemma text_column_eqb_spec (c d : AppTable.text_column) :
  reflect (c = d) (AppTable.text_column_eqb c d).
Proof. destruct c, d; constructor; congruence. Qed.

Lemma column_eqb_spec (c d : AppTable.column) :
  reflect (c = d) (AppTable.column_eqb c d).
Proof.
  destruct c as [| c], d as [| d]; simpl; try (constructor; congruence).
  destruct (text_column_eqb_spec c d); constructor; congruence.
Qed.

Lemma get_text_build (i : Z) (cell : AppTable.text_column -> text)
    (c : AppTable.text_column) :
  AppTable.get_text c (AppTable.build i cell) = cell c.
Proof. destruct c; reflexivity. Qed.

Lemma get_text_set_text (c c' : AppTable.text_column) (v : text)
    (r : AppTable.row) :
  AppTable.get_text c' (AppTable.set_text c v r)
  = if AppTable.text_column_eqb c c' then v else AppTable.get_text c' r.
Proof. unfold AppTable.set_text. apply get_text_build. Qed.

Lemma get_text_set_id (c : AppTable.text_column) (z : Z) (r : AppTable.row) :
  AppTable.get_text c (AppTable.set_id z r) = AppTable.get_text c r.
Proof. unfold AppTable.set_id. apply get_text_build. Qed.

Lemma id_set_text (c : AppTable.text_column) (v : text) (r : AppTable.row) :
  AppTable.id (AppTable.set_text c v r) = AppTable.id r.
Proof. reflexivity. Qed.

Lemma id_set_id (z : Z) (r : AppTable.row) :
  AppTable.id (AppTable.set_id z r) = z.
Proof. reflexivity. Qed.

Lemma with_job_applications_same (d : database) :
  with_job_applications d (job_applications d) = d.
Proof. destruct d; reflexivity. Qed.

(** ** The assignments of an UPDATE *)

Section UpdateFacts.

Variable integer_of_text : string -> option Z.

Lemma assign_frame (r r' : AppTable.row) (cv : assignment) :
  assign integer_of_text r cv = Ret r' ->
  (forall c, fst cv <> AppTable.Text c ->
     AppTable.get_text c r' = AppTable.get_text c r)
  /\ (fst cv <> AppTable.Id -> AppTable.id r' = AppTable.id r).
Proof.
  destruct cv as [[| c0] v]; simpl; intros H.
  - apply bind_ret_inv in H. destruct H as (z & _ & H).
    inversion H; subst r'; clear H. split.
    + intros c _. apply get_text_set_id.
    + intros Hid. exfalso. apply Hid. reflexivity.
  - assert (Hset : exists t, r' = AppTable.set_text c0 t r).
    { destruct (to_text v) as [s |].
      - inversion H. eexists; reflexivity.
      - destruct (AppTable.not_null c0); [discriminate |].
        inversion H. eexists; reflexivity. }
    destruct Hset as (t & ->). split.
    + intros c Hc. rewrite get_text_set_text.
      destruct (text_column_eqb_spec c0 c) as [-> | _];
        [exfalso; apply Hc; reflexivity | reflexivity].
    + intros _. apply id_set_text.
Qed.

Lemma assign_value (r r' : AppTable.row) (c : AppTable.text_column)
    (v : pyval) :
  assign integer_of_text r (AppTable.Text c, v) = Ret r' ->
  AppTable.get_text c r' = to_text v.
Proof.
  simpl. destruct (to_text v) as [s |].
  - intros H. inversion H. rewrite get_text_set_text.
    destruct (text_column_eqb_spec c c); [reflexivity | congruence].
  - destruct (AppTable.not_null c); [discriminate |].
    intros H. inversion H. rewrite get_text_set_text.
    destruct (text_column_eqb_spec c c); [reflexivity | congruence].
Qed.

Lemma assign_all_frame (l : list assignment) (r r' : AppTable.row) :
  assign_all integer_of_text r l = Ret r' ->
  (forall c, ~ In (AppTable.Text c) (map fst l) ->
     AppTable.get_text c r' = AppTable.get_text c r)
  /\ (~ In AppTable.Id (map fst l) -> AppTable.id r' = AppTable.id r).
Proof.
  revert r. induction l as [| cv l IH]; simpl; intros r H.
  - inversion H. split; reflexivity.
  - apply bind_ret_inv in H. destruct H as (r1 & H1 & H).
    apply assign_frame in H1. destruct H1 as [Htext Hid].
    apply IH in H. destruct H as [Htext' Hid']. split.
    + intros c Hc. rewrite Htext' by tauto. apply Htext.
      intros Heq. apply Hc. left. exact Heq.
    + intros Hc. rewrite Hid' by tauto. apply Hid.
      intros Heq. apply Hc. left. exact Heq.
Qed.

Lemma assign_all_value (l : list assignment) (r r' : AppTable.row)
    (c : AppTable.text_column) (v : pyval) :
  NoDup (map fst l) -> In (AppTable.Text c, v) l ->
  assign_all integer_of_text r l = Ret r' ->
  AppTable.get_text c r' = to_text v.
Proof.
  revert r. induction l as [| cv l IH]; simpl; intros r Hnodup Hin H.
  - contradiction.
  - apply bind_ret_inv in H. destruct H as (r1 & H1 & H).
    inversion Hnodup as [| ? ? Hnotin Hnodup']; subst.
    destruct Hin as [-> | Hin].
    + apply assign_value in H1. apply assign_all_frame in H.
      destruct H as [Htext _]. rewrite Htext; [exact H1 | exact Hnotin].
    + eapply IH; eassumption.
Qed.

Lemma effective_incl (l : list assignment) (c : AppTable.column) :
  In c (map fst (effective l)) -> In c (map fst l).
Proof.
  induction l as [| [c0 v] l IH]; simpl; [tauto |].
  destruct (existsb (fun cv => AppTable.column_eqb c0 (fst cv)) l);
    simpl; tauto.
Qed.

Lemma effective_nodup (l : list assignment) :
  NoDup (map fst l) -> effective l = l.
Proof.
  induction l as [| [c v] l IH]; simpl; intros H; [reflexivity |].
  inversion H as [| ? ? Hnotin Hnodup]; subst.
  destruct (existsb (fun cv => AppTable.column_eqb c (fst cv)) l) eqn:Hex.
  - exfalso. apply existsb_exists in Hex. destruct Hex as ([c' v'] & Hin & Heq).
    simpl in Heq. destruct (column_eqb_spec c c'); [| discriminate].
    subst c'. apply Hnotin. apply (in_map fst) in Hin. exact Hin.
  - f_equal. apply IH. exact Hnodup.
Qed.

Lemma bind_values_same (l l' : list assignment) :
  bind_values l = Ret l' -> l' = l.
Proof.
  revert l'. induction l as [| [c v] l IH]; simpl; intros l' H.
  - inversion H. reflexivity.
  - apply bind_ret_inv in H. destruct H as (v' & Hv & H).
    apply bind_ret_inv in H. destruct H as (l1 & Hl & H).
    inversion H; subst l'; clear H. rewrite (IH l1 Hl).
    destruct v as [| z | s]; simpl in Hv; try (inversion Hv; reflexivity).
    apply bind_ret_inv in Hv. destruct Hv as (z' & Hz & Hv).
    apply bind_int_ret in Hz. destruct Hz as [-> _].
    inversion Hv. reflexivity.
Qed.

Lemma prepare_update_columns (updates : dict) (l : list assignment) :
  prepare_update updates = Ret l ->
  Forall2 (fun kv cv => resolve_column (fst kv) = Some (fst cv)
                        /\ snd cv = snd kv) updates l.
Proof.
  revert l. induction updates as [| [key v] updates IH]; simpl; intros l H.
  - inversion H. constructor.
  - destruct (resolve_column key) as [c |] eqn:Hc; [| discriminate].
    apply bind_ret_inv in H. destruct H as (l1 & Hl & H).
    inversion H; subst l; clear H.
    constructor; [simpl; auto | apply IH; exact Hl].
Qed.

Lemma prepared_column_named (updates : dict) (l : list assignment)
    (c : AppTable.column) :
  prepare_update updates = Ret l -> In c (map fst l) -> names updates c.
Proof.
  intros H. apply prepare_update_columns in H.
  induction H as [| kv cv updates l [Hres _] _ IH]; simpl; [tauto |].
  intros [<- | Hin].
  - exists (fst kv). split; [left; reflexivity | exact Hres].
  - destruct (IH Hin) as (key & Hkey & Hkc).
    exists key. split; [right; exact Hkey | exact Hkc].
Qed.

Lemma update_where_rows (table : list AppTable.row) (l : list assignment)
    (application_id : Z) (rows rows' : list AppTable.row) (n : Z) :
  update_where integer_of_text table l application_id rows = Ret (rows', n) ->
  Forall2 (fun r r' =>
             if AppTable.id r =? application_id
             then update_row integer_of_text table l r = Ret r'
             else r' = r) rows rows'
  /\ n = Z.of_nat
           (List.length
              (filter (fun r => AppTable.id r =? application_id) rows)).
Proof.
  revert rows' n. induction rows as [| r rows IH]; simpl; intros rows' n H.
  - inversion H. split; [constructor | reflexivity].
  - destruct (AppTable.id r =? application_id) eqn:Hid.
    + apply bind_ret_inv in H. destruct H as (r' & Hr' & H).
      apply bind_ret_inv in H. destruct H as ([rest m] & Hrest & H).
      inversion H; subst rows' n; clear H.
      apply IH in Hrest. destruct Hrest as [Hrows ->]. simpl. split.
      * constructor; [rewrite Hid; exact Hr' | exact Hrows].
      * lia.
    + apply bind_ret_inv in H. destruct H as ([rest m] & Hrest & H).
      inversion H; subst rows' n; clear H.
      apply IH in Hrest. destruct Hrest as [Hrows ->]. simpl. split.
      * constructor; [rewrite Hid; reflexivity | exact Hrows].
      * reflexivity.
Qed.

Lemma update_where_none (table : list AppTable.row) (l : list assignment)
    (application_id : Z) (rows rows' : list AppTable.row) :
  update_where integer_of_text table l application_id rows = Ret (rows', 0) ->
  rows' = rows.
Proof.
  intros H. apply update_where_rows in H. destruct H as [Hrows Hn].
  induction Hrows as [| r r' rows rows' Hr _ IH]; [reflexivity |].
  simpl in Hn. destruct (AppTable.id r =? application_id).
  - simpl in Hn. lia.
  - subst r'. f_equal. apply IH. exact Hn.
Qed.

End UpdateFacts.

(** ** Dictionaries *)

Lemma dict_set_keys (k : string) (v : pyval) (d : dict) (k' : string) :
  In k' (map fst (dict_set k v d)) <-> k' = k \/ In k' (map fst d).
Proof.
  induction d as [| [k0 v0] d IH]; simpl.
  - intuition congruence.
  - destruct (String.eqb_spec k0 k) as [-> | Hne]; simpl.
    + intuition congruence.
    + rewrite IH. intuition congruence.
Qed.

Lemma dict_set_in (k : string) (v : pyval) (d : dict) :
  In (k, v) (dict_set k v d).
Proof.
  induction d as [| [k0 v0] d IH]; simpl.
  - left. reflexivity.
  - destruct (k0 =? k)%string; [left; reflexivity | right; exact IH].
Qed.

Lemma dict_set_nodup (k : string) (v : pyval) (d : dict) :
  NoDup (map fst d) -> NoDup (map fst (dict_set k v d)).
Proof.
  induction d as [| [k0 v0] d IH]; simpl; intros H.
  - constructor; [simpl; tauto | constructor].
  - inversion H as [| ? ? Hnotin Hnodup]; subst.
    destruct (String.eqb_spec k0 k) as [-> | Hne]; simpl.
    + constructor; assumption.
    + constructor; [| apply IH; exact Hnodup].
      rewrite dict_set_keys. intros [Heq | Hin]; [congruence | tauto].
Qed.

Lemma names_dict_set (k : string) (v : pyval) (d : dict)
    (c : AppTable.column) :
  names (dict_set k v d) c -> resolve_column k = Some c \/ names d c.
Proof.
  intros (key & Hkey & Hres). apply dict_set_keys in Hkey.
  destruct Hkey as [-> | Hkey]; [left; exact Hres |].
  right. exists key. split; assumption.
Qed.

Lemma Forall2_same {A : Type} (R : A -> A -> Prop) (l : list A) :
  (forall x, R x x) -> Forall2 R l l.
Proof. intros H. induction l; constructor; auto. Qed.

(** ** Identifiers stay pairwise different *)

Lemma update_row_identifier (integer_of_text : string -> option Z)
    (table : list AppTable.row) (l : list assignment) (r r' : AppTable.row) :
  update_row integer_of_text table l r = Ret r' ->
  AppTable.id r' = AppTable.id r
  \/ ~ In (AppTable.id r') (map AppTable.id table).
Proof.
  unfold update_row. intros H.
  apply bind_ret_inv in H. destruct H as (r1 & _ & H).
  destruct (Z.eqb_spec (AppTable.id r1) (AppTable.id r)) as [Heq | Hne];
    simpl in H.
  - inversion H; subst r1. left. exact Heq.
  - destruct (existsb (fun o => AppTable.id o =? AppTable.id r1) table)
      eqn:Hex; [discriminate |].
    inversion H; subst r1. right. intros Hin.
    apply in_map_iff in Hin. destruct Hin as (o & Ho & Hin).
    assert (Htrue : existsb (fun o => AppTable.id o =? AppTable.id r') table
                    = true).
    { apply existsb_exists. exists o. split; [exact Hin |].
      apply Z.eqb_eq. exact Ho. }
    congruence.
Qed.

Lemma replaced_rows_nodup (ids : list Z) (a : Z) (rows rows' : list AppTable.row) :
  incl (map AppTable.id rows) ids ->
  NoDup (map AppTable.id rows) ->
  Forall2 (fun r r' =>
             if AppTable.id r =? a
             then AppTable.id r' = AppTable.id r \/ ~ In (AppTable.id r') ids
             else r' = r) rows rows' ->
  NoDup (map AppTable.id rows')
  /\ (forall x, In x (map AppTable.id rows') ->
        In x (map AppTable.id rows) \/ ~ In x ids)
  /\ (~ In a (map AppTable.id rows) -> rows' = rows).
Proof.
  intros Hincl Hnodup Hrows.
  induction Hrows as [| r r' rows rows' Hr _ IH]; simpl in *.
  - split; [constructor |]. split; [tauto | reflexivity].
  - inversion Hnodup as [| ? ? Hnotin Hnodup']; subst.
    assert (Hincl' : incl (map AppTable.id rows) ids).
    { intros x Hx. apply Hincl. right. exact Hx. }
    destruct (IH Hincl' Hnodup') as (IHnodup & IHin & IHsame).
    destruct (Z.eqb_spec (AppTable.id r) a) as [Hid | Hid].
    + assert (Hrest : rows' = rows).
      { apply IHsame. rewrite <- Hid. exact Hnotin. }
      subst rows'. split; [| split].
      * constructor; [| exact Hnodup'].
        destruct Hr as [Hr | Hr]; [rewrite Hr; exact Hnotin |].
        intros Hin. apply Hr. apply Hincl'. exact Hin.
      * intros x [<- | Hx]; [| left; right; exact Hx].
        destruct Hr as [Hr | Hr]; [left; left; symmetry; exact Hr |].
        right. exact Hr.
      * intros Hout. exfalso. apply Hout. left. exact Hid.
    + subst r'. split; [| split].
      * constructor; [| exact IHnodup].
        intros Hin. destruct (IHin _ Hin) as [Hold | Hnew].
        -- contradiction.
        -- apply Hnew. apply Hincl. left. reflexivity.
      * intros x [<- | Hx]; [left; left; reflexivity |].
        destruct (IHin x Hx) as [Hold | Hnew];
          [left; right; exact Hold | right; exact Hnew].
      * intros Hout. f_equal. apply IHsame. tauto.
Qed.

Lemma update_where_nodup (integer_of_text : string -> option Z)
    (l : list assignment) (application_id : Z)
    (table rows' : list AppTable.row) (n : Z) :
  update_where integer_of_text table l application_id table = Ret (rows', n) ->
  NoDup (map AppTable.id table) -> NoDup (map AppTable.id rows').
Proof.
  intros H Hnodup. apply update_where_rows in H. destruct H as [Hrows _].
  apply (replaced_rows_nodup (map AppTable.id table) application_id
           table rows'); [apply incl_refl | exact Hnodup |].
  eapply Forall2_impl; [| exact Hrows].
  intros r r' Hr. simpl in Hr.
  destruct (AppTable.id r =? application_id); [| exact Hr].
  apply (update_row_identifier integer_of_text table l). exact Hr.
Qed.

(** ** What an update leaves unchanged (C8) *)

(** C8, as amended: a call of [update_application] with a mapping whose
    keys are names changes, in the record with the given identifier, only
    the columns that a key of the mapping names and [updated_at]; the
    identifier is among the columns that stay unless a key names it
    ([id], or [rowid], [oid], [_rowid_]); every other application and
    every interview stay as they are, and the identifiers of the
    applications stay pairwise different. *)
Theorem update_application_frame (integer_of_text : string -> option Z)
    (now : string) (application_id : Z) (updates : dict) (d : database)
    (ok : bool) (f' : db_file) :
  plain_keys updates ->
  update_application integer_of_text now application_id updates (Tables d)
  = (Ret ok, f') ->
  exists d',
    f' = Tables d'
    /\ interviews d' = interviews d
    /\ Forall2
         (fun r r' =>
            (AppTable.id r <> application_id -> r' = r)
            /\ (forall c, c <> AppTable.c_updated_at ->
                  ~ names updates (AppTable.Text c) ->
                  AppTable.get_text c r' = AppTable.get_text c r)
            /\ (~ names updates AppTable.Id ->
                AppTable.id r' = AppTable.id r))
         (job_applications d) (job_applications d')
    /\ (NoDup (map AppTable.id (job_applications d)) ->
        NoDup (map AppTable.id (job_applications d'))).
Proof.
  intros _. unfold update_application. simpl.
  destruct (sql_update integer_of_text
              (dict_set "updated_at" (PStr now) updates) application_id d)
    as [[d' n] | e] eqn:Hupd; simpl; intros H; inversion H; subst; clear H.
  - apply sql_update_inv in Hupd.
    destruct Hupd as (l & l' & rows & Hprep & Hbind & _ & Hrows & ->).
    apply bind_values_same in Hbind. subst l'.
    pose proof (update_where_nodup _ _ _ _ _ _ Hrows) as Hunique.
    apply update_where_rows in Hrows. destruct Hrows as [Hrows _].
    eexists. split; [reflexivity |]. split; [reflexivity |]. simpl.
    split; [| exact Hunique].
    eapply Forall2_impl; [| exact Hrows].
    intros r r' Hr. simpl in Hr.
    destruct (Z.eqb_spec (AppTable.id r) application_id) as [Hid | Hid].
    + unfold update_row in Hr.
      apply bind_ret_inv in Hr. destruct Hr as (r1 & Hassign & Hr).
      destruct (negb (AppTable.id r1 =? AppTable.id r) && _);
        [discriminate |].
      inversion Hr; subst r1; clear Hr.
      apply assign_all_frame in Hassign. destruct Hassign as [Htext Hident].
      split; [intros Hne; contradiction |]. split.
      * intros c Hc Hnames. apply Htext. intros Hin.
        apply effective_incl in Hin.
        apply (prepared_column_named _ _ _ Hprep) in Hin.
        apply names_dict_set in Hin. destruct Hin as [Hin | Hin].
        -- apply Hc. vm_compute in Hin. congruence.
        -- contradiction.
      * intros Hnames. apply Hident. intros Hin.
        apply effective_incl in Hin.
        apply (prepared_column_named _ _ _ Hprep) in Hin.
        apply names_dict_set in Hin. destruct Hin as [Hin | Hin].
        -- vm_compute in Hin. discriminate.
        -- contradiction.
    + subst r'. repeat split; reflexivity.
  - exists d. split; [reflexivity |]. split; [reflexivity |].
    split; [| tauto].
    apply Forall2_same. intros r. repeat split; reflexivity.
Qed.

(** C8 as stated fails when the mapping names the identifier: the call
    succeeds and the record that had the identifier 1 has the identifier
    7. *)
Lemma update_application_changes_identifier :
  fst (update_application decimal_integer "2024-02-01T10:00:00" 1
         [("id", PInt 7)] one_application_store) = Ret true
  /\ map AppTable.id (job_applications (database_of one_application_store))
     = [1]
  /\ map AppTable.id
       (job_applications
          (database_of
             (snd (update_application decimal_integer "2024-02-01T10:00:00" 1
                     [("id", PInt 7)] one_application_store))))
     = [7].
Proof. repeat split. Qed.

(** An update of the status of the application 1. *)
Lemma update_application_frame_witness :
  plain_keys [("status", PStr "under_review")]
  /\ exists d',
    snd (update_application decimal_integer "2024-02-01T10:00:00" 1
           [("status", PStr "under_review")] one_application_store)
    = Tables d'
    /\ interviews d' = interviews (database_of one_application_store)
    /\ Forall2
         (fun r r' =>
            (AppTable.id r <> 1 -> r' = r)
            /\ (forall c, c <> AppTable.c_updated_at ->
                  ~ names [("status", PStr "under_review")] (AppTable.Text c) ->
                  AppTable.get_text c r' = AppTable.get_text c r)
            /\ (~ names [("status", PStr "under_review")] AppTable.Id ->
                AppTable.id r' = AppTable.id r))
         (job_applications (database_of one_application_store))
         (job_applications d')
    /\ (NoDup (map AppTable.id
                 (job_applications (database_of one_application_store))) ->
        NoDup (map AppTable.id (job_applications d'))).
Proof.
  split; [repeat constructor |].
  apply (update_application_frame decimal_integer "2024-02-01T10:00:00" 1
           [("status", PStr "under_review")]
           (database_of one_application_store) true).
  - repeat constructor.
  - reflexivity.
Defined.

(** ** The flag of an update (C7) *)

Lemma field_mapping_plain_keys (updates : dict) :
  field_mapping updates -> plain_keys updates.
Proof.
  intros [_ Hfields]. unfold plain_keys.
  eapply Forall_impl; [| exact Hfields].
  unfold field_names. simpl. intros key Hkey.
  repeat (destruct Hkey as [<- | Hkey]; [reflexivity |]). contradiction.
Qed.

Lemma resolve_field_name_inj (k1 k2 : string) :
  In k1 field_names -> In k2 field_names ->
  resolve_column k1 = resolve_column k2 -> k1 = k2.
Proof.
  unfold field_names. simpl. intros H1 H2 Heq.
  repeat (destruct H1 as [<- | H1]); try contradiction;
    repeat (destruct H2 as [<- | H2]); try contradiction;
    first [reflexivity | vm_compute in Heq; discriminate Heq].
Qed.

Lemma prepared_in (updates : dict) (l : list assignment) (kv : string * pyval) :
  prepare_update updates = Ret l -> In kv updates ->
  exists c, resolve_column (fst kv) = Some c /\ In (c, snd kv) l.
Proof.
  intros H. apply prepare_update_columns in H.
  induction H as [| kv0 [c0 v0] updates l [Hres Hval] _ IH]; simpl;
    [tauto |].
  simpl in Hres, Hval. intros [<- | Hin].
  - exists c0. split; [exact Hres | left; congruence].
  - destruct (IH Hin) as (c & Hc & Hcl). exists c. split; [exact Hc | tauto].
Qed.

Lemma prepared_nodup (updates : dict) (l : list assignment) :
  prepare_update updates = Ret l -> field_mapping updates ->
  NoDup (map fst l).
Proof.
  revert l. induction updates as [| [k0 v0] updates IH]; intros l H Hmap.
  - simpl in H. inversion H. constructor.
  - destruct Hmap as [Hnodup Hfields].
    inversion Hnodup as [| ? ? Hnotin Hnodup']; subst.
    inversion Hfields as [| ? ? Hk0 Hfields']; subst.
    simpl in H. destruct (resolve_column k0) as [c0 |] eqn:Hres;
      [| discriminate].
    apply bind_ret_inv in H. destruct H as (l1 & Hl1 & H).
    inversion H; subst l; clear H. simpl.
    constructor; [| apply IH; [exact Hl1 | split; assumption]].
    intros Hin. apply Hnotin.
    destruct (prepared_column_named _ _ _ Hl1 Hin) as (key & Hkey & Hkc).
    assert (key = k0); [| subst key; exact Hkey].
    apply resolve_field_name_inj; [| exact Hk0 | congruence].
    rewrite Forall_forall in Hfields'. apply Hfields'. exact Hkey.
Qed.

Lemma field_mapping_dict_set (now : string) (updates : dict) :
  field_mapping updates ->
  field_mapping (dict_set "updated_at" (PStr now) updates).
Proof.
  intros [Hnodup Hfields]. split; [apply dict_set_nodup; exact Hnodup |].
  rewrite Forall_forall in *. intros key Hkey.
  apply dict_set_keys in Hkey. destruct Hkey as [-> | Hkey].
  - unfold field_names. simpl. tauto.
  - apply Hfields. exact Hkey.
Qed.

(** C7: for a mapping whose keys are names, [update_application] never
    raises; it returns [True] exactly when the UPDATE changed at least
    one row -- as many rows as have the identifier -- thus [False] when
    no application has the identifier, and a call that returns [False]
    leaves the file as it was; the statement always sets [updated_at] to
    the current time, also over a value that the mapping gives for it, so
    that after a call with a field-to-value mapping that returns [True]
    the record carries the current time. *)
Theorem update_application_reports_by_flag
    (integer_of_text : string -> option Z) (now : string)
    (application_id : Z) (updates : dict) (f : db_file) :
  plain_keys updates ->
  exists (ok : bool) (f' : db_file),
    update_application integer_of_text now application_id updates f
    = (Ret ok, f')
    /\ (ok = true <->
        0 < rows_affected integer_of_text now application_id updates f)
    /\ (ok = true ->
        exists d, f = Tables d
                  /\ rows_affected integer_of_text now application_id
                       updates f
                     = Z.of_nat
                         (List.length
                            (filter
                               (fun r => AppTable.id r =? application_id)
                               (job_applications d)))
                  /\ exists r, In r (job_applications d)
                               /\ AppTable.id r = application_id)
    /\ (ok = false -> f' = f)
    /\ In ("updated_at", PStr now) (dict_set "updated_at" (PStr now) updates)
    /\ (field_mapping updates -> ok = true ->
        exists d d',
          f = Tables d /\ f' = Tables d'
          /\ Forall2
               (fun r r' => AppTable.id r = application_id ->
                            AppTable.updated_at r' = Some now)
               (job_applications d) (job_applications d')).
Proof.
  intros _. destruct f as [e | | d].
  - exists false, (Unreachable e). simpl.
    repeat split; try discriminate; try lia; try apply dict_set_in.
  - exists false, Fresh. simpl.
    repeat split; try discriminate; try lia; try apply dict_set_in.
  - unfold update_application, rows_affected. simpl.
    destruct (sql_update integer_of_text
                (dict_set "updated_at" (PStr now) updates) application_id d)
      as [[d' n] | e] eqn:Hupd; simpl.
    + exists (0 <? n), (Tables d').
      apply sql_update_inv in Hupd.
      destruct Hupd as (l & l' & rows & Hprep & Hbind & _ & Hrows & ->).
      apply bind_values_same in Hbind. subst l'.
      split; [reflexivity |]. split; [apply Z.ltb_lt |].
      split; [| split; [| split; [apply dict_set_in |]]].
      * intros Hok. apply Z.ltb_lt in Hok.
        exists d. split; [reflexivity |].
        apply update_where_rows in Hrows. destruct Hrows as [_ Hn].
        split; [exact Hn |].
        destruct (filter (fun r => AppTable.id r =? application_id)
                    (job_applications d)) as [| r rest] eqn:Hfilter;
          [simpl in Hn; lia |].
        assert (Hr : In r (filter (fun r => AppTable.id r =? application_id)
                             (job_applications d)))
          by (rewrite Hfilter; left; reflexivity).
        apply filter_In in Hr. destruct Hr as [Hr Hid].
        exists r. split; [exact Hr | apply Z.eqb_eq; exact Hid].
      * intros Hok. apply Z.ltb_ge in Hok.
        assert (Hn0 : n = 0).
        { apply update_where_rows in Hrows. destruct Hrows as [_ Hn]. lia. }
        subst n. apply update_where_none in Hrows. subst rows.
        rewrite with_job_applications_same. reflexivity.
      * intros Hfields _. exists d. eexists.
        split; [reflexivity |]. split; [reflexivity |]. simpl.
        apply update_where_rows in Hrows. destruct Hrows as [Hrows _].
        eapply Forall2_impl; [| exact Hrows].
        intros r r' Hr Hid. simpl in Hr.
        apply Z.eqb_eq in Hid. rewrite Hid in Hr.
        unfold update_row in Hr.
        apply bind_ret_inv in Hr. destruct Hr as (r1 & Hassign & Hr).
        destruct (negb (AppTable.id r1 =? AppTable.id r) && _);
          [discriminate |].
        inversion Hr; subst r1; clear Hr.
        pose proof (prepared_nodup _ _ Hprep
                      (field_mapping_dict_set now updates Hfields)) as Hnodup.
        rewrite (effective_nodup l Hnodup) in Hassign.
        destruct (prepared_in _ _ ("updated_at", PStr now) Hprep
                    (dict_set_in _ _ _)) as (c & Hc & Hin).
        vm_compute in Hc. inversion Hc; subst c; clear Hc.
        apply (assign_all_value integer_of_text l r r'
                 AppTable.c_updated_at (PStr now) Hnodup Hin Hassign).
    + exists false, (Tables d).
      repeat split; try discriminate; try lia; try apply dict_set_in.
Qed.

(** An update that gives its own value for [updated_at]: the record
    carries the current time. *)
Lemma update_application_reports_by_flag_witness :
  plain_keys [("status", PStr "under_review"); ("updated_at", PStr "never")]
  /\ field_mapping
       [("status", PStr "under_review"); ("updated_at", PStr "never")]
  /\ exists d d',
       one_application_store = Tables d
       /\ snd (update_application decimal_integer "2024-02-01T10:00:00" 1
                 [("status", PStr "under_review"); ("updated_at", PStr "never")]
                 one_application_store) = Tables d'
       /\ Forall2
            (fun r r' => AppTable.id r = 1 ->
                         AppTable.updated_at r' = Some "2024-02-01T10:00:00")
            (job_applications d) (job_applications d').
Proof.
  assert (Hfields : field_mapping
            [("status", PStr "under_review"); ("updated_at", PStr "never")]).
  { split.
    - repeat constructor; simpl; intuition discriminate.
    - repeat constructor; unfold field_names; simpl; tauto. }
  split; [repeat constructor |]. split; [exact Hfields |].
  destruct (update_application_reports_by_flag decimal_integer
              "2024-02-01T10:00:00" 1
              [("status", PStr "under_review"); ("updated_at", PStr "never")]
              one_application_store ltac:(repeat constructor))
    as (ok & f' & Heq & _ & _ & _ & _ & Hstamp).
  vm_compute in Heq. inversion Heq; subst ok f'; clear Heq.
  exact (Hstamp Hfields eq_refl).
Defined.

(** ** Filters, order and limit of [get_applications] (C4) *)

Lemma pattern_compare_percent (s : string) :
  Sqlite.pattern_compare "%" s = true.
Proof.
  induction s as [| c s IH]; [reflexivity |].
  simpl in *. exact IH.
Qed.

Lemma pattern_compare_literal_prefix (p s : string) :
  wildcard_free p = true ->
  Sqlite.pattern_compare (p ++ "%") s = prefix_nocase p s.
Proof.
  revert s. induction p as [| c p IH]; intros s Hfree.
  - apply pattern_compare_percent.
  - simpl in Hfree. apply andb_prop in Hfree. destruct Hfree as [Hc Hfree].
    apply andb_prop in Hc. destruct Hc as [Hpercent Hunder].
    apply negb_true_iff in Hpercent. apply negb_true_iff in Hunder.
    change (String c p ++ "%")%string with (String c (p ++ "%")).
    simpl. rewrite Hpercent, Hunder.
    destruct s as [| b s]; [reflexivity |].
    rewrite IH by exact Hfree. reflexivity.
Qed.

Lemma pattern_compare_substring (needle s : string) :
  wildcard_free needle = true ->
  Sqlite.pattern_compare ("%" ++ needle ++ "%") s = contains_nocase needle s.
Proof.
  intros Hfree.
  change ("%" ++ needle ++ "%")%string with (String "%" (needle ++ "%")).
  induction s as [| c s IH].
  - simpl. rewrite pattern_compare_literal_prefix by exact Hfree.
    destruct needle; reflexivity.
  - simpl in *. rewrite pattern_compare_literal_prefix by exact Hfree.
    rewrite IH. reflexivity.
Qed.

(** A text without a NUL byte is read whole. *)
Lemma c_string_nul_free (p : string) :
  nul_free p = true -> Sqlite.c_string p = p.
Proof.
  induction p as [| c p IH]; [reflexivity |].
  cbn [nul_free Sqlite.c_string]. intros H.
  apply andb_prop in H. destruct H as [Hc Hp].
  apply negb_true_iff in Hc. rewrite Hc, (IH Hp). reflexivity.
Qed.

Lemma nul_free_app (p q : string) :
  nul_free (p ++ q) = nul_free p && nul_free q.
Proof.
  induction p as [| c p IH]; [reflexivity |].
  cbn [append nul_free]. rewrite IH. apply andb_assoc.
Qed.

Lemma like_percent (s : string) : Sqlite.like "%" s = true.
Proof. apply pattern_compare_percent. Qed.



(** With a pattern [%needle%] whose needle holds neither a wildcard nor
    a NUL byte, LIKE looks for the needle in the part of the text before
    its first NUL byte. *)
Lemma like_substring (needle s : string) :
  wildcard_free needle = true ->
  nul_free needle = true ->
  Sqlite.like ("%" ++ needle ++ "%") s
  = contains_nocase needle (Sqlite.c_string s).
Proof.
  intros Hfree Hnul. unfold Sqlite.like.
  rewrite c_string_nul_free.
  - apply pattern_compare_substring. exact Hfree.
  - change ("%" ++ needle ++ "%")%string with (String "%" (needle ++ "%")).
    cbn [nul_free]. rewrite nul_free_app, Hnul. reflexivity.
Qed.



Lemma truthy_str_some (s : string) : s <> "" -> truthy_str (Some s) = true.
Proof.
  intros Hs. simpl. apply negb_true_iff. apply String.eqb_neq. exact Hs.
Qed.



(** Nor does the company contain a filter that holds a NUL byte: LIKE
    reads the filter [e], a NUL byte, [zzz] as the pattern [%e], which
    selects the application at Google. *)
Lemma get_applications_nul_filter :
  get_applications None (Some ("e" ++ String zero "zzz")) 50
    one_application_store
  = Ret [_row_to_application
           (application_row 1 "2024-01-15T09:00:00"
              (application "Google" "applied" "2024-01-15" "2024-01-22"))]
  /\ wildcard_free ("e" ++ String zero "zzz") = true
  /\ contains_nocase ("e" ++ String zero "zzz") "Google" = false.
Proof. repeat split; reflexivity. Qed.


(** ** Follow-up reminders (C3) *)

Lemma needs_follow_up_due (today days_ahead : Z) (r : AppTable.row) :
  needs_follow_up
    (Some (Sqlite.iso_date (Sqlite.civil_from_days (today + days_ahead)))) r
  = due_on_or_before today days_ahead r.
Proof.
  unfold needs_follow_up, due_on_or_before.
  destruct (AppTable.follow_up_date r) as [s |]; simpl.
  - apply andb_comm.
  - rewrite andb_false_r. reflexivity.
Qed.

Lemma date_now_plus_days_in_range (today days_ahead : Z) :
  0 <= days_ahead ->
  Sqlite.FIRST_DAY <= today + days_ahead <= Sqlite.LAST_DAY ->
  Sqlite.date_now_plus_days today days_ahead
  = Some (Sqlite.iso_date (Sqlite.civil_from_days (today + days_ahead))).
Proof.
  intros Hn [Hlo Hhi]. unfold Sqlite.date_now_plus_days.
  destruct (days_ahead <? 0) eqn:Hneg; [apply Z.ltb_lt in Hneg; lia |].
  apply Z.leb_le in Hlo. apply Z.leb_le in Hhi. rewrite Hlo, Hhi.
  reflexivity.
Qed.

(** C3, as amended: for a number of days that is not negative, and a day
    [today + N] within SQLite's calendar, [get_follow_up_reminders]
    returns exactly the applications that are due -- each once, none
    with another status or a later follow-up date -- by follow-up date
    ascending. *)
Theorem get_follow_up_reminders_due (d : database) (today days_ahead : Z) :
  0 <= days_ahead ->
  Sqlite.FIRST_DAY <= today + days_ahead <= Sqlite.LAST_DAY ->
  exists l,
    get_follow_up_reminders today days_ahead (Tables d) = Ret l
    /\ Permutation l
         (map _row_to_application
            (filter (due_on_or_before today days_ahead) (job_applications d)))
    /\ Sorted (fun a b => Sqlite.order_leb (JobApp.follow_up_date a)
                            (JobApp.follow_up_date b) = true) l.
Proof.
  intros Hn Hrange.
  unfold get_follow_up_reminders, sql_select_follow_ups. simpl.
  rewrite (date_now_plus_days_in_range today days_ahead Hn Hrange).
  rewrite (filter_ext _ _ (needs_follow_up_due today days_ahead)).
  eexists. split; [reflexivity |]. split.
  - apply Permutation_map. apply order_by_asc_perm.
  - apply map_sorted. simpl.
    apply (sort_by_sorted
             (fun x y => Sqlite.order_leb (AppTable.follow_up_date x)
                           (AppTable.follow_up_date y))).
    intros x y. apply order_leb_total.
Qed.

(** C3 as stated fails for a negative number of days: on 2026-11-03 and
    with [days_ahead = -1] the application whose follow-up date is
    2024-01-22 is due, and the method returns nothing. *)
Lemma get_follow_up_reminders_negative_days :
  map AppTable.id
    (filter (due_on_or_before 20760 (-1))
       (job_applications (database_of one_application_store))) = [1]
  /\ get_follow_up_reminders 20760 (-1) one_application_store = Ret [].
Proof. split; reflexivity. Qed.

(** A negative number of days returns nothing, whatever is stored. *)
Lemma get_follow_up_reminders_negative (d : database) (today days_ahead : Z) :
  days_ahead < 0 ->
  get_follow_up_reminders today days_ahead (Tables d) = Ret [].
Proof.
  intros Hneg. unfold get_follow_up_reminders, sql_select_follow_ups. simpl.
  unfold Sqlite.date_now_plus_days.
  apply Z.ltb_lt in Hneg. rewrite Hneg.
  rewrite filter_absent; [reflexivity |].
  intros r _. unfold needs_follow_up.
  destruct (AppTable.follow_up_date r); reflexivity.
Qed.

(** The reminders of 2026-11-03 with the default seven days. *)
Lemma get_follow_up_reminders_due_witness :
  exists l,
    get_follow_up_reminders 20760 default_days_ahead one_application_store
    = Ret l
    /\ Permutation l
         (map _row_to_application
            (filter (due_on_or_before 20760 default_days_ahead)
               (job_applications (database_of one_application_store))))
    /\ Sorted (fun a b => Sqlite.order_leb (JobApp.follow_up_date a)
                            (JobApp.follow_up_date b) = true) l.
Proof.
  apply (get_follow_up_reminders_due (database_of one_application_store)
           20760 default_days_ahead).
  - unfold default_days_ahead. lia.
  - unfold default_days_ahead, Sqlite.FIRST_DAY, Sqlite.LAST_DAY. lia.
Defined.

(** ** GROUP BY *)

Lemma distinct_in (keys : list text) (k : text) :
  In k (Sqlite.distinct keys) <-> In k keys.
Proof.
  induction keys as [| k0 keys IH]; simpl; [tauto |].
  rewrite filter_In, IH, negb_true_iff.
  destruct (Sqlite.key_eqb k0 k) eqn:Heq.
  - apply key_eqb_eq in Heq. intuition congruence.
  - intuition congruence.
Qed.

Lemma distinct_nodup (keys : list text) : NoDup (Sqlite.distinct keys).
Proof.
  induction keys as [| k0 keys IH]; simpl; constructor.
  - rewrite filter_In, negb_true_iff, key_eqb_refl.
    intros [_ H]. discriminate H.
  - apply NoDup_filter. exact IH.
Qed.

Lemma group_count_in (keys : list text) (k : text) (n : Z) :
  In (k, n) (Sqlite.group_count keys) <->
  In k keys /\ n = Sqlite.count_key k keys.
Proof.
  unfold Sqlite.group_count. rewrite in_map_iff. split.
  - intros (k' & Heq & Hin). inversion Heq; subst.
    apply (proj1 (sort_by_in _ _ _)) in Hin.
    apply (proj1 (distinct_in _ _)) in Hin.
    split; [exact Hin | reflexivity].
  - intros [Hin ->]. exists k. split; [reflexivity |].
    apply sort_by_in. apply distinct_in. exact Hin.
Qed.

Lemma group_count_keys (keys : list text) :
  map fst (Sqlite.group_count keys)
  = Sqlite.sort_by Sqlite.order_leb (Sqlite.distinct keys).
Proof.
  unfold Sqlite.group_count. rewrite map_map. simpl. apply map_id.
Qed.

Lemma group_count_nodup (keys : list text) :
  NoDup (map fst (Sqlite.group_count keys)).
Proof.
  rewrite group_count_keys.
  eapply Permutation_NoDup; [| apply distinct_nodup].
  apply Permutation_sym. apply sort_by_perm.
Qed.

Lemma group_count_length (keys : list text) :
  List.length (Sqlite.group_count keys)
  = List.length (Sqlite.distinct keys).
Proof.
  unfold Sqlite.group_count. rewrite length_map. apply sort_by_length.
Qed.

(** A dictionary of counts all of whose entries are right gives the right
    count for each of its keys. *)
Lemma counts_find_right (keys : list text) (d : counts) (k : text) :
  (forall k' n, In (k', n) d -> n = Sqlite.count_key k' keys) ->
  In k (map fst d) ->
  counts_find k d = Some (Sqlite.count_key k keys).
Proof.
  unfold counts_find. induction d as [| [k0 n0] d IH]; simpl; intros Hd Hin.
  - contradiction.
  - destruct (Sqlite.key_eqb k k0) eqn:Heq; simpl.
    + apply key_eqb_eq in Heq. subst k0.
      rewrite (Hd k n0 (or_introl eq_refl)). reflexivity.
    + apply IH.
      * intros k' n Hk'. apply Hd. right. exact Hk'.
      * destruct Hin as [-> | Hin]; [| exact Hin].
        rewrite key_eqb_refl in Heq. discriminate Heq.
Qed.

Lemma counts_find_absent (d : counts) (k : text) :
  ~ In k (map fst d) -> counts_find k d = None.
Proof.
  intros Hk. unfold counts_find. rewrite find_absent; [reflexivity |].
  intros [k0 n0] Hin. simpl.
  destruct (Sqlite.key_eqb k k0) eqn:Heq; [| reflexivity].
  apply key_eqb_eq in Heq. subst k0. exfalso. apply Hk.
  apply (in_map fst) in Hin. exact Hin.
Qed.

Lemma counts_get_group_count (k : string) (keys : list text) :
  counts_get k (Sqlite.group_count keys) = Sqlite.count_key (Some k) keys.
Proof.
  assert (Hgen : forall d : counts,
    (forall k' n, In (k', n) d -> n = Sqlite.count_key k' keys) ->
    counts_get k d = Sqlite.count_key (Some k) keys
    \/ (counts_get k d = 0 /\ ~ In (Some k) (map fst d))).
  { induction d as [| [k0 n0] d IH]; cbn [counts_get map fst]; intros Hd.
    - right. split; [reflexivity | simpl; tauto].
    - destruct (Sqlite.key_eqb (Some k) k0) eqn:Heq.
      + apply key_eqb_eq in Heq. subst k0. left.
        apply (Hd (Some k) n0). left. reflexivity.
      + destruct IH as [IH | [IH Hnotin]].
        * intros k' n Hk'. apply Hd. right. exact Hk'.
        * left. exact IH.
        * right. split; [exact IH |].
          intros [Hk0 | Hin]; [| contradiction].
          subst k0. rewrite key_eqb_refl in Heq. discriminate Heq. }
  destruct (Hgen (Sqlite.group_count keys)) as [H | [H Hnotin]].
  - intros k' n Hin. apply group_count_in in Hin. tauto.
  - exact H.
  - rewrite H. unfold Sqlite.count_key.
    rewrite filter_absent; [reflexivity |].
    intros k' Hk'. destruct (Sqlite.key_eqb (Some k) k') eqn:Heq;
      [| reflexivity].
    apply key_eqb_eq in Heq. subst k'. exfalso. apply Hnotin.
    rewrite group_count_keys. apply sort_by_in. apply distinct_in. exact Hk'.
Qed.

Lemma count_key_map {A : Type} (key : A -> text) (k : text) (l : list A) :
  Sqlite.count_key k (map key l)
  = Z.of_nat (List.length (filter (fun x => Sqlite.key_eqb k (key x)) l)).
Proof.
  unfold Sqlite.count_key. f_equal.
  induction l as [| x l IH]; simpl; [reflexivity |].
  destruct (Sqlite.key_eqb k (key x)); simpl; rewrite IH; reflexivity.
Qed.

(** ** Statistics *)

Lemma sql_statistics_value (strftime_Ym : text -> text)
    (round_float : Q -> Q) (d : database) :
  let rows := job_applications d in
  let total := Z.of_nat (List.length rows) in
  let status_counts := Sqlite.group_count (map AppTable.status rows) in
  let responded :=
    counts_get "interview_scheduled" status_counts
    + counts_get "rejected" status_counts
    + counts_get "offer_received" status_counts in
  sql_statistics strftime_Ym round_float d
  = Ret {| total_applications := total;
           status_counts := status_counts;
           company_counts :=
             Sqlite.limit 10
               (Sqlite.sort_by (fun a b => snd b <=? snd a)
                  (Sqlite.group_count (map AppTable.company rows)));
           monthly_counts :=
             Sqlite.limit 12
               (Sqlite.order_by_desc fst
                  (Sqlite.group_count
                     (map (fun r => strftime_Ym (AppTable.application_date r))
                        rows)));
           total_interviews := Z.of_nat (List.length (interviews d));
           response_rate :=
             if 0 <? total
             then Float (round_float
                           (inject_Z responded / inject_Z total * 100)%Q)
             else Int 0 |}.
Proof.
  intros rows total status_counts responded.
  unfold sql_statistics. fold rows. fold total. fold status_counts.
  fold responded.
  destruct (0 <? total) eqn:Hpos; simpl; [| reflexivity].
  unfold py_truediv. apply Z.ltb_lt in Hpos.
  destruct (total =? 0) eqn:Hzero; [apply Z.eqb_eq in Hzero; lia |].
  reflexivity.
Qed.

Lemma strongly_sorted_app {A : Type} (R : A -> A -> Prop) (l1 l2 : list A) :
  StronglySorted R (l1 ++ l2) ->
  forall x y, In x l1 -> In y l2 -> R x y.
Proof.
  induction l1 as [| a l1 IH]; simpl; intros Hs x y Hx Hy; [contradiction |].
  inversion Hs as [| ? ? Hs' Hall]; subst.
  destruct Hx as [-> | Hx].
  - rewrite Forall_forall in Hall. apply Hall. apply in_or_app. right. exact Hy.
  - apply IH; assumption.
Qed.

(** The rows that [ORDER BY ... LIMIT n] keeps come first in the order:
    every row that is left out is after every row that is kept. *)
Lemma limit_sort_by_top {A : Type} (leb : A -> A -> bool) (n : Z)
    (l : list A) (x y : A) :
  (forall a b, leb a b = true \/ leb b a = true) ->
  (forall a b c, leb a b = true -> leb b c = true -> leb a c = true) ->
  In x l -> ~ In x (Sqlite.limit n (Sqlite.sort_by leb l)) ->
  In y (Sqlite.limit n (Sqlite.sort_by leb l)) ->
  leb y x = true.
Proof.
  intros Htotal Htrans Hx Hout Hy. unfold Sqlite.limit in *.
  destruct (n <? 0).
  - exfalso. apply Hout. apply sort_by_in. exact Hx.
  - pose proof (sort_by_strongly_sorted leb Htotal Htrans l) as Hs.
    rewrite <- (firstn_skipn (Z.to_nat n) (Sqlite.sort_by leb l)) in Hs.
    apply (strongly_sorted_app _ _ _ Hs y x Hy).
    assert (Hin : In x (Sqlite.sort_by leb l)) by (apply sort_by_in; exact Hx).
    rewrite <- (firstn_skipn (Z.to_nat n) (Sqlite.sort_by leb l)) in Hin.
    apply in_app_or in Hin. destruct Hin as [Hin | Hin]; [contradiction |].
    exact Hin.
Qed.

Lemma limit_keys_nodup {A B : Type} (n : Z) (l : list (A * B)) :
  NoDup (map fst l) -> NoDup (map fst (Sqlite.limit n l)).
Proof.
  unfold Sqlite.limit. destruct (n <? 0); [tauto |].
  intros H. rewrite <- (firstn_skipn (Z.to_nat n) l), map_app in H.
  apply NoDup_app_remove_r in H. exact H.
Qed.

(** What [SELECT key, COUNT( * ) ... GROUP BY key ORDER BY ... LIMIT n]
    returns for the keys [keys], whatever the order [leb]. *)
Lemma grouped_top (leb : text * Z -> text * Z -> bool) (n : Z)
    (keys : list text) :
  0 <= n ->
  (forall a b, leb a b = true \/ leb b a = true) ->
  (forall a b c, leb a b = true -> leb b c = true -> leb a c = true) ->
  let top := Sqlite.limit n (Sqlite.sort_by leb (Sqlite.group_count keys)) in
  Z.of_nat (List.length top) <= n
  /\ NoDup (map fst top)
  /\ (forall k c, In (k, c) top -> In k keys /\ c = Sqlite.count_key k keys)
  /\ (forall k, In k keys -> ~ In k (map fst top) ->
        forall e, In e top -> leb e (k, Sqlite.count_key k keys) = true)
  /\ (Z.of_nat (List.length (Sqlite.distinct keys)) <= n ->
      forall k, In k keys ->
        counts_find k top = Some (Sqlite.count_key k keys)).
Proof.
  intros Hn Htotal Htrans top.
  assert (Hright : forall k c,
    In (k, c) top -> In k keys /\ c = Sqlite.count_key k keys).
  { intros k c Hin. apply limit_in in Hin.
    apply (proj1 (sort_by_in _ _ _)) in Hin.
    apply group_count_in. exact Hin. }
  split; [apply limit_length; exact Hn |].
  split; [| split; [exact Hright | split]].
  - apply limit_keys_nodup.
    eapply Permutation_NoDup; [| apply group_count_nodup].
    apply Permutation_map. apply Permutation_sym. apply sort_by_perm.
  - intros k Hk Hout e He.
    apply (limit_sort_by_top leb n (Sqlite.group_count keys)); try assumption.
    + apply group_count_in. split; [exact Hk | reflexivity].
    + intros Hin. apply Hout. apply (in_map fst) in Hin. exact Hin.
  - intros Hfew k Hk.
    apply counts_find_right; [intros k' c Hin; apply Hright; exact Hin |].
    unfold top. rewrite limit_all.
    + apply (in_map fst (Sqlite.sort_by leb (Sqlite.group_count keys))
               (k, Sqlite.count_key k keys)).
      apply sort_by_in. apply group_count_in.
      split; [exact Hk | reflexivity].
    + right. rewrite sort_by_length, group_count_length. exact Hfew.
Qed.

(** LIMIT cuts the groups to [n] of them, or leaves all when there are
    fewer. *)
Lemma grouped_top_length (leb : text * Z -> text * Z -> bool) (n : Z)
    (keys : list text) :
  0 <= n ->
  List.length
    (Sqlite.limit n (Sqlite.sort_by leb (Sqlite.group_count keys)))
  = Nat.min (Z.to_nat n) (List.length (Sqlite.distinct keys)).
Proof.
  intros Hn.
  rewrite limit_length_min, sort_by_length, group_count_length by exact Hn.
  reflexivity.
Qed.

(** ** Counts by company and by month (C9) *)

(** C9, as amended: [company_counts] holds ten entries, or one for each
    distinct company when there are fewer than ten, no company twice:
    those of the companies with the most applications; [monthly_counts]
    holds twelve entries, or one for each distinct month when there are
    fewer than twelve, no month twice: those of the latest months; every
    entry carries the number of applications of its company or month; a
    company or month that is left out has no more applications than any
    listed company, or is no later than any listed month; and every
    distinct company has an entry when there are at most ten, every
    distinct month when there are at most twelve. *)
Theorem get_statistics_grouped_counts (strftime_Ym : text -> text)
    (round_float : Q -> Q) (d : database) :
  let companies := map AppTable.company (job_applications d) in
  let months :=
    map (fun r => strftime_Ym (AppTable.application_date r))
      (job_applications d) in
  exists s,
    get_statistics strftime_Ym round_float (Tables d) = Ret (Some s)
    /\ (List.length (company_counts s)
        = Nat.min 10 (List.length (Sqlite.distinct companies))
        /\ Z.of_nat (List.length (company_counts s)) <= 10
        /\ NoDup (map fst (company_counts s))
        /\ (forall c n, In (c, n) (company_counts s) ->
              In c companies /\ n = Sqlite.count_key c companies)
        /\ (forall c, In c companies -> ~ In c (map fst (company_counts s)) ->
              forall c' n, In (c', n) (company_counts s) ->
                Sqlite.count_key c companies <= n)
        /\ (Z.of_nat (List.length (Sqlite.distinct companies)) <= 10 ->
            forall c, In c companies ->
              counts_find c (company_counts s)
              = Some (Sqlite.count_key c companies)))
    /\ (List.length (monthly_counts s)
        = Nat.min 12 (List.length (Sqlite.distinct months))
        /\ Z.of_nat (List.length (monthly_counts s)) <= 12
        /\ NoDup (map fst (monthly_counts s))
        /\ (forall m n, In (m, n) (monthly_counts s) ->
              In m months /\ n = Sqlite.count_key m months)
        /\ (forall m, In m months -> ~ In m (map fst (monthly_counts s)) ->
              forall m' n, In (m', n) (monthly_counts s) ->
                Sqlite.order_leb m m' = true)
        /\ (Z.of_nat (List.length (Sqlite.distinct months)) <= 12 ->
            forall m, In m months ->
              counts_find m (monthly_counts s)
              = Some (Sqlite.count_key m months))).
Proof.
  intros companies months.
  unfold get_statistics. simpl.
  rewrite sql_statistics_value. simpl.
  eexists. split; [reflexivity |]. simpl. split.
  - destruct (grouped_top (fun a b => snd b <=? snd a) 10 companies)
      as (Hlen & Hnodup & Hright & Htop & Hall).
    + lia.
    + intros a b. rewrite !Z.leb_le. lia.
    + intros a b c. rewrite !Z.leb_le. lia.
    + split.
      { apply (grouped_top_length (fun a b => snd b <=? snd a) 10 companies).
        lia. }
      split; [exact Hlen |]. split; [exact Hnodup |].
      split; [exact Hright |]. split; [| exact Hall].
      intros c Hc Hout c' n Hin.
      specialize (Htop c Hc Hout (c', n) Hin). simpl in Htop.
      apply Z.leb_le in Htop. exact Htop.
  - destruct (grouped_top
                (fun a b : text * Z => Sqlite.order_leb (fst b) (fst a))
                12 months)
      as (Hlen & Hnodup & Hright & Htop & Hall).
    + lia.
    + intros a b. apply order_leb_total.
    + intros a b c Hab Hbc. apply (order_leb_trans _ (fst b)); assumption.
    + split.
      { apply (grouped_top_length
                 (fun a b : text * Z => Sqlite.order_leb (fst b) (fst a))
                 12 months).
        lia. }
      split; [exact Hlen |]. split; [exact Hnodup |].
      split; [exact Hright |]. split; [| exact Hall].
      intros m Hm Hout m' n Hin.
      exact (Htop m Hm Hout (m', n) Hin).
Qed.

(** C9 as stated fails once there are more than ten companies or more
    than twelve months: of the eleven companies and thirteen months of
    [busy_store], K and 2023-01 have no entry. *)
Lemma get_statistics_leaves_groups_out :
  exists s,
    get_statistics year_month nearest_hundredth busy_store = Ret (Some s)
    /\ In (Some "K")
         (map AppTable.company (job_applications (database_of busy_store)))
    /\ counts_find (Some "K") (company_counts s) = None
    /\ In (Some "2023-01")
         (map (fun r => year_month (AppTable.application_date r))
            (job_applications (database_of busy_store)))
    /\ counts_find (Some "2023-01") (monthly_counts s) = None.
Proof.
  eexists. split; [vm_compute; reflexivity |].
  split; [vm_compute; tauto |]. split; [vm_compute; reflexivity |].
  split; [vm_compute; tauto |]. vm_compute. reflexivity.
Qed.

(** Of the eleven companies and thirteen months of [busy_store] ten
    companies and twelve months are listed, each company with at least
    the one application of K, which is left out, and each month no
    earlier than 2023-01, which is left out; and the store with one
    application at Google counts one application for Google. *)
Lemma get_statistics_grouped_counts_witness :
  (exists s,
     get_statistics year_month nearest_hundredth busy_store = Ret (Some s)
     /\ List.length (company_counts s) = 10%nat
     /\ List.length (monthly_counts s) = 12%nat
     /\ (forall c n, In (c, n) (company_counts s) -> 1 <= n)
     /\ (forall m n, In (m, n) (monthly_counts s) ->
           Sqlite.order_leb (Some "2023-01") m = true))
  /\ counts_find (Some "Google")
       (match get_statistics year_month nearest_hundredth
                one_application_store with
        | Ret (Some s) => company_counts s
        | _ => []
        end)
     = Some 1.
Proof.
  split.
  - assert (Hd : Tables (database_of busy_store) = busy_store)
      by (vm_compute; reflexivity).
    remember (database_of busy_store) as d eqn:Hdef.
    destruct (get_statistics_grouped_counts year_month nearest_hundredth d)
      as (s & Heq & (Hlen & _ & _ & _ & Hout & _)
          & (Hlen' & _ & _ & _ & Hout' & _)).
    rewrite Hd in Heq.
    exists s. split; [exact Heq |].
    split; [rewrite Hlen, Hdef; vm_compute; reflexivity |].
    split; [rewrite Hlen', Hdef; vm_compute; reflexivity |].
    rewrite Hdef in Hout, Hout'.
    vm_compute in Heq. injection Heq as <-. split.
    + intros c n Hin.
      apply (Hout (Some "K") ltac:(vm_compute; tauto)
               ltac:(vm_compute; intuition discriminate) c n Hin).
    + intros m n Hin.
      apply (Hout' (Some "2023-01") ltac:(vm_compute; tauto)
               ltac:(vm_compute; intuition discriminate) m n Hin).
  - destruct (get_statistics_grouped_counts year_month nearest_hundredth
                (database_of one_application_store))
      as (s & Heq & (_ & _ & _ & _ & _ & Hall) & _).
    change (Tables (database_of one_application_store))
      with one_application_store in Heq.
    rewrite Heq.
    apply (Hall ltac:(vm_compute; discriminate) (Some "Google")).
    left. reflexivity.
Defined.

(** ** The response rate (C2) *)

Lemma round_half_even_near (q : Q) :
  2 * Z.abs (round_half_even q * Z.pos (Qden q) - Qnum q) <= Z.pos (Qden q).
Proof.
  unfold round_half_even.
  set (n := Qnum q). set (d := Z.pos (Qden q)).
  assert (Hd : 0 < d) by (unfold d; lia).
  pose proof (Z.div_mod n d ltac:(lia)) as Hdiv.
  pose proof (Z.mod_pos_bound n d Hd) as Hmod.
  set (fl := n / d) in *. set (r := n mod d) in *.
  destruct (2 * r <? d) eqn:Hlow.
  - apply Z.ltb_lt in Hlow. lia.
  - apply Z.ltb_ge in Hlow. destruct (d <? 2 * r) eqn:Hhigh.
    + apply Z.ltb_lt in Hhigh. lia.
    + apply Z.ltb_ge in Hhigh. destruct (Z.even fl); lia.
Qed.

(** The instance of the rounding is a rounding to hundredths. *)
Lemma nearest_hundredth_rounds : rounds_to_hundredths nearest_hundredth.
Proof.
  intros q. exists (round_half_even (q * 100)). split; [reflexivity |].
  pose proof (round_half_even_near (q * 100)) as Hnear.
  change (Qnum (q * 100)) with (Qnum q * 100) in Hnear.
  change (Qden (q * 100)) with (Qden q * 1)%positive in Hnear.
  rewrite Pos.mul_1_r in Hnear. lia.
Qed.

Lemma percentage_fraction (r : Z) (p : positive) :
  Qnum (inject_Z r / inject_Z (Z.pos p) * 100)%Q = r * 100
  /\ Qden (inject_Z r / inject_Z (Z.pos p) * 100)%Q = p.
Proof.
  unfold Qdiv, Qinv, Qmult, inject_Z. cbn [Qnum Qden]. split.
  - ring.
  - rewrite Pos.mul_1_l, Pos.mul_1_r. reflexivity.
Qed.

Lemma filter_or_length {A : Type} (f g : A -> bool) (l : list A) :
  (forall x, f x = true -> g x = true -> False) ->
  List.length (filter (fun x => f x || g x) l)
  = (List.length (filter f l) + List.length (filter g l))%nat.
Proof.
  intros Hdisjoint. induction l as [| x l IH]; simpl; [reflexivity |].
  destruct (f x) eqn:Hf, (g x) eqn:Hg; simpl; rewrite IH; try lia.
  exfalso. apply (Hdisjoint x); assumption.
Qed.

Lemma key_eqb_eq_where (k : string) (t : text) :
  Sqlite.key_eqb (Some k) t = Sqlite.eq_where t (Some k).
Proof. destruct t as [s |]; simpl; [apply String.eqb_sym | reflexivity]. Qed.

Lemma responded_count (rows : list AppTable.row) :
  let status_counts := Sqlite.group_count (map AppTable.status rows) in
  counts_get "interview_scheduled" status_counts
  + counts_get "rejected" status_counts
  + counts_get "offer_received" status_counts
  = Z.of_nat (List.length (filter responded_status rows)).
Proof.
  intros status_counts. unfold status_counts.
  rewrite !counts_get_group_count, !count_key_map.
  rewrite !(filter_ext _ _ (fun r => key_eqb_eq_where _ (AppTable.status r))).
  unfold responded_status.
  rewrite !filter_or_length.
  - lia.
  - intros r H1 H2. apply eq_where_eq in H1. apply eq_where_eq in H2.
    rewrite H1 in H2. discriminate H2.
  - intros r H1 H2. apply orb_prop in H1. apply eq_where_eq in H2.
    destruct H1 as [H1 | H1]; apply eq_where_eq in H1;
      rewrite H1 in H2; discriminate H2.
Qed.

(** C2: on a readable database [get_statistics] returns the dictionary of
    the statistics.  Its [response_rate] is the integer 0 when no
    application is stored: the quotient is not formed and nothing is
    raised.  Otherwise it is the rounding to two decimals of the
    percentage 100 * responded / total, where [responded] counts the
    stored applications whose status is [interview_scheduled],
    [rejected] or [offer_received] and [total] all stored applications:
    a multiple of 0.01 within 0.005 of the percentage. *)
Theorem get_statistics_response_rate (strftime_Ym : text -> text)
    (round_float : Q -> Q) (d : database) :
  let total := Z.of_nat (List.length (job_applications d)) in
  let responded :=
    Z.of_nat (List.length (filter responded_status (job_applications d))) in
  exists s,
    get_statistics strftime_Ym round_float (Tables d) = Ret (Some s)
    /\ total_applications s = total
    /\ (total = 0 -> response_rate s = Int 0)
    /\ (0 < total ->
        response_rate s
        = Float (round_float (inject_Z responded / inject_Z total * 100)%Q)
        /\ (rounds_to_hundredths round_float ->
            exists k,
              response_rate s = Float (Qmake k 100)
              /\ 2 * Z.abs (k * total - 10000 * responded) <= total)).
Proof.
  intros total responded.
  pose proof (sql_statistics_value strftime_Ym round_float d) as Hstats.
  cbv zeta in Hstats. rewrite responded_count in Hstats.
  fold total in Hstats. fold responded in Hstats.
  unfold get_statistics.
  cbv beta iota delta [connect tables bind try_except].
  rewrite Hstats. cbv beta iota.
  eexists. split; [reflexivity |].
  cbn [total_applications response_rate].
  split; [reflexivity |]. split.
  - intros Hzero. rewrite Hzero. reflexivity.
  - intros Hpos.
    assert (Hltb : (0 <? total) = true) by (apply Z.ltb_lt; exact Hpos).
    rewrite Hltb. split; [reflexivity |].
    intros Hround.
    destruct (Hround (inject_Z responded / inject_Z total * 100)%Q)
      as (k & Hk & Hnear).
    exists k. split; [rewrite Hk; reflexivity |].
    destruct total as [| p | p]; try lia.
    rewrite (proj1 (percentage_fraction responded p)) in Hnear.
    rewrite (proj2 (percentage_fraction responded p)) in Hnear.
    lia.
Qed.

(** The rate of a new store is the integer 0; with one answer to three
    applications it is within 0.005 of 33.33... *)
Lemma get_statistics_response_rate_witness :
  (exists s, get_statistics year_month nearest_hundredth new_store
             = Ret (Some s)
             /\ response_rate s = Int 0)
  /\ (exists s k, get_statistics year_month nearest_hundredth
                    three_applications_store = Ret (Some s)
                  /\ response_rate s = Float (Qmake k 100)
                  /\ 2 * Z.abs (k * 3 - 10000 * 1) <= 3).
Proof.
  split.
  - destruct (get_statistics_response_rate year_month nearest_hundredth
                (database_of new_store))
      as (s & Heq & _ & Hzero & _).
    exists s. split; [exact Heq |]. apply Hzero. reflexivity.
  - destruct (get_statistics_response_rate year_month nearest_hundredth
                (database_of three_applications_store))
      as (s & Heq & _ & _ & Hrate).
    destruct (Hrate eq_refl) as [_ Hbound].
    destruct (Hbound nearest_hundredth_rounds) as (k & Hk & Hnear).
    exists s, k. split; [exact Heq |]. split; [exact Hk | exact Hnear].
Defined.

(** ** Dates written [YYYY-MM-DD] compare as dates *)

Lemma digit_compare (a b : Z) :
  (Sqlite.digit a ?= Sqlite.digit b)%char = (a mod 10 ?= b mod 10).
Proof.
  unfold Sqlite.digit.
  pose proof (Z.mod_pos_bound a 10 ltac:(lia)) as Ha.
  pose proof (Z.mod_pos_bound b 10 ltac:(lia)) as Hb.
  set (x := a mod 10) in *. set (y := b mod 10) in *.
  clearbody x y.
  assert (Hx : x = 0 \/ x = 1 \/ x = 2 \/ x = 3 \/ x = 4 \/ x = 5 \/ x = 6
               \/ x = 7 \/ x = 8 \/ x = 9) by lia.
  assert (Hy : y = 0 \/ y = 1 \/ y = 2 \/ y = 3 \/ y = 4 \/ y = 5 \/ y = 6
               \/ y = 7 \/ y = 8 \/ y = 9) by lia.
  destruct Hx as [-> | [-> | [-> | [-> | [-> | [-> | [-> | [-> | [-> | ->]]]]]]]]];
    destruct Hy as [-> | [-> | [-> | [-> | [-> | [-> | [-> | [-> | [-> | ->]]]]]]]]];
    vm_compute; reflexivity.
Qed.

Lemma string_compare_digit (a b : Z) (s t : string) :
  (String (Sqlite.digit a) s ?= String (Sqlite.digit b) t)%string
  = match a mod 10 ?= b mod 10 with
    | Eq => (s ?= t)%string
    | c => c
    end.
Proof.
  cbn [String.compare]. rewrite digit_compare. reflexivity.
Qed.

Lemma string_compare_dash (s t : string) :
  (String "-" s ?= String "-" t)%string = (s ?= t)%string.
Proof. reflexivity. Qed.

Lemma pad2_compare (a b : Z) (s t : string) :
  (String (Sqlite.digit (a / 10)) (String (Sqlite.digit a) s)
   ?= String (Sqlite.digit (b / 10)) (String (Sqlite.digit b) t))%string
  = match a mod 100 ?= b mod 100 with
    | Eq => (s ?= t)%string
    | c => c
    end.
Proof.
  rewrite !string_compare_digit.
  destruct (Z.compare_spec ((a / 10) mod 10) ((b / 10) mod 10)) as [H1 | H1 | H1];
    [destruct (Z.compare_spec (a mod 10) (b mod 10)) as [H2 | H2 | H2] | |];
    destruct (Z.compare_spec (a mod 100) (b mod 100)) as [H3 | H3 | H3];
    try reflexivity; exfalso; Z.div_mod_to_equations; lia.
Qed.

Lemma pad4_compare (a b : Z) (s t : string) :
  (String (Sqlite.digit (a / 1000))
     (String (Sqlite.digit (a / 100))
        (String (Sqlite.digit (a / 10)) (String (Sqlite.digit a) s)))
   ?= String (Sqlite.digit (b / 1000))
        (String (Sqlite.digit (b / 100))
           (String (Sqlite.digit (b / 10)) (String (Sqlite.digit b) t))))%string
  = match a mod 10000 ?= b mod 10000 with
    | Eq => (s ?= t)%string
    | c => c
    end.
Proof.
  rewrite (string_compare_digit (a / 1000)), (string_compare_digit (a / 100)).
  rewrite pad2_compare.
  destruct (Z.compare_spec ((a / 1000) mod 10) ((b / 1000) mod 10))
    as [H1 | H1 | H1];
    [destruct (Z.compare_spec ((a / 100) mod 10) ((b / 100) mod 10))
       as [H2 | H2 | H2];
     [destruct (Z.compare_spec (a mod 100) (b mod 100)) as [H3 | H3 | H3]
     | |] | |];
    destruct (Z.compare_spec (a mod 10000) (b mod 10000)) as [H4 | H4 | H4];
    try reflexivity; exfalso; Z.div_mod_to_equations; lia.
Qed.

(** For dates written with four, two and two digits, the bytewise order
    of the texts is the order of the dates. *)
Lemma iso_date_order (y1 m1 d1 y2 m2 d2 : Z) :
  0 <= y1 <= 9999 -> 0 <= m1 <= 99 -> 0 <= d1 <= 99 ->
  0 <= y2 <= 9999 -> 0 <= m2 <= 99 -> 0 <= d2 <= 99 ->
  (Sqlite.iso_date (y1, m1, d1) <=? Sqlite.iso_date (y2, m2, d2))%string
  = (date_key (y1, m1, d1) <=? date_key (y2, m2, d2)).
Proof.
  intros Hy1 Hm1 Hd1 Hy2 Hm2 Hd2.
  unfold String.leb, Sqlite.iso_date, Sqlite.pad4, Sqlite.pad2, date_key.
  cbn [String.append].
  rewrite pad4_compare, string_compare_dash, pad2_compare,
    string_compare_dash, pad2_compare.
  rewrite (Z.mod_small y1), (Z.mod_small y2), (Z.mod_small m1),
    (Z.mod_small m2), (Z.mod_small d1), (Z.mod_small d2) by lia.
  destruct (Z.compare_spec y1 y2) as [Hy | Hy | Hy];
    [destruct (Z.compare_spec m1 m2) as [Hm | Hm | Hm];
     [destruct (Z.compare_spec d1 d2) as [Hd | Hd | Hd] | |] | |];
    simpl; symmetry;
    first [apply Z.leb_le; lia | apply Z.leb_gt; lia].
Qed.

(** Hence an application whose follow-up date is written [YYYY-MM-DD] is
    due exactly when its status asks for a follow-up and its date is on
    or before the day [today + days_ahead]. *)
Lemma due_on_or_before_date (today days_ahead : Z) (r : AppTable.row)
    (y m d : Z) :
  AppTable.follow_up_date r = Some (Sqlite.iso_date (y, m, d)) ->
  0 <= y <= 9999 -> 0 <= m <= 99 -> 0 <= d <= 99 ->
  (let '(y', m', d') := Sqlite.civil_from_days (today + days_ahead) in
   0 <= y' <= 9999 /\ 0 <= m' <= 99 /\ 0 <= d' <= 99) ->
  due_on_or_before today days_ahead r
  = (Sqlite.eq_where (AppTable.status r) (Some "applied")
     || Sqlite.eq_where (AppTable.status r) (Some "under_review"))
    && (date_key (y, m, d)
        <=? date_key (Sqlite.civil_from_days (today + days_ahead))).
Proof.
  intros Hdate Hy Hm Hd. unfold due_on_or_before. rewrite Hdate.
  destruct (Sqlite.civil_from_days (today + days_ahead)) as [[y' m'] d'].
  intros (Hy' & Hm' & Hd'). cbn [Sqlite.le_where].
  rewrite iso_date_order by assumption. reflexivity.
Qed.

(** * Further properties of the tracker and of its callers *)

(** ** Reading one application *)

Lemma get_application_value (d : database) (i : Z) :
  Sqlite.MIN_ROWID <= i <= Sqlite.MAX_ROWID ->
  get_application i (Tables d)
  = Ret (option_map _row_to_application
           (find (fun r => AppTable.id r =? i) (job_applications d))).
Proof.
  intros Hi. unfold get_application.
  cbv beta iota delta [connect tables bind try_except].
  rewrite (bind_int_fits i Hi). reflexivity.
Qed.

Lemma get_application_out_of_range (f : db_file) (i : Z) :
  ~ Sqlite.MIN_ROWID <= i <= Sqlite.MAX_ROWID ->
  get_application i f = Ret None.
Proof.
  intros Hi. unfold get_application.
  destruct f as [e | | d]; try reflexivity.
  cbv beta iota delta [connect tables bind try_except].
  unfold Sqlite.bind_int.
  destruct ((Sqlite.MIN_ROWID <=? i) && (i <=? Sqlite.MAX_ROWID)) eqn:Hfit;
    [| reflexivity].
  apply andb_true_iff in Hfit. destruct Hfit as [H1 H2].
  apply Z.leb_le in H1. apply Z.leb_le in H2. exfalso. apply Hi. lia.
Qed.

Lemma find_by_identifier (rows : list AppTable.row) (r : AppTable.row) :
  NoDup (map AppTable.id rows) -> In r rows ->
  find (fun x => AppTable.id x =? AppTable.id r) rows = Some r.
Proof.
  induction rows as [| x rows IH]; intros Hnodup Hin; [destruct Hin |].
  cbn [map] in Hnodup. inversion Hnodup as [| ? ? Hnotin Hrest]; subst.
  cbn [find]. destruct Hin as [-> | Hin].
  - rewrite Z.eqb_refl. reflexivity.
  - destruct (AppTable.id x =? AppTable.id r) eqn:Heq.
    + apply Z.eqb_eq in Heq. exfalso. apply Hnotin. rewrite Heq.
      apply in_map. exact Hin.
    + apply IH; assumption.
Qed.

(** X5: for an identifier that fits 64 bits: an application that
    [get_application] returns carries the identifier and is a stored
    row; the result is [None] exactly when no stored application has
    the identifier; and when the identifiers of the stored applications
    are pairwise different, every stored application is what
    [get_application] returns for its identifier. *)
Theorem get_application_by_identifier (d : database) (i : Z) :
  Sqlite.MIN_ROWID <= i <= Sqlite.MAX_ROWID ->
  (forall a, get_application i (Tables d) = Ret (Some a) ->
     JobApp.id a = Some i
     /\ exists r, In r (job_applications d) /\ a = _row_to_application r)
  /\ (get_application i (Tables d) = Ret None <->
      forall r, In r (job_applications d) -> AppTable.id r <> i)
  /\ (NoDup (map AppTable.id (job_applications d)) ->
      forall r, In r (job_applications d) -> AppTable.id r = i ->
        get_application i (Tables d) = Ret (Some (_row_to_application r))).
Proof.
  intros Hi. rewrite (get_application_value d i Hi).
  split; [| split].
  - intros a Heq.
    destruct (find (fun r => AppTable.id r =? i) (job_applications d))
      as [r |] eqn:Hfind; [| discriminate].
    apply find_some in Hfind. destruct Hfind as [Hin Hid].
    apply Z.eqb_eq in Hid. cbn [option_map] in Heq.
    injection Heq as <-. split.
    + cbn [_row_to_application JobApp.id]. rewrite Hid. reflexivity.
    + exists r. split; [exact Hin | reflexivity].
  - split.
    + intros Heq r Hin Hid.
      destruct (find (fun r => AppTable.id r =? i) (job_applications d))
        as [r0 |] eqn:Hfind; [discriminate |].
      apply (find_none _ _ Hfind) in Hin. apply Z.eqb_neq in Hin.
      contradiction.
    + intros Hnone. rewrite find_absent; [reflexivity |].
      intros r Hin. apply Z.eqb_neq. apply Hnone. exact Hin.
  - intros Hnodup r Hin Hid. subst i.
    rewrite (find_by_identifier _ r Hnodup Hin). reflexivity.
Qed.

(** The application 1 of the examples is found, an application 2 is
    not. *)
Lemma get_application_by_identifier_witness :
  get_application 1 (Tables (database_of one_application_store))
  = Ret (Some (_row_to_application
                 (application_row 1 "2024-01-15T09:00:00"
                    (application "Google" "applied" "2024-01-15"
                       "2024-01-22"))))
  /\ (get_application 2 (Tables (database_of one_application_store))
      = Ret None).
Proof.
  split.
  - destruct (get_application_by_identifier
                (database_of one_application_store) 1) as (_ & _ & Hfound).
    + vm_compute. split; discriminate.
    + apply Hfound.
      * repeat constructor. intros [].
      * left. reflexivity.
      * reflexivity.
  - destruct (get_application_by_identifier
                (database_of one_application_store) 2) as (_ & Hnone & _).
    + vm_compute. split; discriminate.
    + apply Hnone. intros r [<- | []]. vm_compute. discriminate.
Defined.

(** ** Interviews *)

Lemma largest_in (ids : list Z) (m : Z) :
  Sqlite.largest ids = Some m -> In m ids.
Proof.
  destruct ids as [| i ids]; [discriminate |].
  cbn [Sqlite.largest]. intros Heq. injection Heq as <-.
  induction ids as [| j ids IH]; cbn [fold_right]; [left; reflexivity |].
  destruct (Z.max_spec j (fold_right Z.max i ids)) as [[_ ->] | [_ ->]].
  - destruct IH as [IH | IH]; [left; exact IH | right; right; exact IH].
  - right; left; reflexivity.
Qed.

Lemma new_rowid_returns (ids : list Z) (seq : Z) :
  Forall (fun j => j < Sqlite.MAX_ROWID) ids -> seq <> Sqlite.MAX_ROWID ->
  exists i, Sqlite.new_rowid ids seq = Ret i.
Proof.
  intros Hids Hseq. unfold Sqlite.new_rowid.
  destruct (Sqlite.largest ids) as [m |] eqn:Hlargest.
  - apply largest_in in Hlargest.
    rewrite Forall_forall in Hids. apply Hids in Hlargest.
    destruct (Sqlite.MAX_ROWID <=? m) eqn:Hfull;
      [apply Z.leb_le in Hfull; lia |].
    destruct (seq =? Sqlite.MAX_ROWID) eqn:Heq;
      [apply Z.eqb_eq in Heq; contradiction |].
    eexists; reflexivity.
  - destruct (seq =? Sqlite.MAX_ROWID) eqn:Heq;
      [apply Z.eqb_eq in Heq; contradiction |].
    eexists; reflexivity.
Qed.

Lemma get_interviews_value (d : database) (a : Z) :
  a <> 0 -> Sqlite.MIN_ROWID <= a <= Sqlite.MAX_ROWID ->
  get_interviews (Some a) (Tables d)
  = Ret (map _row_to_interview
           (Sqlite.order_by_desc IntvTable.interview_date
              (filter (fun i => IntvTable.application_id i =? a)
                 (interviews d)))).
Proof.
  intros Hzero Hrange. unfold get_interviews.
  cbv beta iota delta [connect tables bind try_except truthy_int].
  apply Z.eqb_neq in Hzero. rewrite Hzero. cbn [negb].
  rewrite (bind_int_fits a Hrange). reflexivity.
Qed.

Lemma order_by_desc_sorted {A : Type} (key : A -> text) (l : list A) :
  Sorted (fun x y => Sqlite.order_leb (key y) (key x) = true)
    (Sqlite.order_by_desc key l).
Proof.
  unfold Sqlite.order_by_desc.
  apply (sort_by_sorted (fun x y => Sqlite.order_leb (key y) (key x))).
  intros x y. destruct (order_leb_total (key y) (key x)) as [H | H];
    [left | right]; exact H.
Qed.

(** X3: for an identifier other than 0 that fits 64 bits,
    [get_interviews(application_id)] returns the interviews whose
    [application_id] is the identifier, each as often as it is stored
    and no other, ordered by [interview_date] descending (bytewise,
    NULL last). *)
Theorem get_interviews_of_application (d : database) (a : Z) :
  a <> 0 ->
  Sqlite.MIN_ROWID <= a <= Sqlite.MAX_ROWID ->
  exists l,
    get_interviews (Some a) (Tables d) = Ret l
    /\ Permutation l
         (map _row_to_interview
            (filter (fun i => IntvTable.application_id i =? a) (interviews d)))
    /\ Forall (fun x => Intv.application_id x = a) l
    /\ Sorted (fun x y => Sqlite.order_leb (Intv.interview_date y)
                            (Intv.interview_date x) = true) l.
Proof.
  intros Hzero Hrange. rewrite (get_interviews_value d a Hzero Hrange).
  eexists. split; [reflexivity |]. split; [| split].
  - apply Permutation_map. apply order_by_desc_perm.
  - apply Forall_forall. intros x Hin.
    apply in_map_iff in Hin. destruct Hin as (i & <- & Hin).
    apply (Permutation_in _ (order_by_desc_perm _ _)) in Hin.
    apply filter_In in Hin. destruct Hin as [_ Heq].
    apply Z.eqb_eq in Heq. exact Heq.
  - apply map_sorted. apply order_by_desc_sorted.
Qed.

(** The interviews of the application 1 of the examples. *)
Lemma get_interviews_of_application_witness :
  exists l,
    get_interviews (Some 1) (Tables (database_of one_interview_store)) = Ret l
    /\ Permutation l
         (map _row_to_interview
            (filter (fun i => IntvTable.application_id i =? 1)
               (interviews (database_of one_interview_store))))
    /\ Forall (fun x => Intv.application_id x = 1) l
    /\ Sorted (fun x y => Sqlite.order_leb (Intv.interview_date y)
                            (Intv.interview_date x) = true) l.
Proof.
  apply (get_interviews_of_application (database_of one_interview_store) 1).
  - discriminate.
  - vm_compute. split; discriminate.
Defined.

Lemma sql_insert_interview_inv (now : string) (interview : Intv.Interview)
    (d d' : database) (i : Z) :
  sql_insert_interview now interview d = Ret (d', i) ->
  Sqlite.new_rowid (map IntvTable.id (interviews d)) (seq_interviews d) = Ret i
  /\ d' = {| job_applications := job_applications d;
             interviews :=
               (interviews d ++ [interview_row i now interview])%list;
             seq_job_applications := seq_job_applications d;
             seq_interviews := i |}.
Proof.
  unfold sql_insert_interview. intros H.
  apply bind_ret_inv in H. destruct H as (z & _ & H).
  apply bind_ret_inv in H. destruct H as (rowid & Hrowid & H).
  injection H as <- <-. split; [exact Hrowid | reflexivity].
Qed.

(** X2: add an interview, then read.  On a store whose interview
    identifiers and sequence have not reached the largest 64-bit
    integer, [add_interview] with an [application_id] that fits 64 bits
    returns an identifier that is larger than every identifier of a
    stored interview and than every identifier generated before; it
    appends the row of the interview and leaves the applications as
    they are; afterwards [get_interviews()] and
    [get_interviews(application_id)] both return the new interview.  No
    application needs to have the [application_id]: the foreign key is
    not enforced. *)
Theorem add_interview_round_trip (now : string) (interview : Intv.Interview)
    (d : database) :
  Sqlite.MIN_ROWID <= Intv.application_id interview <= Sqlite.MAX_ROWID ->
  Forall (fun i => IntvTable.id i < Sqlite.MAX_ROWID) (interviews d) ->
  seq_interviews d <> Sqlite.MAX_ROWID ->
  exists (i : Z) (d' : database),
    add_interview now interview (Tables d) = (Ret i, Tables d')
    /\ seq_interviews d < i
    /\ Forall (fun o => IntvTable.id o < i) (interviews d)
    /\ interviews d'
       = (interviews d ++ [interview_row i now interview])%list
    /\ job_applications d' = job_applications d
    /\ (exists l, get_interviews None (Tables d') = Ret l
                  /\ In (_row_to_interview (interview_row i now interview)) l)
    /\ (exists l, get_interviews (Some (Intv.application_id interview))
                    (Tables d') = Ret l
                  /\ In (_row_to_interview (interview_row i now interview)) l).
Proof.
  intros Hrange Hids Hseq.
  destruct (new_rowid_returns (map IntvTable.id (interviews d))
              (seq_interviews d)) as [i Hi].
  { apply Forall_forall. intros j Hj. apply in_map_iff in Hj.
    destruct Hj as (o & <- & Ho). rewrite Forall_forall in Hids.
    apply Hids. exact Ho. }
  { exact Hseq. }
  destruct (new_rowid_above _ _ _ Hi) as (Habove & Hall & _).
  set (row := interview_row i now interview).
  exists i. eexists. split.
  { unfold add_interview, sql_insert_interview.
    cbv beta iota delta [connect tables bind commit].
    rewrite (bind_int_fits _ Hrange). cbv beta iota.
    rewrite Hi. reflexivity. }
  cbn [interviews job_applications].
  split; [exact Habove |]. split.
  { apply Forall_forall. intros o Ho. rewrite Forall_forall in Hall.
    apply Hall. apply in_map. exact Ho. }
  split; [reflexivity |]. split; [reflexivity |].
  assert (Hall_in :
    In (_row_to_interview row)
       (map _row_to_interview
          (Sqlite.order_by_desc IntvTable.interview_date
             (interviews d ++ [row])%list))).
  { apply in_map. apply (Permutation_in _ (Permutation_sym (order_by_desc_perm _ _))).
    apply in_or_app. right. left. reflexivity. }
  split.
  { eexists. split; [reflexivity | exact Hall_in]. }
  destruct (Z.eq_dec (Intv.application_id interview) 0) as [Hzero | Hzero].
  - rewrite Hzero. eexists. split; [reflexivity | exact Hall_in].
  - eexists. split.
    + apply get_interviews_value; assumption.
    + cbn [interviews]. apply in_map.
      apply (Permutation_in _ (Permutation_sym (order_by_desc_perm _ _))).
      apply filter_In. split.
      * apply in_or_app. right. left. reflexivity.
      * apply Z.eqb_eq. reflexivity.
Qed.

(** An interview for an application 99 that does not exist is stored
    and found. *)
Lemma add_interview_round_trip_witness :
  exists (i : Z) (d' : database),
    add_interview "2024-01-20T09:00:00" (interview 99 "2024-01-25")
      (Tables (database_of one_application_store)) = (Ret i, Tables d')
    /\ seq_interviews (database_of one_application_store) < i
    /\ get_application 99 (Tables d') = Ret None
    /\ (exists l, get_interviews (Some 99) (Tables d') = Ret l
                  /\ In (_row_to_interview
                           (interview_row i "2024-01-20T09:00:00"
                              (interview 99 "2024-01-25"))) l).
Proof.
  destruct (add_interview_round_trip "2024-01-20T09:00:00"
              (interview 99 "2024-01-25")
              (database_of one_application_store))
    as (i & d' & Hadd & Hseq & _ & _ & Happs & _ & Hget).
  - vm_compute. split; discriminate.
  - constructor.
  - vm_compute. discriminate.
  - exists i, d'. split; [exact Hadd |]. split; [exact Hseq |].
    split; [| exact Hget].
    rewrite get_application_value by (vm_compute; split; discriminate).
    rewrite Happs. reflexivity.
Defined.

(** ** Deleting *)

Lemma existsb_filter_length {A : Type} (f : A -> bool) (l : list A) :
  (0 <? Z.of_nat (List.length (filter f l))) = existsb f l.
Proof.
  induction l as [| x l IH]; [reflexivity |].
  cbn [filter existsb]. destruct (f x); cbn [orb].
  - cbn [List.length]. apply Z.ltb_lt. lia.
  - exact IH.
Qed.

Lemma filter_filter_negb {A : Type} (f : A -> bool) (l : list A) :
  filter f (filter (fun x => negb (f x)) l) = [].
Proof.
  apply filter_absent. intros x Hin. apply filter_In in Hin.
  destruct Hin as [_ Hneg]. apply negb_true_iff in Hneg. exact Hneg.
Qed.

Lemma filter_idempotent {A : Type} (f : A -> bool) (l : list A) :
  filter f (filter f l) = filter f l.
Proof.
  apply filter_all. intros x Hin. apply filter_In in Hin. apply Hin.
Qed.

(** X4: for an identifier that fits 64 bits [delete_application]
    returns [True] exactly when an application had the identifier.  The
    two sequences of generated identifiers stay as they are; when no
    application has the identifier the applications stay as they are,
    and when no interview refers to it the interviews do; a second call
    with the same identifier returns [False] and changes nothing. *)
Theorem delete_application_flag (d : database) (application_id : Z) :
  Sqlite.MIN_ROWID <= application_id <= Sqlite.MAX_ROWID ->
  exists d',
    delete_application application_id (Tables d)
    = (Ret (existsb (fun r => AppTable.id r =? application_id)
              (job_applications d)), Tables d')
    /\ seq_job_applications d' = seq_job_applications d
    /\ seq_interviews d' = seq_interviews d
    /\ ((forall r, In r (job_applications d) ->
           AppTable.id r <> application_id) ->
        job_applications d' = job_applications d)
    /\ ((forall i, In i (interviews d) ->
           IntvTable.application_id i <> application_id) ->
        interviews d' = interviews d)
    /\ delete_application application_id (Tables d') = (Ret false, Tables d').
Proof.
  intros Hrange. eexists. split.
  { unfold delete_application, sql_delete.
    cbv beta iota delta [connect tables bind commit].
    rewrite (bind_int_fits _ Hrange). cbv beta iota zeta.
    cbn [fst snd]. rewrite existsb_filter_length. reflexivity. }
  cbn [seq_job_applications seq_interviews job_applications interviews].
  split; [reflexivity |]. split; [reflexivity |]. split; [| split].
  - intros Habsent. apply filter_all. intros r Hin.
    apply negb_true_iff. apply Z.eqb_neq. apply Habsent. exact Hin.
  - intros Habsent. apply filter_all. intros i Hin.
    apply negb_true_iff. apply Z.eqb_neq. apply Habsent. exact Hin.
  - unfold delete_application, sql_delete.
    cbv beta iota delta [connect tables bind commit].
    rewrite (bind_int_fits _ Hrange). cbv beta iota zeta.
    cbn [fst snd seq_job_applications seq_interviews job_applications
         interviews].
    rewrite (filter_filter_negb (fun r => AppTable.id r =? application_id)).
    rewrite !filter_idempotent. reflexivity.
Qed.

(** Deleting an application 7 that does not exist returns [False] and
    keeps the application and the interview of the examples. *)
Lemma delete_application_flag_witness :
  exists d',
    delete_application 7 (Tables (database_of one_interview_store))
    = (Ret false, Tables d')
    /\ job_applications d'
       = job_applications (database_of one_interview_store)
    /\ interviews d' = interviews (database_of one_interview_store).
Proof.
  destruct (delete_application_flag (database_of one_interview_store) 7)
    as (d' & Hdel & _ & _ & Happs & Hintv & _).
  - vm_compute. split; discriminate.
  - exists d'. split; [exact Hdel |]. split.
    + apply Happs. intros r [<- | []]. vm_compute. discriminate.
    + apply Hintv. intros i [<- | []]. vm_compute. discriminate.
Defined.

(** ** Updates with a field-to-value mapping *)

Lemma Forall2_in_right {A B : Type} (R : A -> B -> Prop) (l : list A)
    (l' : list B) (y : B) :
  Forall2 R l l' -> In y l' -> exists x, In x l /\ R x y.
Proof.
  induction 1 as [| x y0 l l' Hxy _ IH]; intros Hin; [destruct Hin |].
  destruct Hin as [<- | Hin].
  - exists x. split; [left; reflexivity | exact Hxy].
  - destruct (IH Hin) as (x' & Hx' & Hr). exists x'.
    split; [right; exact Hx' | exact Hr].
Qed.

Lemma Forall2_in_left {A B : Type} (R : A -> B -> Prop) (l : list A)
    (l' : list B) (x : A) :
  Forall2 R l l' -> In x l -> exists y, In y l' /\ R x y.
Proof.
  induction 1 as [| x0 y l l' Hxy _ IH]; intros Hin; [destruct Hin |].
  destruct Hin as [<- | Hin].
  - exists y. split; [left; reflexivity | exact Hxy].
  - destruct (IH Hin) as (y' & Hy' & Hr). exists y'.
    split; [right; exact Hy' | exact Hr].
Qed.

Lemma Forall2_map_same {A B : Type} (f : A -> B) (R : A -> A -> Prop)
    (l l' : list A) :
  Forall2 R l l' -> (forall x y, R x y -> f y = f x) -> map f l' = map f l.
Proof.
  intros H Hf. induction H as [| x y l l' Hxy _ IH]; [reflexivity |].
  cbn [map]. rewrite (Hf x y Hxy), IH. reflexivity.
Qed.

Lemma dict_set_other (k : string) (v : pyval) (d : dict) (key : string)
    (w : pyval) :
  In (key, w) d -> key <> k -> In (key, w) (dict_set k v d).
Proof.
  intros Hin Hkey. induction d as [| [k0 v0] d IH]; [destruct Hin |].
  cbn [dict_set]. destruct Hin as [Heq | Hin].
  - injection Heq as -> ->.
    destruct (String.eqb_spec key k) as [Heq | _];
      [contradiction | left; reflexivity].
  - destruct (k0 =? k)%string; right; [exact Hin | apply IH; exact Hin].
Qed.

Lemma field_mapping_names_id (updates : dict) :
  field_mapping updates -> names updates AppTable.Id ->
  In "id" (map fst updates).
Proof.
  intros [_ Hfields] (key & Hkey & Hres).
  rewrite Forall_forall in Hfields.
  assert (key = "id"); [| subst key; exact Hkey].
  apply resolve_field_name_inj.
  - apply Hfields. exact Hkey.
  - unfold field_names. cbn [map AppTable.column_names fst]. left. reflexivity.
  - rewrite Hres. reflexivity.
Qed.

Lemma update_application_rows (integer_of_text : string -> option Z)
    (now : string) (application_id : Z) (updates : dict) (d : database)
    (f' : db_file) :
  field_mapping updates -> ~ In "id" (map fst updates) ->
  update_application integer_of_text now application_id updates (Tables d)
  = (Ret true, f') ->
  exists d',
    f' = Tables d'
    /\ interviews d' = interviews d
    /\ seq_job_applications d' = seq_job_applications d
    /\ seq_interviews d' = seq_interviews d
    /\ (exists r, In r (job_applications d) /\ AppTable.id r = application_id)
    /\ Forall2 (updated_row now application_id updates)
         (job_applications d) (job_applications d').
Proof.
  intros Hfields Hnoid. unfold update_application.
  cbv beta iota delta [connect tables bind commit].
  destruct (sql_update integer_of_text
              (dict_set "updated_at" (PStr now) updates) application_id d)
    as [[d' n] | e] eqn:Hupd; cbn [fst snd]; intros H; [| discriminate].
  injection H as Hok <-.
  apply sql_update_inv in Hupd.
  destruct Hupd as (l & l' & rows & Hprep & Hbind & _ & Hrows & ->).
  apply bind_values_same in Hbind. subst l'.
  apply update_where_rows in Hrows. destruct Hrows as [Hrows Hn].
  exists (with_job_applications d rows).
  split; [reflexivity |]. split; [reflexivity |]. split; [reflexivity |].
  split; [reflexivity |]. split.
  { apply Z.ltb_lt in Hok. rewrite Hn in Hok.
    destruct (filter (fun r => AppTable.id r =? application_id)
                (job_applications d)) as [| r rest] eqn:Hfilter;
      [cbn [List.length] in Hok; lia |].
    assert (Hr : In r (filter (fun r => AppTable.id r =? application_id)
                         (job_applications d)))
      by (rewrite Hfilter; left; reflexivity).
    apply filter_In in Hr. destruct Hr as [Hr Hid].
    exists r. split; [exact Hr | apply Z.eqb_eq; exact Hid]. }
  cbn [with_job_applications job_applications].
  pose proof (field_mapping_dict_set now updates Hfields) as Hfields'.
  pose proof (prepared_nodup _ _ Hprep Hfields') as Hnodup.
  eapply Forall2_impl; [| exact Hrows].
  intros r r' Hr. cbv beta in Hr.
  destruct (Z.eqb_spec (AppTable.id r) application_id) as [Hid | Hid].
  - unfold update_row in Hr.
    apply bind_ret_inv in Hr. destruct Hr as (r1 & Hassign & Hr).
    destruct (negb (AppTable.id r1 =? AppTable.id r) && _);
      [discriminate |].
    injection Hr as ->.
    rewrite (effective_nodup l Hnodup) in Hassign.
    pose proof (assign_all_frame integer_of_text l r r' Hassign)
      as [Htext Hident].
    split; [| split].
    + apply Hident. intros Hin.
      apply (prepared_column_named _ _ _ Hprep) in Hin.
      apply (field_mapping_names_id _ Hfields') in Hin.
      apply dict_set_keys in Hin. destruct Hin as [Hin | Hin];
        [discriminate | contradiction].
    + intros Hne. contradiction.
    + intros _. split.
      * intros key v c Hin Hres.
        destruct (prepared_in _ _ (key, v) Hprep Hin) as (c' & Hc' & Hcl).
        cbn [fst snd] in Hc', Hcl. rewrite Hres in Hc'.
        injection Hc' as <-.
        apply (assign_all_value integer_of_text l r r' c v Hnodup Hcl Hassign).
      * intros c Hnames. apply Htext. intros Hin. apply Hnames.
        apply (prepared_column_named _ _ _ Hprep). exact Hin.
  - subst r'. split; [reflexivity |]. split; [reflexivity |].
    intros Heq. contradiction.
Qed.

(** X6: update, then read.  Let the identifiers of the stored
    applications be pairwise different and [updates] a field-to-value
    mapping without the key [id].  When [update_application] returns
    [True], [get_application] returns for the same identifier the
    updated record: it has the identifier, its [updated_at] is the
    current time, every field that a key other than [updated_at] names
    holds the value of the key (an [int] as its decimal text, [None] as
    NULL), and every other field is as it was. *)
Theorem update_application_round_trip
    (integer_of_text : string -> option Z) (now : string)
    (application_id : Z) (updates : dict) (d : database) (f' : db_file) :
  field_mapping updates ->
  ~ In "id" (map fst updates) ->
  NoDup (map AppTable.id (job_applications d)) ->
  update_application integer_of_text now application_id updates (Tables d)
  = (Ret true, f') ->
  exists r r',
    In r (job_applications d)
    /\ AppTable.id r = application_id
    /\ get_application application_id f'
       = Ret (Some (_row_to_application r'))
    /\ AppTable.id r' = application_id
    /\ AppTable.updated_at r' = Some now
    /\ (forall key v c,
          In (key, v) updates -> key <> "updated_at" ->
          resolve_column key = Some (AppTable.Text c) ->
          AppTable.get_text c r' = to_text v)
    /\ (forall c,
          c <> AppTable.c_updated_at ->
          ~ names updates (AppTable.Text c) ->
          AppTable.get_text c r' = AppTable.get_text c r).
Proof.
  intros Hfields Hnoid Hnodup Hupd.
  pose proof Hupd as Hrun.
  unfold update_application in Hrun.
  cbv beta iota delta [connect tables bind commit] in Hrun.
  assert (Hrange : Sqlite.MIN_ROWID <= application_id <= Sqlite.MAX_ROWID).
  { destruct (sql_update integer_of_text
                (dict_set "updated_at" (PStr now) updates) application_id d)
      as [[d0 n] | e] eqn:Hsql; [| discriminate].
    apply sql_update_inv in Hsql.
    destruct Hsql as (_ & _ & _ & _ & _ & Hrange & _). exact Hrange. }
  clear Hrun.
  destruct (update_application_rows _ _ _ _ _ _ Hfields Hnoid Hupd)
    as (d' & -> & _ & _ & _ & (r & Hr & Hid) & Hrows).
  destruct (Forall2_in_left _ _ _ r Hrows Hr) as (r' & Hr' & Hsame & _ & Hnew).
  destruct (Hnew Hid) as [Hvalues Hframe].
  assert (Hids : map AppTable.id (job_applications d')
                 = map AppTable.id (job_applications d)).
  { apply (Forall2_map_same _ _ _ _ Hrows). intros x y Hxy. apply Hxy. }
  exists r, r'. split; [exact Hr |]. split; [exact Hid |].
  assert (Hid' : AppTable.id r' = application_id) by congruence.
  split.
  { rewrite (get_application_value d' application_id Hrange).
    rewrite <- Hid'. rewrite find_by_identifier;
      [reflexivity | rewrite Hids; exact Hnodup | exact Hr']. }
  split; [exact Hid' |]. split; [| split].
  - apply (Hvalues "updated_at" (PStr now) AppTable.c_updated_at).
    + apply dict_set_in.
    + reflexivity.
  - intros key v c Hin Hkey Hres. apply (Hvalues key v c); [| exact Hres].
    apply dict_set_other; assumption.
  - intros c Hc Hnames. apply Hframe. intros Hin.
    apply names_dict_set in Hin. destruct Hin as [Hin | Hin].
    + apply Hc. vm_compute in Hin. congruence.
    + contradiction.
Qed.

(** A new status and a salary given as an [int]: the record that is
    read afterwards has both, the salary as a text, and its company. *)
Lemma update_application_round_trip_witness :
  exists r',
    get_application 1
      (snd (update_application decimal_integer "2024-02-01T10:00:00" 1
              [("status", PStr "interview_scheduled");
               ("salary_range", PInt 150000)] one_application_store))
    = Ret (Some (_row_to_application r'))
    /\ AppTable.status r' = Some "interview_scheduled"
    /\ AppTable.salary_range r' = Some "150000"
    /\ AppTable.updated_at r' = Some "2024-02-01T10:00:00"
    /\ AppTable.company r' = Some "Google".
Proof.
  destruct (update_application_round_trip decimal_integer
              "2024-02-01T10:00:00" 1
              [("status", PStr "interview_scheduled");
               ("salary_range", PInt 150000)]
              (database_of one_application_store)
              (snd (update_application decimal_integer "2024-02-01T10:00:00" 1
                      [("status", PStr "interview_scheduled");
                       ("salary_range", PInt 150000)] one_application_store)))
    as (r & r' & Hr & _ & Hget & _ & Hstamp & Hvalues & Hframe).
  - split.
    + repeat constructor; cbn [In]; intuition discriminate.
    + repeat constructor; unfold field_names; cbn [map fst
        AppTable.column_names In]; tauto.
  - cbn [map fst In]. intuition discriminate.
  - repeat constructor. cbn [In]. tauto.
  - vm_compute. reflexivity.
  - exists r'. split; [exact Hget |]. split; [| split; [| split]].
    + apply (Hvalues "status" (PStr "interview_scheduled") AppTable.c_status);
        [left; reflexivity | discriminate | reflexivity].
    + apply (Hvalues "salary_range" (PInt 150000) AppTable.c_salary_range);
        [right; left; reflexivity | discriminate | reflexivity].
    + exact Hstamp.
    + destruct Hr as [<- | []].
      apply (Hframe AppTable.c_company); [discriminate |].
      intros (key & Hkey & Hres).
      destruct Hkey as [<- | [<- | []]]; vm_compute in Hres; discriminate.
Defined.

(** ** Reminders after an update of the status *)

Lemma get_follow_up_reminders_value (today days_ahead : Z) (d : database) :
  get_follow_up_reminders today days_ahead (Tables d)
  = Ret (map _row_to_application (sql_select_follow_ups today days_ahead d)).
Proof. reflexivity. Qed.

Lemma sql_select_follow_ups_in (today days_ahead : Z) (d : database)
    (r : AppTable.row) :
  In r (sql_select_follow_ups today days_ahead d)
  <-> In r (job_applications d)
      /\ needs_follow_up (Sqlite.date_now_plus_days today days_ahead) r = true.
Proof.
  unfold sql_select_follow_ups. split.
  - intros Hin.
    apply (Permutation_in _ (order_by_asc_perm _ _)) in Hin.
    apply filter_In in Hin. exact Hin.
  - intros Hin.
    apply (Permutation_in _ (Permutation_sym (order_by_asc_perm _ _))).
    apply filter_In. exact Hin.
Qed.

(** X7: the second half of the scenario of the reminders.  When
    [update_application] with a field-to-value mapping without the key
    [id] that sets [status] to a text other than [applied] and
    [under_review] returns [True], [get_follow_up_reminders] returns no
    application with the identifier afterwards, whatever the day and
    the number of days; an application with another identifier is
    returned exactly if it was returned before. *)
Theorem status_update_ends_reminders
    (integer_of_text : string -> option Z) (now : string)
    (today days_ahead application_id : Z) (updates : dict) (s : string)
    (d : database) (f' : db_file) :
  field_mapping updates ->
  ~ In "id" (map fst updates) ->
  In ("status", PStr s) updates ->
  s <> "applied" -> s <> "under_review" ->
  update_application integer_of_text now application_id updates (Tables d)
  = (Ret true, f') ->
  exists before after,
    get_follow_up_reminders today days_ahead (Tables d) = Ret before
    /\ get_follow_up_reminders today days_ahead f' = Ret after
    /\ Forall (fun a => JobApp.id a <> Some application_id) after
    /\ (forall a, JobApp.id a <> Some application_id ->
          In a after <-> In a before).
Proof.
  intros Hfields Hnoid Hstatus Happlied Hreview Hupd.
  destruct (update_application_rows _ _ _ _ _ _ Hfields Hnoid Hupd)
    as (d' & -> & _ & _ & _ & _ & Hrows).
  rewrite !get_follow_up_reminders_value.
  eexists. eexists. split; [reflexivity |]. split; [reflexivity |].
  assert (Hnew : forall r', In r' (job_applications d') ->
            AppTable.id r' = application_id ->
            needs_follow_up (Sqlite.date_now_plus_days today days_ahead) r'
            = false).
  { intros r' Hr' Hid'.
    destruct (Forall2_in_right _ _ _ r' Hrows Hr')
      as (r & _ & Hsame & _ & Hnew).
    destruct (Hnew ltac:(congruence)) as [Hvalues _].
    assert (Hs : AppTable.status r' = Some s).
    { apply (Hvalues "status" (PStr s) AppTable.c_status); [| reflexivity].
      apply dict_set_other; [exact Hstatus | discriminate]. }
    unfold needs_follow_up. rewrite Hs.
    destruct (AppTable.follow_up_date r'); [| reflexivity].
    assert (H1 : Sqlite.eq_where (Some s) (Some "applied") = false).
    { apply not_true_is_false. intros H. apply eq_where_eq in H.
      congruence. }
    assert (H2 : Sqlite.eq_where (Some s) (Some "under_review") = false).
    { apply not_true_is_false. intros H. apply eq_where_eq in H.
      congruence. }
    rewrite H1, H2. apply andb_false_r. }
  split.
  - apply Forall_forall. intros a Hin Hid.
    apply in_map_iff in Hin. destruct Hin as (r' & <- & Hin).
    apply sql_select_follow_ups_in in Hin. destruct Hin as [Hr' Hdue].
    cbn [_row_to_application JobApp.id] in Hid. injection Hid as Hid.
    rewrite (Hnew r' Hr' Hid) in Hdue. discriminate.
  - intros a Hid. split; intros Hin;
      apply in_map_iff in Hin; destruct Hin as (r0 & <- & Hin);
      apply sql_select_follow_ups_in in Hin; destruct Hin as [Hr0 Hdue];
      cbn [_row_to_application JobApp.id] in Hid;
      assert (Hne : AppTable.id r0 <> application_id) by congruence.
    + destruct (Forall2_in_right _ _ _ r0 Hrows Hr0)
        as (r & Hr & Hsame & Hother & _).
      assert (r0 = r) by (apply Hother; congruence). subst r0.
      apply in_map. apply sql_select_follow_ups_in. split; assumption.
    + destruct (Forall2_in_left _ _ _ r0 Hrows Hr0)
        as (r' & Hr' & _ & Hother & _).
      rewrite (Hother Hne) in Hr'.
      apply in_map. apply sql_select_follow_ups_in. split; assumption.
Qed.

(** The application of the examples is due on 2024-01-15, and no longer
    once its status is [interview_scheduled]. *)
Lemma status_update_ends_reminders_witness :
  exists before,
    get_follow_up_reminders 19737 7 one_application_store = Ret before
    /\ map JobApp.id before = [Some 1]
    /\ get_follow_up_reminders 19737 7
         (snd (update_application decimal_integer "2024-01-16T09:00:00" 1
                 [("status", PStr "interview_scheduled")]
                 one_application_store))
       = Ret [].
Proof.
  destruct (status_update_ends_reminders decimal_integer
              "2024-01-16T09:00:00" 19737 7 1
              [("status", PStr "interview_scheduled")] "interview_scheduled"
              (database_of one_application_store)
              (snd (update_application decimal_integer "2024-01-16T09:00:00" 1
                      [("status", PStr "interview_scheduled")]
                      one_application_store)))
    as (before & after & Hbefore & Hafter & Hnone & _).
  - split.
    + repeat constructor; cbn [In]; intuition discriminate.
    + repeat constructor; unfold field_names; cbn [map fst
        AppTable.column_names In]; tauto.
  - cbn [map fst In]. intuition discriminate.
  - left. reflexivity.
  - discriminate.
  - discriminate.
  - reflexivity.
  - exists before. split; [exact Hbefore |]. split.
    + vm_compute in Hbefore. injection Hbefore as <-. reflexivity.
    + rewrite Hafter. vm_compute in Hafter. symmetry. exact Hafter.
Defined.

(** ** Sessions *)


Lemma nodup_map_filter {A B : Type} (key : A -> B) (f : A -> bool)
    (l : list A) :
  NoDup (map key l) -> NoDup (map key (filter f l)).
Proof.
  induction l as [| x l IH]; intros H; [constructor |].
  cbn [map] in H. inversion H as [| ? ? Hnotin Hrest]; subst.
  cbn [filter]. destruct (f x); [| apply IH; exact Hrest].
  cbn [map]. constructor; [| apply IH; exact Hrest].
  intros Hin. apply Hnotin. apply in_map_iff in Hin.
  destruct Hin as (y & Hy & Hin). apply filter_In in Hin.
  rewrite <- Hy. apply in_map. apply Hin.
Qed.

Lemma nodup_map_app_new {A : Type} (key : A -> Z) (l : list A) (x : A) :
  NoDup (map key l) -> Forall (fun j => j < key x) (map key l) ->
  NoDup (map key (l ++ [x])).
Proof.
  intros Hnodup Hbelow. rewrite map_app. cbn [map].
  apply NoDup_app.
  - exact Hnodup.
  - repeat constructor. intros [].
  - intros j Hj [<- | []]. rewrite Forall_forall in Hbelow.
    apply Hbelow in Hj. lia.
Qed.


Lemma perform_identifiers_differ (integer_of_text : string -> option Z)
    (c : call) (d : database) :
  identifiers_differ d ->
  exists d',
    snd (perform integer_of_text c (Tables d)) = Tables d'
    /\ identifiers_differ d'.
Proof.
  intros [Happs Hintv]. destruct c as [now a | now i updates | i | now v];
    cbn [perform].
  - unfold add_application.
    cbv beta iota delta [connect tables bind commit].
    destruct (sql_insert_application now a d) as [[d' i] | e] eqn:Hins.
    + exists d'. split; [reflexivity |].
      apply sql_insert_application_inv in Hins.
      destruct Hins as (Hid & Hrows & Hsame & _ & _).
      apply new_rowid_above in Hid. destruct Hid as (_ & Hbelow & _).
      split; [| rewrite Hsame; exact Hintv].
      rewrite Hrows. apply nodup_map_app_new; assumption.
    + exists d. split; [reflexivity | split; assumption].
  - unfold update_application.
    cbv beta iota delta [connect tables bind commit].
    destruct (sql_update integer_of_text
                (dict_set "updated_at" (PStr now) updates) i d)
      as [[d' n] | e] eqn:Hupd; cbn [snd fst].
    + exists d'. split; [reflexivity |].
      apply sql_update_inv in Hupd.
      destruct Hupd as (l & l' & rows & _ & _ & _ & Hrows & ->).
      split; [| exact Hintv].
      apply (update_where_nodup _ _ _ _ _ _ Hrows Happs).
    + exists d. split; [reflexivity | split; assumption].
  - unfold delete_application, sql_delete.
    cbv beta iota delta [connect tables bind commit].
    destruct (Sqlite.bind_int i) as [i' | e]; cbn [snd fst].
    + eexists. split; [reflexivity |].
      split; cbn [job_applications interviews]; apply nodup_map_filter;
        assumption.
    + exists d. split; [reflexivity | split; assumption].
  - unfold add_interview.
    cbv beta iota delta [connect tables bind commit].
    destruct (sql_insert_interview now v d) as [[d' i] | e] eqn:Hins.
    + exists d'. split; [reflexivity |].
      apply sql_insert_interview_inv in Hins. destruct Hins as [Hid ->].
      apply new_rowid_above in Hid. destruct Hid as (_ & Hbelow & _).
      split; cbn [job_applications interviews]; [exact Happs |].
      apply nodup_map_app_new; assumption.
    + exists d. split; [reflexivity | split; assumption].
Qed.

(** X8: an invariant of the store.  When the identifiers of the
    applications are pairwise different and so are those of the
    interviews, they still are after any sequence of calls of
    [add_application], [update_application] (also one that sets [id]),
    [delete_application] and [add_interview]; in the store that results
    [get_application] returns every stored application for its
    identifier, when the identifier fits 64 bits. *)
Theorem identifiers_stay_different (integer_of_text : string -> option Z)
    (calls : list call) (d : database) :
  identifiers_differ d ->
  exists d',
    after_calls integer_of_text calls (Tables d) = Tables d'
    /\ identifiers_differ d'
    /\ forall r, In r (job_applications d') ->
         Sqlite.MIN_ROWID <= AppTable.id r <= Sqlite.MAX_ROWID ->
         get_application (AppTable.id r) (Tables d')
         = Ret (Some (_row_to_application r)).
Proof.
  revert d. induction calls as [| c calls IH]; intros d Hd.
  - exists d. split; [reflexivity |]. split; [exact Hd |].
    intros r Hr Hrange. rewrite (get_application_value d _ Hrange).
    rewrite (find_by_identifier _ r (proj1 Hd) Hr). reflexivity.
  - destruct (perform_identifiers_differ integer_of_text c d Hd)
      as (d1 & Hstep & Hd1).
    destruct (IH d1 Hd1) as (d' & Hrun & Hd' & Hget).
    exists d'. split; [| split; assumption].
    unfold after_calls in *. cbn [fold_left]. rewrite Hstep. exact Hrun.
Qed.

(** A session that adds, renumbers and deletes. *)
Lemma identifiers_stay_different_witness :
  exists d',
    after_calls decimal_integer
      [AddApplication "2024-01-15T09:00:00"
         (application "Google" "applied" "2024-01-15" "2024-01-22");
       AddInterview "2024-01-20T09:00:00" (interview 1 "2024-01-25");
       UpdateApplication "2024-01-21T09:00:00" 1 [("id", PInt 7)];
       AddApplication "2024-01-22T09:00:00"
         (application "Meta" "applied" "2024-01-22" "2024-01-29");
       DeleteApplication 7]
      (Tables empty_database) = Tables d'
    /\ identifiers_differ d'.
Proof.
  destruct (identifiers_stay_different decimal_integer
              [AddApplication "2024-01-15T09:00:00"
                 (application "Google" "applied" "2024-01-15" "2024-01-22");
               AddInterview "2024-01-20T09:00:00" (interview 1 "2024-01-25");
               UpdateApplication "2024-01-21T09:00:00" 1 [("id", PInt 7)];
               AddApplication "2024-01-22T09:00:00"
                 (application "Meta" "applied" "2024-01-22" "2024-01-29");
               DeleteApplication 7]
              empty_database)
    as (d' & Hrun & Hd' & _).
  - split; constructor.
  - exists d'. split; [exact Hrun | exact Hd'].
Defined.

(** ** Counts by status *)



Lemma counts_total_perm (c c' : counts) :
  Permutation c c' -> counts_total c = counts_total c'.
Proof.
  unfold counts_total.
  induction 1; cbn [map fold_right]; lia.
Qed.

Lemma count_key_cons (k k' : text) (keys : list text) :
  Sqlite.count_key k (k' :: keys)
  = (if Sqlite.key_eqb k k' then 1 else 0) + Sqlite.count_key k keys.
Proof.
  unfold Sqlite.count_key. cbn [filter].
  destruct (Sqlite.key_eqb k k'); cbn [List.length]; lia.
Qed.

Lemma count_key_absent (k : text) (keys : list text) :
  ~ In k keys -> Sqlite.count_key k keys = 0.
Proof.
  intros Hnotin. unfold Sqlite.count_key. rewrite filter_absent; [reflexivity |].
  intros k' Hin. apply not_true_is_false. intros Heq.
  apply key_eqb_eq in Heq. subst k'. contradiction.
Qed.

Lemma sum_counts_cons (k : text) (keys l : list text) :
  NoDup l ->
  fold_right Z.add 0 (map (fun k' => Sqlite.count_key k' (k :: keys)) l)
  = (if existsb (Sqlite.key_eqb k) l then 1 else 0)
    + fold_right Z.add 0 (map (fun k' => Sqlite.count_key k' keys) l).
Proof.
  induction l as [| x l IH]; intros Hnodup; [reflexivity |].
  inversion Hnodup as [| ? ? Hnotin Hrest]; subst.
  cbn [map fold_right existsb]. rewrite (IH Hrest), count_key_cons.
  destruct (Sqlite.key_eqb x k) eqn:Hxk.
  - apply key_eqb_eq in Hxk. subst x. rewrite key_eqb_refl. cbn [orb].
    assert (Hno : existsb (Sqlite.key_eqb k) l = false).
    { apply not_true_is_false. intros H. apply existsb_exists in H.
      destruct H as (y & Hy & Heq). apply key_eqb_eq in Heq. subst y.
      contradiction. }
    rewrite Hno. lia.
  - assert (Hkx : Sqlite.key_eqb k x = false).
    { apply not_true_is_false. intros H. apply key_eqb_eq in H. subst x.
      rewrite key_eqb_refl in Hxk. discriminate. }
    rewrite Hkx. cbn [orb]. lia.
Qed.

Lemma sum_split_key (g : text -> Z) (k : text) (l : list text) :
  NoDup l ->
  fold_right Z.add 0 (map g l)
  = (if existsb (Sqlite.key_eqb k) l then g k else 0)
    + fold_right Z.add 0
        (map g (filter (fun k' => negb (Sqlite.key_eqb k k')) l)).
Proof.
  induction l as [| x l IH]; intros Hnodup; [reflexivity |].
  inversion Hnodup as [| ? ? Hnotin Hrest]; subst.
  cbn [map fold_right existsb filter]. rewrite (IH Hrest).
  destruct (Sqlite.key_eqb k x) eqn:Hkx; cbn [negb orb map fold_right].
  - apply key_eqb_eq in Hkx. subst x.
    assert (Hno : existsb (Sqlite.key_eqb k) l = false).
    { apply not_true_is_false. intros H. apply existsb_exists in H.
      destruct H as (y & Hy & Heq). apply key_eqb_eq in Heq. subst y.
      contradiction. }
    rewrite Hno. lia.
  - lia.
Qed.

Lemma sum_counts_distinct (keys : list text) :
  fold_right Z.add 0
    (map (fun k => Sqlite.count_key k keys) (Sqlite.distinct keys))
  = Z.of_nat (List.length keys).
Proof.
  induction keys as [| k keys IH]; [reflexivity |].
  cbn [Sqlite.distinct map fold_right].
  rewrite count_key_cons, key_eqb_refl.
  rewrite sum_counts_cons
    by (apply NoDup_filter; apply distinct_nodup).
  assert (Hno : existsb (Sqlite.key_eqb k)
                  (filter (fun k' => negb (Sqlite.key_eqb k k'))
                     (Sqlite.distinct keys)) = false).
  { apply not_true_is_false. intros H. apply existsb_exists in H.
    destruct H as (y & Hy & Heq). apply filter_In in Hy.
    destruct Hy as [_ Hy]. rewrite Heq in Hy. discriminate. }
  rewrite Hno. cbn [List.length]. rewrite Nat2Z.inj_succ, <- IH.
  rewrite (sum_split_key (fun k' => Sqlite.count_key k' keys) k
             (Sqlite.distinct keys) (distinct_nodup keys)).
  destruct (existsb (Sqlite.key_eqb k) (Sqlite.distinct keys)) eqn:Hk;
    [lia |].
  rewrite (count_key_absent k keys); [lia |].
  intros Hin. apply distinct_in in Hin.
  assert (H : existsb (Sqlite.key_eqb k) (Sqlite.distinct keys) = true).
  { apply existsb_exists. exists k. split; [exact Hin | apply key_eqb_refl]. }
  congruence.
Qed.

Lemma sum_map_perm {A : Type} (f : A -> Z) (l l' : list A) :
  Permutation l l' ->
  fold_right Z.add 0 (map f l) = fold_right Z.add 0 (map f l').
Proof. induction 1; cbn [map fold_right]; lia. Qed.

Lemma counts_total_group_count (keys : list text) :
  counts_total (Sqlite.group_count keys) = Z.of_nat (List.length keys).
Proof.
  unfold counts_total, Sqlite.group_count. rewrite map_map. cbn [snd].
  rewrite <- sum_counts_distinct.
  apply sum_map_perm. apply sort_by_perm.
Qed.


Lemma get_statistics_value (strftime_Ym : text -> text)
    (round_float : Q -> Q) (d : database) :
  exists s,
    get_statistics strftime_Ym round_float (Tables d) = Ret (Some s)
    /\ total_applications s = Z.of_nat (List.length (job_applications d))
    /\ status_counts s
       = Sqlite.group_count (map AppTable.status (job_applications d))
    /\ total_interviews s = Z.of_nat (List.length (interviews d)).
Proof.
  pose proof (sql_statistics_value strftime_Ym round_float d) as Hstats.
  cbv zeta in Hstats. unfold get_statistics.
  cbv beta iota delta [connect tables bind try_except].
  rewrite Hstats. cbv beta iota.
  eexists. split; [reflexivity |].
  cbn [total_applications status_counts total_interviews].
  repeat split.
Qed.

(** X9: [get_statistics] on a readable store: [total_interviews] is the
    number of stored interviews; [status_counts] has one entry for each
    status that occurs (NULL too), no status twice, with the number of
    applications of that status, which is positive; and the counts add
    up to [total_applications]. *)
Theorem get_statistics_status_counts (strftime_Ym : text -> text)
    (round_float : Q -> Q) (d : database) :
  let statuses := map AppTable.status (job_applications d) in
  exists s,
    get_statistics strftime_Ym round_float (Tables d) = Ret (Some s)
    /\ total_interviews s = Z.of_nat (List.length (interviews d))
    /\ NoDup (map fst (status_counts s))
    /\ (forall k n, In (k, n) (status_counts s) <->
                    In k statuses /\ n = Sqlite.count_key k statuses)
    /\ (forall k n, In (k, n) (status_counts s) -> 0 < n)
    /\ counts_total (status_counts s) = total_applications s.
Proof.
  intros statuses.
  destruct (get_statistics_value strftime_Ym round_float d)
    as (s & Hs & Htotal & Hcounts & Hinterviews).
  exists s. split; [exact Hs |]. split; [exact Hinterviews |].
  rewrite Hcounts, Htotal. fold statuses.
  split; [apply group_count_nodup |].
  split; [apply group_count_in |]. split.
  - intros k n Hin. apply group_count_in in Hin. destruct Hin as [Hin ->].
    unfold Sqlite.count_key.
    destruct (filter (Sqlite.key_eqb k) statuses) as [| x l] eqn:Hfilter.
    + exfalso.
      assert (Hk : In k (filter (Sqlite.key_eqb k) statuses)).
      { apply filter_In. split; [exact Hin | apply key_eqb_refl]. }
      rewrite Hfilter in Hk. destruct Hk.
    + cbn [List.length]. lia.
  - rewrite counts_total_group_count. unfold statuses.
    rewrite length_map. reflexivity.
Qed.

(** Of three applications two are applied and one is rejected. *)
Lemma get_statistics_status_counts_witness :
  exists s,
    get_statistics year_month nearest_hundredth three_applications_store
    = Ret (Some s)
    /\ status_counts s = [(Some "applied", 2); (Some "rejected", 1)]
    /\ counts_total (status_counts s) = total_applications s.
Proof.
  destruct (get_statistics_status_counts year_month nearest_hundredth
              (database_of three_applications_store))
    as (s & Hs & _ & _ & _ & _ & Htotal).
  exists s. split; [exact Hs |]. split; [| exact Htotal].
  vm_compute in Hs. injection Hs as <-. reflexivity.
Defined.

Lemma filter_length_le {A : Type} (f g : A -> bool) (l : list A) :
  (forall x, f x = true -> g x = true) ->
  (List.length (filter f l) <= List.length (filter g l))%nat.
Proof.
  intros Himpl. induction l as [| x l IH]; [apply le_n |].
  cbn [filter]. destruct (f x) eqn:Hf.
  - rewrite (Himpl x Hf). cbn [List.length]. lia.
  - destruct (g x); cbn [List.length]; lia.
Qed.

(** X10: the metric Active Applications of the dashboard is the number
    of stored applications whose status is [applied] or [under_review];
    [get_follow_up_reminders] never returns more applications than
    that; and the metric is 0 when the store cannot be read. *)
Theorem active_apps_counts (strftime_Ym : text -> text)
    (round_float : Q -> Q) (today days_ahead : Z) (d : database) :
  dashboard_active_apps strftime_Ym round_float (Tables d)
  = Ret (Z.of_nat (List.length (filter active_status (job_applications d))))
  /\ (exists l, get_follow_up_reminders today days_ahead (Tables d) = Ret l
                /\ Z.of_nat (List.length l)
                   <= Z.of_nat
                        (List.length
                           (filter active_status (job_applications d))))
  /\ (forall e, dashboard_active_apps strftime_Ym round_float (Unreachable e)
                = Ret 0).
Proof.
  destruct (get_statistics_value strftime_Ym round_float d)
    as (s & Hs & _ & Hcounts & _).
  unfold dashboard_active_apps. rewrite Hs. cbn [bind].
  assert (Hactive :
    active_apps (Some s)
    = Z.of_nat (List.length (filter active_status (job_applications d)))).
  { unfold active_apps. rewrite Hcounts.
    rewrite !counts_get_group_count, !count_key_map.
    unfold active_status. rewrite filter_or_length.
    - rewrite Nat2Z.inj_add.
      rewrite (filter_ext _ _ (fun r => key_eqb_eq_where "applied"
                                          (AppTable.status r))).
      rewrite (filter_ext _ _ (fun r => key_eqb_eq_where "under_review"
                                          (AppTable.status r))).
      reflexivity.
    - intros r H1 H2. apply eq_where_eq in H1. apply eq_where_eq in H2.
      congruence. }
  split; [rewrite Hactive; reflexivity |]. split.
  - rewrite get_follow_up_reminders_value. eexists. split; [reflexivity |].
    rewrite length_map. unfold sql_select_follow_ups.
    rewrite (Permutation_length (order_by_asc_perm _ _)).
    apply inj_le. apply filter_length_le.
    intros r Hdue. unfold needs_follow_up in Hdue.
    destruct (AppTable.follow_up_date r); [| discriminate].
    apply andb_true_iff in Hdue. apply Hdue.
  - intros e. reflexivity.
Qed.

(** Two of the three applications are active. *)
Lemma active_apps_counts_witness :
  dashboard_active_apps year_month nearest_hundredth three_applications_store
  = Ret 2.
Proof.
  destruct (active_apps_counts year_month nearest_hundredth 19737 7
              (database_of three_applications_store)) as (Hactive & _ & _).
  exact Hactive.
Defined.

(** ** The most recent applications *)


Lemma get_applications_by_status_value (status : text) (limit : Z)
    (d : database) :
  Sqlite.MIN_ROWID <= limit <= Sqlite.MAX_ROWID ->
  get_applications status None limit (Tables d)
  = Ret (map _row_to_application
           (Sqlite.limit limit
              (Sqlite.order_by_desc AppTable.application_date
                 (filter (has_status status) (job_applications d))))).
Proof.
  intros Hrange. unfold get_applications, sql_select_applications.
  cbv beta iota delta [connect tables bind try_except].
  rewrite (bind_int_fits limit Hrange). cbv beta iota zeta.
  cbn [truthy_str]. unfold has_status.
  destruct (truthy_str status); [reflexivity |].
  rewrite (filter_all (fun _ => true)) by reflexivity. reflexivity.
Qed.

(** X11: [get_applications] without a company filter, with a limit that
    fits 64 bits, returns the most recent applications: a stored
    application that passes the status filter and is not returned has
    an [application_date] that is not after that of any returned
    application, in the order of the query (bytewise, NULL before
    every text); with a negative limit, or a limit that the number of
    applications passing the filter does not exceed, all of them are
    returned. *)
Theorem get_applications_most_recent (status : text) (limit : Z)
    (d : database) :
  Sqlite.MIN_ROWID <= limit <= Sqlite.MAX_ROWID ->
  exists l,
    get_applications status None limit (Tables d) = Ret l
    /\ (forall r, In r (job_applications d) -> has_status status r = true ->
          ~ In (_row_to_application r) l ->
          forall a, In a l ->
            Sqlite.order_leb (AppTable.application_date r)
              (JobApp.application_date a) = true)
    /\ (limit < 0
        \/ Z.of_nat (List.length (filter (has_status status)
                                    (job_applications d))) <= limit ->
        forall r, In r (job_applications d) -> has_status status r = true ->
          In (_row_to_application r) l).
Proof.
  intros Hrange. rewrite (get_applications_by_status_value _ _ _ Hrange).
  eexists. split; [reflexivity |]. split.
  - intros r Hr Hstatus Hout a Ha.
    apply in_map_iff in Ha. destruct Ha as (y & <- & Hy).
    cbn [_row_to_application JobApp.application_date].
    unfold Sqlite.order_by_desc in *.
    apply (limit_sort_by_top
             (fun x y => Sqlite.order_leb (AppTable.application_date y)
                           (AppTable.application_date x))
             limit (filter (has_status status) (job_applications d)) r y).
    + intros x z. apply order_leb_total.
    + intros x z w Hxz Hzw. apply (order_leb_trans _ _ _ Hzw Hxz).
    + apply filter_In. split; assumption.
    + intros Hin. apply Hout. apply in_map. exact Hin.
    + exact Hy.
  - intros Hall r Hr Hstatus. apply in_map.
    rewrite limit_all.
    + apply (Permutation_in _ (Permutation_sym (order_by_desc_perm _ _))).
      apply filter_In. split; assumption.
    + rewrite (Permutation_length (order_by_desc_perm _ _)). exact Hall.
Qed.

(** With the limit 1 the later of the two applied applications is
    returned. *)
Lemma get_applications_most_recent_witness :
  exists l,
    get_applications (Some "applied") None 1
      (Tables (database_of three_applications_store)) = Ret l
    /\ map JobApp.application_date l = [Some "2024-02-03"]
    /\ forall r, In r (job_applications (database_of three_applications_store))
         -> has_status (Some "applied") r = true ->
         ~ In (_row_to_application r) l ->
         forall a, In a l ->
           Sqlite.order_leb (AppTable.application_date r)
             (JobApp.application_date a) = true.
Proof.
  destruct (get_applications_most_recent (Some "applied") 1
              (database_of three_applications_store))
    as (l & Hl & Hrecent & _).
  - vm_compute. split; discriminate.
  - exists l. split; [exact Hl |]. split; [| exact Hrecent].
    vm_compute in Hl. injection Hl as <-. reflexivity.
Defined.

(** ** A new application and the reminders *)

Lemma _row_to_application_inj (r1 r2 : AppTable.row) :
  _row_to_application r1 = _row_to_application r2 -> r1 = r2.
Proof.
  destruct r1, r2. unfold _row_to_application.
  cbn [AppTable.id AppTable.company AppTable.position AppTable.location
       AppTable.job_url AppTable.job_description AppTable.application_date
       AppTable.status AppTable.priority AppTable.salary_range AppTable.notes
       AppTable.recruiter_name AppTable.recruiter_email
       AppTable.follow_up_date AppTable.interview_date
       AppTable.interview_type AppTable.interview_notes
       AppTable.rejection_reason AppTable.offer_amount AppTable.created_at
       AppTable.updated_at].
  intros H. injection H. intros. subst. reflexivity.
Qed.

Lemma add_application_inv (now : string) (application : JobApp.JobApplication)
    (d : database) (i : Z) (f' : db_file) :
  add_application now application (Tables d) = (Ret i, f') ->
  exists d',
    f' = Tables d'
    /\ Sqlite.new_rowid (map AppTable.id (job_applications d))
         (seq_job_applications d) = Ret i
    /\ job_applications d'
       = (job_applications d ++ [application_row i now application])%list
    /\ interviews d' = interviews d
    /\ seq_job_applications d' = i
    /\ seq_interviews d' = seq_interviews d.
Proof.
  unfold add_application.
  cbv beta iota delta [connect tables bind commit].
  destruct (sql_insert_application now application d) as [[d' j] | e] eqn:Hins;
    intros H; [| discriminate].
  injection H as -> <-. exists d'. split; [reflexivity |].
  apply sql_insert_application_inv. exact Hins.
Qed.

Lemma string_leb_empty (s : string) : ("" <=? s)%string = true.
Proof. destruct s; reflexivity. Qed.

(** X12: add, then ask for the reminders (the first half of the
    scenario).  After a successful [add_application],
    [get_follow_up_reminders] with a number of days that is not
    negative, and a day within SQLite's dates, returns the new
    application exactly when its status is [applied] or [under_review]
    and its [follow_up_date] is, as a text, on or before the date of
    [today + days_ahead].  So an application with such a status and the
    empty [follow_up_date] of the defaults of the dataclass is always
    returned, and one whose [follow_up_date] is [None] never. *)
Theorem add_application_then_reminders (now : string)
    (application : JobApp.JobApplication) (d : database) (i : Z)
    (f' : db_file) (today days_ahead : Z) :
  add_application now application (Tables d) = (Ret i, f') ->
  0 <= days_ahead ->
  Sqlite.FIRST_DAY <= today + days_ahead <= Sqlite.LAST_DAY ->
  exists l,
    get_follow_up_reminders today days_ahead f' = Ret l
    /\ (In (_row_to_application (application_row i now application)) l <->
        due_on_or_before today days_ahead
          (application_row i now application) = true)
    /\ (active_status (application_row i now application) = true ->
        JobApp.follow_up_date application = Some "" ->
        In (_row_to_application (application_row i now application)) l)
    /\ (JobApp.follow_up_date application = None ->
        ~ In (_row_to_application (application_row i now application)) l).
Proof.
  intros Hadd Hdays Hrange.
  destruct (add_application_inv _ _ _ _ _ Hadd)
    as (d' & -> & _ & Hrows & _ & _ & _).
  rewrite get_follow_up_reminders_value. eexists. split; [reflexivity |].
  set (row := application_row i now application).
  assert (Hin : In (_row_to_application row)
                  (map _row_to_application
                     (sql_select_follow_ups today days_ahead d'))
                <-> due_on_or_before today days_ahead row = true).
  { rewrite <- needs_follow_up_due.
    rewrite <- (date_now_plus_days_in_range today days_ahead Hdays Hrange).
    split.
    - intros H. apply in_map_iff in H. destruct H as (r & Heq & Hr).
      apply _row_to_application_inj in Heq. subst r.
      apply sql_select_follow_ups_in in Hr. apply Hr.
    - intros Hdue. apply in_map. apply sql_select_follow_ups_in.
      split; [| exact Hdue]. rewrite Hrows. apply in_or_app.
      right. left. reflexivity. }
  split; [exact Hin |]. split.
  - intros Hactive Hblank. apply Hin. unfold due_on_or_before.
    fold (active_status row). rewrite Hactive.
    unfold row. cbn [application_row AppTable.follow_up_date].
    rewrite Hblank. cbn [Sqlite.le_where andb]. apply string_leb_empty.
  - intros Hnull H. apply Hin in H. unfold due_on_or_before in H.
    unfold row in H. cbn [application_row AppTable.follow_up_date] in H.
    rewrite Hnull in H. cbn [Sqlite.le_where] in H.
    rewrite andb_false_r in H. discriminate.
Qed.

(** An application with the defaults of the dataclass is due at once. *)
Lemma add_application_then_reminders_witness :
  exists l,
    get_follow_up_reminders 19737 7
      (snd (add_application "2024-01-15T09:00:00" default_application
              new_store)) = Ret l
    /\ In (_row_to_application
             (application_row 1 "2024-01-15T09:00:00" default_application)) l.
Proof.
  destruct (add_application_then_reminders "2024-01-15T09:00:00"
              default_application empty_database 1
              (snd (add_application "2024-01-15T09:00:00" default_application
                      new_store)) 19737 7)
    as (l & Hl & _ & Hblank & _).
  - reflexivity.
  - discriminate.
  - vm_compute. split; discriminate.
  - exists l. split; [exact Hl |]. apply Hblank; reflexivity.
Defined.

(** ** Initialising *)

(** X1: [init_database] ([CREATE TABLE IF NOT EXISTS]) leaves a file that
    holds the tables as it is, so that a second call changes nothing; on
    a new file it creates the two tables without rows.  On the store of
    a new tracker every read returns its empty result
    ([get_applications], [get_interviews] and [get_follow_up_reminders]
    the empty list, [get_application] [None], [get_statistics] the
    counts 0, no groups and the integer rate 0), and the first
    application that has a company and a position gets the identifier
    1. *)
Theorem init_database_keeps_tables (strftime_Ym : text -> text)
    (round_float : Q -> Q) :
  (forall d, init_database (Tables d) = (Ret tt, Tables d))
  /\ (forall f, init_database (snd (init_database f)) = init_database f)
  /\ init_database Fresh = (Ret tt, Tables empty_database)
  /\ (forall status company limit,
        get_applications status company limit new_store = Ret [])
  /\ (forall i, get_application i new_store = Ret None)
  /\ (forall a, get_interviews a new_store = Ret [])
  /\ (forall today days_ahead,
        get_follow_up_reminders today days_ahead new_store = Ret [])
  /\ get_statistics strftime_Ym round_float new_store
     = Ret (Some {| total_applications := 0; status_counts := [];
                    company_counts := []; monthly_counts := [];
                    total_interviews := 0; response_rate := Int 0 |})
  /\ (forall now application c p,
        JobApp.company application = Some c ->
        JobApp.position application = Some p ->
        add_application now application new_store
        = (Ret 1,
           Tables {| job_applications := [application_row 1 now application];
                     interviews := [];
                     seq_job_applications := 1;
                     seq_interviews := 0 |})).
Proof.
  split; [reflexivity |]. split; [intros [e | | d]; reflexivity |].
  split; [reflexivity |]. split.
  { intros status company limit.
    unfold new_store, get_applications, sql_select_applications.
    cbn [init_database commit connect bind snd tables try_except
         empty_database job_applications].
    destruct (Sqlite.bind_int limit) as [n | e]; [| reflexivity].
    assert (Hnone : Sqlite.limit n
                      (Sqlite.order_by_desc AppTable.application_date [])
                    = []).
    { unfold Sqlite.limit. destruct (n <? 0); [reflexivity |].
      apply firstn_nil. }
    destruct (truthy_str status), (truthy_str company);
      cbn [bind filter sql_like_company try_except]; rewrite Hnone;
      reflexivity. }
  split.
  { intros i. unfold new_store, get_application.
    cbn [init_database commit connect bind snd tables try_except
         empty_database job_applications].
    destruct (Sqlite.bind_int i); reflexivity. }
  split.
  { intros [a |]; [| reflexivity].
    unfold new_store, get_interviews.
    cbn [init_database commit connect bind snd tables try_except
         empty_database interviews].
    destruct (truthy_int (Some a)); [| reflexivity].
    destruct (Sqlite.bind_int a); reflexivity. }
  split; [reflexivity |]. split; [reflexivity |].
  intros now application c p Hc Hp.
  unfold new_store, add_application, sql_insert_application.
  cbn [init_database commit connect bind snd tables].
  rewrite Hc, Hp. reflexivity.
Qed.

(** The first application of the examples gets the identifier 1. *)
Lemma init_database_keeps_tables_witness :
  fst (add_application "2024-01-15T09:00:00"
         (application "Google" "applied" "2024-01-15" "2024-01-22") new_store)
  = Ret 1.
Proof.
  destruct (init_database_keeps_tables year_month nearest_hundredth)
    as (_ & _ & _ & _ & _ & _ & _ & _ & Hfirst).
  rewrite (Hfirst "2024-01-15T09:00:00"
             (application "Google" "applied" "2024-01-15" "2024-01-22")
             "Google" "Data Engineer" eq_refl eq_refl).
  reflexivity.
Defined.


(** ** What the agent does with the reminders *)

Lemma update_application_cases (integer_of_text : string -> option Z)
    (stamp : string) (application_id : Z) (updates : dict) (d : database) :
  update_application integer_of_text stamp application_id updates (Tables d)
  = (Ret false, Tables d)
  \/ exists d',
       update_application integer_of_text stamp application_id updates
         (Tables d) = (Ret true, Tables d').
Proof.
  unfold update_application.
  cbv beta iota delta [connect tables bind commit].
  destruct (sql_update integer_of_text
              (dict_set "updated_at" (PStr stamp) updates) application_id d)
    as [[d' n] | e] eqn:Hupd; cbn [fst snd]; [| left; reflexivity].
  destruct (0 <? n) eqn:Hn; [right; exists d'; reflexivity |].
  left. apply Z.ltb_ge in Hn.
  apply sql_update_inv in Hupd.
  destruct Hupd as (l & l' & rows & _ & _ & _ & Hrows & ->).
  assert (Hzero : n = 0).
  { apply update_where_rows in Hrows. destruct Hrows as [_ Hlen]. lia. }
  subst n. apply update_where_none in Hrows. subst rows.
  rewrite with_job_applications_same. reflexivity.
Qed.


Lemma Forall2_trans {A : Type} (R : A -> A -> Prop) (l1 l2 l3 : list A) :
  (forall x y z, R x y -> R y z -> R x z) ->
  Forall2 R l1 l2 -> Forall2 R l2 l3 -> Forall2 R l1 l3.
Proof.
  intros Htrans H12. revert l3.
  induction H12 as [| x y l1 l2 Hxy _ IH]; intros l3 H23;
    inversion H23; subst; constructor.
  - eapply Htrans; eassumption.
  - apply IH. assumption.
Qed.

Lemma update_by_id_rows (integer_of_text : string -> option Z)
    (stamp : string) (id : option Z) (updates : dict) (d : database) :
  field_mapping updates -> ~ In "id" (map fst updates) ->
  exists d',
    snd (update_by_id integer_of_text stamp id updates (Tables d)) = Tables d'
    /\ interviews d' = interviews d
    /\ Forall2
         (fun r r' =>
            AppTable.id r' = AppTable.id r
            /\ (r' = r
                \/ (id = Some (AppTable.id r)
                    /\ updated_row stamp (AppTable.id r) updates r r')))
         (job_applications d) (job_applications d').
Proof.
  intros Hfields Hnoid.
  assert (Hsame :
    Forall2
      (fun r r' =>
         AppTable.id r' = AppTable.id r
         /\ (r' = r
             \/ (id = Some (AppTable.id r)
                 /\ updated_row stamp (AppTable.id r) updates r r')))
      (job_applications d) (job_applications d)).
  { apply Forall2_same. intros r. split; [reflexivity | left; reflexivity]. }
  destruct id as [i |]; cbn [update_by_id];
    [| exists d; split; [reflexivity | split; [reflexivity | exact Hsame]]].
  destruct (update_application_cases integer_of_text stamp i updates d)
    as [Hfalse | [d' Htrue]].
  - rewrite Hfalse. exists d.
    split; [reflexivity | split; [reflexivity | exact Hsame]].
  - rewrite Htrue. exists d'. split; [reflexivity |].
    destruct (update_application_rows integer_of_text stamp i updates d
                (Tables d') Hfields Hnoid Htrue)
      as (d1 & Heq & Hintv & _ & _ & _ & Hrows).
    injection Heq as <-. split; [exact Hintv |].
    eapply Forall2_impl; [| exact Hrows].
    intros r r' Hr. pose proof Hr as (Hid & Hother & _).
    split; [exact Hid |].
    destruct (Z.eq_dec (AppTable.id r) i) as [Heq | Hne];
      [| left; apply Hother; exact Hne].
    right. subst i. split; [reflexivity | exact Hr].
Qed.

Lemma kept_due_trans (deadline : text) (x y z : AppTable.row) :
  kept_due deadline x y -> kept_due deadline y z -> kept_due deadline x z.
Proof.
  intros [Hxy1 Hxy2] [Hyz1 Hyz2]. split; [congruence | tauto].
Qed.

Lemma kept_due_filter (deadline : text) (rows rows' : list AppTable.row) :
  Forall2 (kept_due deadline) rows rows' ->
  (List.length (filter (needs_follow_up deadline) rows)
   <= List.length (filter (needs_follow_up deadline) rows'))%nat.
Proof.
  induction 1 as [| r r' rows rows' [_ Hdue] _ IH]; [apply le_n |].
  cbn [filter]. destruct (needs_follow_up deadline r).
  - rewrite (Hdue eq_refl). cbn [List.length]. lia.
  - destruct (needs_follow_up deadline r'); cbn [List.length]; lia.
Qed.

Lemma follow_up_update_rows (integer_of_text : string -> option Z)
    (deadline : text) (stamp next note : string)
    (id : option Z) (d : database) :
  Sqlite.le_where (Some next) deadline = true ->
  exists d',
    snd (update_by_id integer_of_text stamp id
           [("follow_up_date", PStr next); ("notes", PStr note)] (Tables d))
    = Tables d'
    /\ interviews d' = interviews d
    /\ Forall2 (kept_due deadline) (job_applications d) (job_applications d').
Proof.
  intros Hnext.
  destruct (update_by_id_rows integer_of_text stamp id
              [("follow_up_date", PStr next); ("notes", PStr note)] d)
    as (d' & Hstep & Hintv & Hrows).
  - split.
    + repeat constructor; cbn [In]; intuition discriminate.
    + repeat constructor; unfold field_names; cbn [map fst
        AppTable.column_names In]; tauto.
  - cbn [map fst In]. intuition discriminate.
  - exists d'. split; [exact Hstep |]. split; [exact Hintv |].
    eapply Forall2_impl; [| exact Hrows].
    intros r r' [Hid [-> | (_ & _ & _ & Hnew)]];
      [split; [reflexivity | tauto] |].
    split; [exact Hid |].
    destruct (Hnew eq_refl) as [Hvalues Hframe].
    assert (Hdate : AppTable.follow_up_date r' = Some next).
    { apply (Hvalues "follow_up_date" (PStr next) AppTable.c_follow_up_date);
        [left; reflexivity | reflexivity]. }
    assert (Hstatus : AppTable.status r' = AppTable.status r).
    { apply (Hframe AppTable.c_status).
      intros (key & Hkey & Hres).
      cbn [dict_set String.eqb map fst In] in Hkey.
      destruct Hkey as [<- | [<- | [<- | []]]];
        vm_compute in Hres; discriminate. }
    unfold needs_follow_up. rewrite Hdate, Hstatus, Hnext.
    destruct (AppTable.follow_up_date r); [| discriminate].
    intros Hdue. apply andb_true_iff in Hdue. destruct Hdue as [_ Hdue].
    rewrite Hdue. reflexivity.
Qed.

Section FollowUps.

Variable integer_of_text : string -> option Z.
Variable strftime_Ymd : Z -> string.
Variable now : nat -> nat -> reading.
Variable message : nat -> caller_exn + string.

Lemma process_follow_ups_from_rows (deadline : text) (today : Z)
    (apps : list JobApp.JobApplication) :
  today + 7 <= Sqlite.LAST_DAY ->
  (forall k, local_day (now k 0%nat) = today) ->
  Sqlite.le_where (Some (strftime_Ymd (today + 7))) deadline = true ->
  forall (k : nat) (d : database) (res : results),
  exists d' res' failed,
    process_follow_ups_from integer_of_text strftime_Ymd now message k apps
      (Tables d) res = (Tables d', res')
    /\ interviews d' = interviews d
    /\ Forall2 (kept_due deadline) (job_applications d) (job_applications d')
    /\ errors res' = (errors res ++ failed)%list
    /\ follow_ups_sent res' + Z.of_nat (List.length failed)
       = follow_ups_sent res + Z.of_nat (List.length apps)
    /\ ((forall j, exists text, message j = inr text) -> failed = []).
Proof.
  intros Hlast Hclock Hnext.
  induction apps as [| app apps IH]; intros k d res.
  - exists d, res, []. split; [reflexivity |]. split; [reflexivity |]. split.
    + apply Forall2_same. intros r. split; [reflexivity | tauto].
    + rewrite app_nil_r. cbn [List.length].
      split; [reflexivity |]. split; [lia | reflexivity].
  - cbn [process_follow_ups_from]. unfold process_follow_up.
    destruct (message k) as [e | text] eqn:Hmessage.
    + destruct (IH (S k) d (append_error e res))
        as (d' & res' & failed & Hrun & Hintv & Hrows & Herrors & Hsent
            & Hnone).
      exists d', res', (e :: failed). split; [exact Hrun |].
      split; [exact Hintv |]. split; [exact Hrows |]. split.
      { rewrite Herrors. cbn [append_error errors].
        rewrite <- app_assoc. reflexivity. }
      split.
      { cbn [append_error follow_ups_sent] in Hsent.
        cbn [List.length]. rewrite !Nat2Z.inj_succ. lia. }
      intros Hall. destruct (Hall k) as [text Htext]. congruence.
    + unfold strftime_plus_days. rewrite Hclock.
      assert (Hfits : (today + 7 <=? Sqlite.LAST_DAY) = true)
        by (apply Z.leb_le; exact Hlast).
      rewrite Hfits.
      destruct (follow_up_update_rows integer_of_text deadline
                  (isoformat (now k 1%nat)) (strftime_Ymd (today + 7))
                  ("Follow-up sent: " ++ slice_to 100 text ++ "...")
                  (JobApp.id app) d Hnext)
        as (d1 & Hstep & Hintv1 & Hrows1).
      rewrite Hstep.
      destruct (IH (S k) d1 (count_follow_up res))
        as (d' & res' & failed & Hrun & Hintv & Hrows & Herrors & Hsent
            & Hnone).
      exists d', res', failed. split; [exact Hrun |].
      split; [congruence |]. split.
      { apply (Forall2_trans _ _ _ _ (kept_due_trans deadline) Hrows1 Hrows). }
      split; [exact Herrors |]. split; [| exact Hnone].
      cbn [count_follow_up follow_ups_sent] in Hsent.
      cbn [List.length]. rewrite Nat2Z.inj_succ. lia.
Qed.

(** X13: [_process_follow_ups] of the agent ends no reminder.  Let the
    clock of the process show the UTC day [today], and let [strftime]
    write the date seven days later as SQLite does ([YYYY-MM-DD]).  The
    run asks for the reminders of the next seven days and sets the
    [follow_up_date] of each to the date seven days from now, which is
    within the same seven days: every application that was returned
    before the run is returned after it, and the reminders have not
    become fewer.  Each application of the reminders counts in
    [follow_ups_sent], whether or not the update changed a row, or, when
    the generation of its message raised, adds an entry to [errors];
    the interviews stay as they are. *)
Theorem follow_ups_stay_due (today : Z) (d : database) (res : results) :
  Sqlite.FIRST_DAY <= today + 7 <= Sqlite.LAST_DAY ->
  (forall k, local_day (now k 0%nat) = today) ->
  strftime_Ymd (today + 7)
  = Sqlite.iso_date (Sqlite.civil_from_days (today + 7)) ->
  exists before d' res' failed after,
    get_follow_up_reminders today default_days_ahead (Tables d) = Ret before
    /\ _process_follow_ups integer_of_text strftime_Ymd now message today
         (Tables d) res = (Tables d', res')
    /\ get_follow_up_reminders today default_days_ahead (Tables d')
       = Ret after
    /\ errors res' = (errors res ++ failed)%list
    /\ follow_ups_sent res' + Z.of_nat (List.length failed)
       = follow_ups_sent res + Z.of_nat (List.length before)
    /\ ((forall k, exists text, message k = inr text) -> failed = [])
    /\ interviews d' = interviews d
    /\ (List.length before <= List.length after)%nat
    /\ (forall a, In a before ->
          exists a', In a' after /\ JobApp.id a' = JobApp.id a).
Proof.
  intros Hrange Hclock Hformat.
  set (deadline := Sqlite.date_now_plus_days today default_days_ahead).
  assert (Hdeadline :
    deadline = Some (Sqlite.iso_date (Sqlite.civil_from_days (today + 7)))).
  { apply (date_now_plus_days_in_range today 7); [lia | exact Hrange]. }
  assert (Hnext :
    Sqlite.le_where (Some (strftime_Ymd (today + 7))) deadline = true).
  { rewrite Hdeadline, Hformat. cbn [Sqlite.le_where].
    apply string_leb_refl. }
  unfold _process_follow_ups. rewrite !get_follow_up_reminders_value.
  destruct (process_follow_ups_from_rows deadline today
              (map _row_to_application
                 (sql_select_follow_ups today default_days_ahead d))
              (proj2 Hrange) Hclock Hnext 0%nat d res)
    as (d' & res' & failed & Hrun & Hintv & Hrows & Herrors & Hsent & Hnone).
  eexists. exists d', res', failed. eexists.
  split; [reflexivity |]. split; [exact Hrun |].
  rewrite get_follow_up_reminders_value.
  split; [reflexivity |]. split; [exact Herrors |].
  split; [exact Hsent |]. split; [exact Hnone |].
  split; [exact Hintv |]. split.
  - rewrite !length_map. unfold sql_select_follow_ups.
    rewrite !(Permutation_length (order_by_asc_perm _ _)).
    apply kept_due_filter. exact Hrows.
  - intros a Ha. apply in_map_iff in Ha. destruct Ha as (r & <- & Hr).
    apply sql_select_follow_ups_in in Hr. destruct Hr as [Hr Hdue].
    destruct (Forall2_in_left _ _ _ r Hrows Hr) as (r' & Hr' & Hid & Hkept).
    exists (_row_to_application r'). split.
    + apply in_map. apply sql_select_follow_ups_in.
      split; [exact Hr' | apply Hkept; exact Hdue].
    + cbn [_row_to_application JobApp.id]. rewrite Hid. reflexivity.
Qed.

End FollowUps.

(** The application of the examples is due before the run and after
    it. *)
Lemma follow_ups_stay_due_witness :
  exists before d' res' after,
    get_follow_up_reminders 19737 default_days_ahead
      (Tables (database_of one_application_store)) = Ret before
    /\ _process_follow_ups decimal_integer example_strftime example_clock
         example_message 19737 (Tables (database_of one_application_store))
         no_results = (Tables d', res')
    /\ get_follow_up_reminders 19737 default_days_ahead (Tables d')
       = Ret after
    /\ map JobApp.follow_up_date before = [Some "2024-01-22"]
    /\ follow_ups_sent res' = 1
    /\ (List.length before <= List.length after)%nat.
Proof.
  destruct (follow_ups_stay_due decimal_integer example_strftime
              example_clock example_message 19737
              (database_of one_application_store) no_results)
    as (before & d' & res' & failed & after & Hbefore & Hrun & Hafter
        & _ & Hsent & Hnone & _ & Hlen & _).
  - vm_compute. split; discriminate.
  - reflexivity.
  - reflexivity.
  - exists before, d', res', after.
    split; [exact Hbefore |]. split; [exact Hrun |].
    split; [exact Hafter |]. split; [| split; [| exact Hlen]].
    + vm_compute in Hbefore. injection Hbefore as <-. reflexivity.
    + rewrite Hnone in Hsent.
      * vm_compute in Hbefore. injection Hbefore as <-.
        cbn [List.length no_results follow_ups_sent] in Hsent. lia.
      * intros k. eexists. reflexivity.
Defined.

(** ** What the agent does with the applications that are a week old *)

Lemma Forall2_impl_in {A B : Type} (R R' : A -> B -> Prop) (l : list A)
    (l' : list B) :
  Forall2 R l l' -> (forall x y, In x l -> R x y -> R' x y) ->
  Forall2 R' l l'.
Proof.
  induction 1 as [| x y l l' Hxy _ IH]; intros Himpl; constructor.
  - apply Himpl; [left; reflexivity | exact Hxy].
  - apply IH. intros a b Ha. apply Himpl. right. exact Ha.
Qed.

Section Statuses.

Variable integer_of_text : string -> option Z.
Variable strftime_Ymd : Z -> string.
Variable strptime_Ymd : string -> option Z.
Variable now : nat -> nat -> reading.



Lemma moved_to_review_refl (apps : list JobApp.JobApplication)
    (r : AppTable.row) : moved_to_review strftime_Ymd strptime_Ymd now apps r r.
Proof. split; [reflexivity | left; reflexivity]. Qed.

Lemma moved_to_review_trans (apps : list JobApp.JobApplication)
    (x y z : AppTable.row) :
  moved_to_review strftime_Ymd strptime_Ymd now apps x y -> moved_to_review strftime_Ymd strptime_Ymd now apps y z ->
  moved_to_review strftime_Ymd strptime_Ymd now apps x z.
Proof.
  intros [Hid1 H1] [Hid2 H2]. split; [congruence |].
  destruct H2 as [-> | (Hstatus & Hkept & app & k & s & day & Hin & Hid
                        & Hdate & Hday & Hage & Hnext)]; [exact H1 |].
  right. split; [exact Hstatus |]. split.
  - destruct H1 as [-> | (_ & Hkept1 & _)]; [exact Hkept |].
    intros c H1 H2 H3. rewrite (Hkept c H1 H2 H3). apply Hkept1; assumption.
  - exists app, k, s, day. rewrite <- Hid1. repeat split; assumption.
Qed.

Lemma status_update_rows (stamp next : string) (id : option Z)
    (d : database) :
  exists d',
    snd (update_by_id integer_of_text stamp id
           [("status", PStr "under_review"); ("follow_up_date", PStr next)]
           (Tables d))
    = Tables d'
    /\ interviews d' = interviews d
    /\ Forall2
         (fun r r' =>
            AppTable.id r' = AppTable.id r
            /\ (r' = r
                \/ (id = Some (AppTable.id r)
                    /\ AppTable.status r' = Some "under_review"
                    /\ AppTable.follow_up_date r' = Some next
                    /\ other_columns_kept r r')))
         (job_applications d) (job_applications d').
Proof.
  destruct (update_by_id_rows integer_of_text stamp id
              [("status", PStr "under_review"); ("follow_up_date", PStr next)]
              d)
    as (d' & Hstep & Hintv & Hrows).
  - split.
    + repeat constructor; cbn [In]; intuition discriminate.
    + repeat constructor; unfold field_names; cbn [map fst
        AppTable.column_names In]; tauto.
  - cbn [map fst In]. intuition discriminate.
  - exists d'. split; [exact Hstep |]. split; [exact Hintv |].
    eapply Forall2_impl; [| exact Hrows].
    intros r r' [Hid [-> | (Happ & _ & _ & Hnew)]];
      [split; [reflexivity | left; reflexivity] |].
    split; [exact Hid |]. right.
    destruct (Hnew eq_refl) as [Hvalues Hframe].
    split; [exact Happ |]. split; [| split].
    + apply (Hvalues "status" (PStr "under_review") AppTable.c_status);
        [left; reflexivity | reflexivity].
    + apply (Hvalues "follow_up_date" (PStr next) AppTable.c_follow_up_date);
        [right; left; reflexivity | reflexivity].
    + intros c H1 H2 H3. apply Hframe.
      intros (key & Hkey & Hres).
      cbn [dict_set String.eqb map fst In] in Hkey.
      destruct Hkey as [<- | [<- | [<- | []]]];
        vm_compute in Hres; congruence.
Qed.

Lemma update_status_rows (apps : list JobApp.JobApplication) (k : nat)
    (app : JobApp.JobApplication) (d : database) (res : results) :
  In app apps ->
  exists d' res',
    update_status integer_of_text strftime_Ymd strptime_Ymd now k app
      (Tables d) res = (Tables d', res')
    /\ interviews d' = interviews d
    /\ Forall2 (moved_to_review strftime_Ymd strptime_Ymd now apps) (job_applications d)
         (job_applications d')
    /\ applications_processed res' = applications_processed res
    /\ follow_ups_sent res' = follow_ups_sent res
    /\ new_jobs_found res' = new_jobs_found res.
Proof.
  intros Hin.
  assert (Hsame : forall res',
    applications_processed res' = applications_processed res ->
    follow_ups_sent res' = follow_ups_sent res ->
    new_jobs_found res' = new_jobs_found res ->
    exists d' res'',
      (Tables d, res') = (Tables d', res'')
      /\ interviews d' = interviews d
      /\ Forall2 (moved_to_review strftime_Ymd strptime_Ymd now apps) (job_applications d)
           (job_applications d')
      /\ applications_processed res'' = applications_processed res
      /\ follow_ups_sent res'' = follow_ups_sent res
      /\ new_jobs_found res'' = new_jobs_found res).
  { intros res' H1 H2 H3. exists d, res'. split; [reflexivity |].
    split; [reflexivity |]. split; [| repeat split; assumption].
    apply Forall2_same. apply moved_to_review_refl. }
  unfold update_status.
  destruct (JobApp.application_date app) as [s |] eqn:Hdate;
    [| apply Hsame; reflexivity].
  destruct (strptime_Ymd s) as [day |] eqn:Hday;
    [| apply Hsame; reflexivity].
  cbv zeta.
  destruct ((7 <=? local_day (now k 0%nat) - day)
            && py_eq_str (JobApp.status app) "applied") eqn:Hold;
    [| apply Hsame; reflexivity].
  apply andb_true_iff in Hold. destruct Hold as [Hage _].
  apply Z.leb_le in Hage.
  unfold strftime_plus_days.
  destruct (local_day (now k 1%nat) + 7 <=? Sqlite.LAST_DAY);
    [| apply Hsame; reflexivity].
  destruct (status_update_rows (isoformat (now k 2%nat))
              (strftime_Ymd (local_day (now k 1%nat) + 7)) (JobApp.id app) d)
    as (d' & Hstep & Hintv & Hrows).
  rewrite Hstep. exists d', res. split; [reflexivity |].
  split; [exact Hintv |]. split; [| repeat split].
  eapply Forall2_impl; [| exact Hrows].
  intros r r' [Hid [-> | (Happ & Hstatus & Hnext & Hkept)]];
    [apply moved_to_review_refl |].
  split; [exact Hid |]. right. split; [exact Hstatus |].
  split; [exact Hkept |].
  exists app, k, s, day. repeat split; assumption.
Qed.

Lemma update_statuses_from_rows (apps rest : list JobApp.JobApplication) :
  incl rest apps ->
  forall (k : nat) (d : database) (res : results),
  exists d' res',
    update_statuses_from integer_of_text strftime_Ymd strptime_Ymd now k rest
      (Tables d) res = (Tables d', res')
    /\ interviews d' = interviews d
    /\ Forall2 (moved_to_review strftime_Ymd strptime_Ymd now apps) (job_applications d)
         (job_applications d')
    /\ applications_processed res' = applications_processed res
    /\ follow_ups_sent res' = follow_ups_sent res
    /\ new_jobs_found res' = new_jobs_found res.
Proof.
  induction rest as [| app rest IH]; intros Hincl k d res.
  - exists d, res. split; [reflexivity |]. split; [reflexivity |].
    split; [| repeat split].
    apply Forall2_same. apply moved_to_review_refl.
  - cbn [update_statuses_from].
    destruct (update_status_rows apps k app d res
                (Hincl app (or_introl eq_refl)))
      as (d1 & res1 & Hstep & Hintv1 & Hrows1 & Hp1 & Hf1 & Hn1).
    rewrite Hstep.
    destruct (IH (fun a Ha => Hincl a (or_intror Ha)) (S k) d1 res1)
      as (d' & res' & Hrun & Hintv & Hrows & Hp & Hf & Hn).
    exists d', res'. split; [exact Hrun |]. split; [congruence |].
    split; [| repeat split; congruence].
    apply (Forall2_trans _ _ _ _ (moved_to_review_trans apps) Hrows1 Hrows).
Qed.

(** X14: [_update_application_statuses] of the agent, on a store whose
    application identifiers are pairwise different.  The run keeps the
    interviews, the three counters of [results], and the number, the
    order and the identifiers of the applications.  An application is
    as it was, or: its status was [applied]; it is among the
    applications that [get_applications] returned for this status (the
    most recent ones, at most 50); its [application_date] is read as a
    date at least seven days before a reading of the clock; its status
    is now [under_review], its [follow_up_date] the date seven days
    after a reading of the clock, and its columns other than [status],
    [follow_up_date] and [updated_at] are as they were. *)
Theorem statuses_move_to_review (d : database) (res : results) :
  NoDup (map AppTable.id (job_applications d)) ->
  exists selected d' res',
    get_applications (Some "applied") None default_limit (Tables d)
    = Ret selected
    /\ _update_application_statuses integer_of_text strftime_Ymd
         strptime_Ymd now (Tables d) res = (Tables d', res')
    /\ interviews d' = interviews d
    /\ applications_processed res' = applications_processed res
    /\ follow_ups_sent res' = follow_ups_sent res
    /\ new_jobs_found res' = new_jobs_found res
    /\ Forall2
         (fun r r' =>
            AppTable.id r' = AppTable.id r
            /\ (r' = r
                \/ (AppTable.status r = Some "applied"
                    /\ In (_row_to_application r) selected
                    /\ AppTable.status r' = Some "under_review"
                    /\ other_columns_kept r r'
                    /\ exists k s day,
                         AppTable.application_date r = Some s
                         /\ strptime_Ymd s = Some day
                         /\ 7 <= local_day (now k 0%nat) - day
                         /\ AppTable.follow_up_date r'
                            = Some (strftime_Ymd
                                      (local_day (now k 1%nat) + 7)))))
         (job_applications d) (job_applications d').
Proof.
  intros Hnodup.
  assert (Hrange : Sqlite.MIN_ROWID <= default_limit <= Sqlite.MAX_ROWID)
    by (vm_compute; split; discriminate).
  pose proof (get_applications_by_status_value (Some "applied")
                default_limit d Hrange) as Hselected.
  set (rows := Sqlite.limit default_limit
                 (Sqlite.order_by_desc AppTable.application_date
                    (filter (has_status (Some "applied"))
                       (job_applications d)))) in Hselected.
  unfold _update_application_statuses. rewrite Hselected.
  destruct (update_statuses_from_rows (map _row_to_application rows)
              (map _row_to_application rows) (incl_refl _) 0%nat d res)
    as (d' & res' & Hrun & Hintv & Hrows & Hp & Hf & Hn).
  exists (map _row_to_application rows), d', res'.
  split; [reflexivity |]. split; [exact Hrun |]. split; [exact Hintv |].
  split; [exact Hp |]. split; [exact Hf |]. split; [exact Hn |].
  apply (Forall2_impl_in _ _ _ _ Hrows). intros r r' Hrin Hr.
  destruct Hr as [Hid [-> | (Hstatus & Hkept & app & k & s & day & Hin
                              & Happ & Hdate & Hday & Hage & Hnext)]];
    [split; [reflexivity | left; reflexivity] |].
  split; [exact Hid |]. right.
  apply in_map_iff in Hin. destruct Hin as (r0 & <- & Hr0).
  cbn [_row_to_application JobApp.id JobApp.application_date] in Happ, Hdate.
  injection Happ as Happ.
  pose proof Hr0 as Hsel. unfold rows in Hsel.
  apply limit_in in Hsel.
  apply (Permutation_in _ (order_by_desc_perm _ _)) in Hsel.
  apply filter_In in Hsel. destruct Hsel as [Hr0in Hr0status].
  assert (r0 = r).
  { pose proof (find_by_identifier _ r0 Hnodup Hr0in) as H0.
    pose proof (find_by_identifier _ r Hnodup Hrin) as H1.
    rewrite Happ in H0. rewrite H0 in H1. injection H1 as ->. reflexivity. }
  subst r0. split.
  { unfold has_status in Hr0status. cbn [truthy_str] in Hr0status.
    change (negb ("applied" =? "")%string) with true in Hr0status.
    cbv iota in Hr0status.
    apply eq_where_eq in Hr0status. exact Hr0status. }
  split; [apply in_map; exact Hr0 |].
  split; [exact Hstatus |]. split; [exact Hkept |].
  exists k, s, day. repeat split; assumption.
Qed.

End Statuses.

(** The application of 2024-01-01 is under review after a run on
    2024-01-15, to be followed up on 2024-01-22. *)
Lemma statuses_move_to_review_witness :
  exists selected d' res',
    get_applications (Some "applied") None default_limit
      (Tables (database_of old_application_store)) = Ret selected
    /\ _update_application_statuses decimal_integer example_strftime
         example_strptime example_clock
         (Tables (database_of old_application_store)) no_results
       = (Tables d', res')
    /\ interviews d' = interviews (database_of old_application_store)
    /\ map AppTable.status (job_applications d') = [Some "under_review"]
    /\ map AppTable.follow_up_date (job_applications d')
       = [Some "2024-01-22"].
Proof.
  destruct (statuses_move_to_review decimal_integer example_strftime
              example_strptime example_clock
              (database_of old_application_store) no_results)
    as (selected & d' & res' & Hselected & Hrun & Hintv & _).
  - repeat constructor. intros [].
  - exists selected, d', res'. split; [exact Hselected |].
    split; [exact Hrun |]. split; [exact Hintv |].
    vm_compute in Hrun. injection Hrun as <- _. split; reflexivity.
Defined.

(** ** The search for new jobs *)

Lemma new_rowid_bound (ids : list Z) (seq b : Z) :
  Forall (fun j => j < b) ids -> 0 <= seq < b -> b <= Sqlite.MAX_ROWID ->
  exists i, Sqlite.new_rowid ids seq = Ret i /\ i <= b.
Proof.
  intros Hids Hseq Hb.
  destruct (new_rowid_returns ids seq) as [i Hi].
  - apply Forall_forall. intros j Hj.
    pose proof (proj1 (Forall_forall _ _) Hids j Hj) as Hlt.
    cbv beta in Hlt. lia.
  - lia.
  - exists i. split; [exact Hi |].
    unfold Sqlite.new_rowid in Hi.
    destruct (Sqlite.largest ids) as [m |] eqn:Hlargest.
    + apply largest_in in Hlargest. rewrite Forall_forall in Hids.
      apply Hids in Hlargest.
      destruct (Sqlite.MAX_ROWID <=? m); [discriminate |].
      destruct (seq =? Sqlite.MAX_ROWID); [discriminate |].
      injection Hi as <-. lia.
    + destruct (seq =? Sqlite.MAX_ROWID); [discriminate |].
      injection Hi as <-. lia.
Qed.

Lemma prefix_nocase_refl (s : string) : prefix_nocase s s = true.
Proof.
  induction s as [| c s IH]; [reflexivity |].
  cbn [prefix_nocase]. rewrite IH. unfold Sqlite.eq_nocase.
  rewrite Ascii.eqb_refl. reflexivity.
Qed.

Lemma contains_nocase_refl (s : string) : contains_nocase s s = true.
Proof.
  destruct s as [| c s]; [reflexivity |].
  cbn [contains_nocase]. rewrite prefix_nocase_refl. reflexivity.
Qed.

Lemma get_applications_by_company_value (company : string) (limit : Z)
    (d : database) :
  company <> "" ->
  Z.of_nat (String.length ("%" ++ company ++ "%"))
  <= Sqlite.MAX_LIKE_PATTERN_LENGTH ->
  Sqlite.MIN_ROWID <= limit <= Sqlite.MAX_ROWID ->
  get_applications None (Some company) limit (Tables d)
  = Ret (map _row_to_application
           (Sqlite.limit limit
              (Sqlite.order_by_desc AppTable.application_date
                 (filter (fun r => like_where ("%" ++ company ++ "%")
                                     (AppTable.company r))
                    (job_applications d))))).
Proof.
  intros Hcompany Hlength Hrange.
  unfold get_applications, sql_select_applications.
  cbv beta iota delta [connect tables bind try_except].
  rewrite (bind_int_fits limit Hrange). cbv beta iota zeta.
  rewrite (truthy_str_some company Hcompany). cbn [truthy_str format_str].
  unfold sql_like_company.
  destruct (job_applications d) as [| r rows]; [reflexivity |].
  assert (Hshort : (Sqlite.MAX_LIKE_PATTERN_LENGTH
                    <? Z.of_nat (String.length ("%" ++ company ++ "%")))
                   = false) by (apply Z.ltb_ge; exact Hlength).
  rewrite Hshort. reflexivity.
Qed.



Lemma existsb_map_perm_filter {A B : Type} (f : A -> B) (g : B -> bool)
    (keep : A -> bool) (l l' : list A) :
  Permutation l' (filter keep l) ->
  existsb g (map f l') = existsb (fun x => keep x && g (f x)) l.
Proof.
  intros Hperm. apply eq_true_iff_eq. rewrite !existsb_exists. split.
  - intros (y & Hy & Hg). apply in_map_iff in Hy.
    destruct Hy as (x & <- & Hx).
    apply (Permutation_in _ Hperm) in Hx. apply filter_In in Hx.
    destruct Hx as [Hx Hkeep]. exists x. split; [exact Hx |].
    rewrite Hkeep, Hg. reflexivity.
  - intros (x & Hx & Hboth). apply andb_true_iff in Hboth.
    destruct Hboth as [Hkeep Hg]. exists (f x). split; [| exact Hg].
    apply in_map. apply (Permutation_in _ (Permutation_sym Hperm)).
    apply filter_In. split; assumption.
Qed.

Lemma filter_length_bound {A : Type} (f : A -> bool) (l : list A) :
  (List.length (filter f l) <= List.length l)%nat.
Proof.
  induction l as [| x l IH]; [apply le_n |].
  cbn [filter]. destruct (f x); cbn [List.length]; lia.
Qed.

Section Search.

Variable strftime_Ymd : Z -> string.
Variable now : nat -> nat -> reading.
Variable companies : list string.
Variable py_lower : string -> string.

Lemma search_new_job_value (k : nat) (job : Job.job) (d : database)
    (res : results) :
  job_ok job ->
  Z.of_nat (List.length (job_applications d)) <= default_limit ->
  search_new_job strftime_Ymd now companies py_lower k job (Tables d) res
  = if tracked job (job_applications d) then (Tables d, res)
    else
      match add_application (isoformat (now k 1%nat))
              (discovered_application strftime_Ymd now companies py_lower
                 k job) (Tables d) with
      | (Ret _, f') => (f', count_new_job res)
      | (Raise e, f') => (f', append_error (TrackerError e) res)
      end.
Proof.
  intros (Hcompany & _ & _ & Hshort) Hfew. unfold search_new_job.
  rewrite (get_applications_by_company_value _ _ _ Hcompany Hshort)
    by (vm_compute; split; discriminate).
  rewrite limit_all.
  - rewrite (existsb_map_perm_filter _ _
               (fun r => like_where ("%" ++ Job.company job ++ "%")
                           (AppTable.company r))
               (job_applications d)) by apply order_by_desc_perm.
    reflexivity.
  - right. rewrite (Permutation_length (order_by_desc_perm _ _)).
    pose proof (filter_length_bound
                  (fun r => like_where ("%" ++ Job.company job ++ "%")
                              (AppTable.company r))
                  (job_applications d)).
    lia.
Qed.

Lemma tracked_app (job : Job.job) (rows more : list AppTable.row) :
  tracked job rows = true -> tracked job (rows ++ more) = true.
Proof.
  unfold tracked. rewrite existsb_app. intros ->. reflexivity.
Qed.

Lemma tracked_new (k : nat) (job : Job.job) (rows : list AppTable.row)
    (i : Z) (stamp : string) :
  job_ok job ->
  tracked job
    (rows ++ [application_row i stamp
                (discovered_application strftime_Ymd now companies py_lower
                   k job)])
  = true.
Proof.
  intros (_ & Hfree & Hnul & _). unfold tracked. rewrite existsb_app.
  cbn [existsb application_row discovered_application AppTable.company
       AppTable.position JobApp.company JobApp.position like_where
       py_eq_str].
  rewrite (like_substring _ _ Hfree Hnul), (c_string_nul_free _ Hnul),
    contains_nocase_refl, String.eqb_refl.
  cbn [andb orb]. apply orb_true_r.
Qed.

Lemma search_new_jobs_from_tracks (jobs : list Job.job) :
  Forall job_ok jobs ->
  forall (k : nat) (d : database) (res : results),
  Z.of_nat (List.length (job_applications d)) + Z.of_nat (List.length jobs)
  <= default_limit ->
  Forall (fun r => AppTable.id r
                   < Sqlite.MAX_ROWID - Z.of_nat (List.length jobs))
    (job_applications d) ->
  0 <= seq_job_applications d
    < Sqlite.MAX_ROWID - Z.of_nat (List.length jobs) ->
  exists d' res' added,
    search_new_jobs_from strftime_Ymd now companies py_lower k jobs
      (Tables d) res = (Tables d', res')
    /\ job_applications d' = (job_applications d ++ added)%list
    /\ interviews d' = interviews d
    /\ errors res' = errors res
    /\ new_jobs_found res'
       = new_jobs_found res + Z.of_nat (List.length added)
    /\ (List.length added <= List.length jobs)%nat
    /\ Forall (fun r => AppTable.status r = Some "discovered") added
    /\ Forall (fun job => tracked job (job_applications d') = true) jobs.
Proof.
  induction 1 as [| job jobs Hjob Hjobs IH]; intros k d res Hfew Hids Hseq.
  - exists d, res, []. split; [reflexivity |].
    rewrite app_nil_r. cbn [List.length].
    repeat split; try constructor; lia.
  - cbn [search_new_jobs_from]. cbn [List.length] in Hfew, Hids, Hseq.
    rewrite Nat2Z.inj_succ in Hfew, Hids, Hseq.
    rewrite (search_new_job_value k job d res Hjob) by lia.
    destruct (tracked job (job_applications d)) eqn:Htracked.
    + destruct (IH (S k) d res) as (d' & res' & added & Hrun & Hrows & Hintv
                                    & Herr & Hnew & Hlen & Hstatus & Hall).
      * lia.
      * eapply Forall_impl; [| exact Hids]. cbv beta. intros r Hr. lia.
      * lia.
      * exists d', res', added. split; [exact Hrun |].
        split; [exact Hrows |]. split; [exact Hintv |].
        split; [exact Herr |]. split; [exact Hnew |].
        split; [cbn [List.length]; lia |]. split; [exact Hstatus |].
        constructor; [| exact Hall].
        rewrite Hrows. apply tracked_app. exact Htracked.
    + destruct (new_rowid_bound (map AppTable.id (job_applications d))
                  (seq_job_applications d)
                  (Sqlite.MAX_ROWID - Z.succ (Z.of_nat (List.length jobs))))
        as (i & Hi & Hbound).
      { apply Forall_forall. intros j Hj. apply in_map_iff in Hj.
        destruct Hj as (r & <- & Hr). rewrite Forall_forall in Hids.
        apply Hids. exact Hr. }
      { exact Hseq. }
      { lia. }
      set (row := application_row i (isoformat (now k 1%nat))
                    (discovered_application strftime_Ymd now companies
                       py_lower k job)).
      assert (Hadd :
        add_application (isoformat (now k 1%nat))
          (discovered_application strftime_Ymd now companies py_lower k job)
          (Tables d)
        = (Ret i,
           Tables {| job_applications := (job_applications d ++ [row])%list;
                     interviews := interviews d;
                     seq_job_applications := i;
                     seq_interviews := seq_interviews d |})).
      { unfold add_application, sql_insert_application.
        cbv beta iota delta [connect tables bind commit].
        cbn [discovered_application JobApp.company JobApp.position].
        rewrite Hi. reflexivity. }
      rewrite Hadd.
      destruct (new_rowid_above _ _ _ Hi) as (Habove & _ & _).
      destruct (IH (S k)
                  {| job_applications := (job_applications d ++ [row])%list;
                     interviews := interviews d;
                     seq_job_applications := i;
                     seq_interviews := seq_interviews d |}
                  (count_new_job res))
        as (d' & res' & added & Hrun & Hrows & Hintv & Herr & Hnew & Hlen
            & Hstatus & Hall).
      * cbn [job_applications]. rewrite length_app. cbn [List.length].
        lia.
      * cbn [job_applications]. apply Forall_app. split.
        -- eapply Forall_impl; [| exact Hids]. cbv beta. intros r Hr. lia.
        -- constructor; [| constructor]. cbn [row application_row AppTable.id].
           lia.
      * cbn [seq_job_applications]. lia.
      * cbn [job_applications interviews] in Hrows, Hintv.
        exists d', res', (row :: added). split; [exact Hrun |].
        split; [rewrite Hrows, <- app_assoc; reflexivity |].
        split; [exact Hintv |]. split; [exact Herr |]. split.
        { rewrite Hnew. cbn [count_new_job new_jobs_found List.length]. lia. }
        split; [cbn [List.length]; lia |]. split.
        { constructor; [reflexivity | exact Hstatus]. }
        constructor; [| exact Hall].
        rewrite Hrows. apply tracked_app. apply tracked_new. exact Hjob.
Qed.

Lemma search_new_jobs_from_tracked (jobs : list Job.job) (d : database) :
  Forall job_ok jobs ->
  Forall (fun job => tracked job (job_applications d) = true) jobs ->
  Z.of_nat (List.length (job_applications d)) <= default_limit ->
  forall (k : nat) (res : results),
    search_new_jobs_from strftime_Ymd now companies py_lower k jobs
      (Tables d) res = (Tables d, res).
Proof.
  intros Hok Htracked Hfew.
  induction jobs as [| job jobs IH]; intros k res; [reflexivity |].
  inversion Hok as [| ? ? Hjob Hok']; subst.
  inversion Htracked as [| ? ? Hthis Hrest]; subst.
  cbn [search_new_jobs_from].
  rewrite (search_new_job_value k job d res Hjob Hfew), Hthis.
  apply IH; assumption.
Qed.

End Search.

Lemma _discover_jobs_ok : Forall job_ok _discover_jobs.
Proof.
  repeat constructor; try discriminate; vm_compute; discriminate.
Qed.

(** X15: [_search_new_jobs] of the agent adds a job once.  On a store
    with at most 48 applications (so that the limit of 50 of
    [get_applications] cuts nothing) and room for two more identifiers,
    a run appends at most two applications, each with the status
    [discovered], counts them in [new_jobs_found], records no error and
    leaves the stored applications and interviews as they are; a
    further run on the store that results, with any clock and any
    configuration, changes neither the store nor [results]. *)
Theorem search_new_jobs_adds_once (strftime_Ymd : Z -> string)
    (now : nat -> nat -> reading) (companies : list string)
    (py_lower : string -> string) (d : database) (res : results) :
  Z.of_nat (List.length (job_applications d)) <= 48 ->
  Forall (fun r => AppTable.id r < Sqlite.MAX_ROWID - 2)
    (job_applications d) ->
  0 <= seq_job_applications d < Sqlite.MAX_ROWID - 2 ->
  exists d' res' added,
    _search_new_jobs strftime_Ymd now companies py_lower (Tables d) res
    = (Tables d', res')
    /\ job_applications d' = (job_applications d ++ added)%list
    /\ interviews d' = interviews d
    /\ errors res' = errors res
    /\ new_jobs_found res'
       = new_jobs_found res + Z.of_nat (List.length added)
    /\ (List.length added <= 2)%nat
    /\ Forall (fun r => AppTable.status r = Some "discovered") added
    /\ (forall (strftime_Ymd' : Z -> string) (now' : nat -> nat -> reading)
               (companies' : list string) (py_lower' : string -> string)
               (res2 : results),
          _search_new_jobs strftime_Ymd' now' companies' py_lower'
            (Tables d') res2 = (Tables d', res2)).
Proof.
  intros Hfew Hids Hseq. unfold _search_new_jobs.
  destruct (search_new_jobs_from_tracks strftime_Ymd now companies py_lower
              _discover_jobs _discover_jobs_ok 0%nat d res)
    as (d' & res' & added & Hrun & Hrows & Hintv & Herr & Hnew & Hlen
        & Hstatus & Hall).
  - unfold default_limit. cbn [_discover_jobs List.length]. lia.
  - exact Hids.
  - exact Hseq.
  - exists d', res', added. split; [exact Hrun |]. split; [exact Hrows |].
    split; [exact Hintv |]. split; [exact Herr |]. split; [exact Hnew |].
    split; [exact Hlen |]. split; [exact Hstatus |].
    intros strftime_Ymd' now' companies' py_lower' res2.
    apply search_new_jobs_from_tracked.
    + exact _discover_jobs_ok.
    + exact Hall.
    + rewrite Hrows, length_app. unfold default_limit.
      cbn [_discover_jobs List.length] in Hlen. lia.
Qed.

(** On an empty store the first run finds the two jobs, the second
    none. *)
Lemma search_new_jobs_adds_once_witness :
  exists d' res',
    _search_new_jobs example_strftime example_clock ["Google"] Sqlite.lower
      (Tables empty_database) no_results = (Tables d', res')
    /\ new_jobs_found res' = 2
    /\ _search_new_jobs example_strftime example_clock ["Google"] Sqlite.lower
         (Tables d') res' = (Tables d', res').
Proof.
  destruct (search_new_jobs_adds_once example_strftime example_clock
              ["Google"] Sqlite.lower empty_database no_results)
    as (d' & res' & added & Hrun & _ & _ & _ & _ & _ & _ & Hagain).
  - cbn [empty_database job_applications List.length]. lia.
  - constructor.
  - vm_compute. split; [discriminate | reflexivity].
  - exists d', res'. split; [exact Hrun |]. split; [| apply Hagain].
    vm_compute in Hrun. injection Hrun as _ <-. reflexivity.
Defined.

(** ** The daily limit *)

Section DailyLimit.

Variable integer_of_text : string -> option Z.
Variable now : nat -> nat -> reading.
Variable daily_limit : Z.
Variable recruiter_message : nat -> caller_exn + string.


Lemma made_ready_refl (apps : list JobApp.JobApplication) (r : AppTable.row) :
  made_ready apps r r.
Proof. split; [reflexivity | left; reflexivity]. Qed.

Lemma made_ready_trans (apps : list JobApp.JobApplication)
    (x y z : AppTable.row) :
  made_ready apps x y -> made_ready apps y z -> made_ready apps x z.
Proof.
  intros [Hid1 H1] [Hid2 H2]. split; [congruence |].
  destruct H2 as [-> | (Hstatus & Hkept & app & Hin & Hid)]; [exact H1 |].
  right. split; [exact Hstatus |]. split.
  - destruct H1 as [-> | (_ & Hkept1 & _)]; [exact Hkept |].
    intros c H1 H2 H3. rewrite (Hkept c H1 H2 H3). apply Hkept1; assumption.
  - exists app. rewrite <- Hid1. split; assumption.
Qed.

Lemma process_application_rows (apps : list JobApp.JobApplication) (k : nat)
    (app : JobApp.JobApplication) (d : database) :
  In app apps ->
  exists e d',
    _process_application integer_of_text now recruiter_message k app
      (Tables d) = (e, Tables d')
    /\ interviews d' = interviews d
    /\ Forall2 (made_ready apps) (job_applications d) (job_applications d').
Proof.
  intros Hin. unfold _process_application.
  destruct (recruiter_message k) as [e | text].
  - exists (Some e), d. split; [reflexivity |]. split; [reflexivity |].
    apply Forall2_same. apply made_ready_refl.
  - destruct (update_by_id_rows integer_of_text (isoformat (now k 0%nat))
                (JobApp.id app)
                [("status", PStr "ready_to_apply");
                 ("notes",
                  PStr ("Tailored resume and cover letter generated. "
                        ++ "Recruiter message: " ++ slice_to 200 text
                        ++ "..."))] d)
      as (d' & Hstep & Hintv & Hrows).
    + split.
      * repeat constructor; cbn [In]; intuition discriminate.
      * repeat constructor; unfold field_names; cbn [map fst
          AppTable.column_names In]; tauto.
    + cbn [map fst In]. intuition discriminate.
    + exists None, d'. split; [rewrite Hstep; reflexivity |].
      split; [exact Hintv |].
      eapply Forall2_impl; [| exact Hrows].
      intros r r' [Hid [-> | (Happ & _ & _ & Hnew)]];
        [apply made_ready_refl |].
      destruct (Hnew eq_refl) as [Hvalues Hframe].
      split; [exact Hid |]. right. split; [| split].
      * apply (Hvalues "status" (PStr "ready_to_apply") AppTable.c_status);
          [left; reflexivity | reflexivity].
      * intros c H1 H2 H3. apply Hframe.
        intros (key & Hkey & Hres).
        cbn [dict_set String.eqb map fst In] in Hkey.
        destruct Hkey as [<- | [<- | [<- | []]]];
          vm_compute in Hres; congruence.
      * exists app. split; assumption.
Qed.

Lemma process_new_applications_from_rows
    (apps rest : list JobApp.JobApplication) :
  incl rest apps ->
  forall (k : nat) (d : database) (res : results) (count : Z),
  exists d' res' count',
    process_new_applications_from integer_of_text now daily_limit
      recruiter_message k rest (Tables d) res count = (Tables d', res', count')
    /\ interviews d' = interviews d
    /\ Forall2 (made_ready apps) (job_applications d) (job_applications d')
    /\ count <= count' <= Z.max count daily_limit
    /\ count' - count <= Z.of_nat (List.length rest)
    /\ applications_processed res'
       = applications_processed res + (count' - count)
    /\ follow_ups_sent res' = follow_ups_sent res
    /\ new_jobs_found res' = new_jobs_found res.
Proof.
  induction rest as [| app rest IH]; intros Hincl k d res count.
  - exists d, res, count. split; [reflexivity |]. split; [reflexivity |].
    split; [apply Forall2_same; apply made_ready_refl |].
    cbn [List.length]. repeat split; lia.
  - cbn [process_new_applications_from].
    destruct (daily_limit <=? count) eqn:Hfull.
    + apply Z.leb_le in Hfull.
      exists d, res, count. split; [reflexivity |]. split; [reflexivity |].
      split; [apply Forall2_same; apply made_ready_refl |].
      repeat split; lia.
    + apply Z.leb_gt in Hfull.
      destruct (process_application_rows apps k app d
                  (Hincl app (or_introl eq_refl)))
        as (e & d1 & Hstep & Hintv1 & Hrows1).
      rewrite Hstep.
      destruct e as [e |].
      * destruct (IH (fun a Ha => Hincl a (or_intror Ha)) (S k) d1
                    (append_error e res) count)
          as (d' & res' & count' & Hrun & Hintv & Hrows & Hcount & Hlen
              & Hp & Hf & Hn).
        exists d', res', count'. split; [exact Hrun |].
        split; [congruence |]. split.
        { apply (Forall2_trans _ _ _ _ (made_ready_trans apps) Hrows1 Hrows). }
        cbn [List.length]. rewrite Nat2Z.inj_succ.
        cbn [append_error applications_processed follow_ups_sent
             new_jobs_found] in Hp, Hf, Hn.
        repeat split; try assumption; lia.
      * destruct (IH (fun a Ha => Hincl a (or_intror Ha)) (S k) d1
                    (count_processed res) (count + 1))
          as (d' & res' & count' & Hrun & Hintv & Hrows & Hcount & Hlen
              & Hp & Hf & Hn).
        exists d', res', count'. split; [exact Hrun |].
        split; [congruence |]. split.
        { apply (Forall2_trans _ _ _ _ (made_ready_trans apps) Hrows1 Hrows). }
        cbn [List.length]. rewrite Nat2Z.inj_succ.
        cbn [count_processed applications_processed follow_ups_sent
             new_jobs_found] in Hp, Hf, Hn.
        repeat split; try assumption; lia.
Qed.

(** X16: [_process_new_applications] of the agent, on a store whose
    application identifiers are pairwise different.  The count
    [daily_application_count] does not decrease, and a run does not
    raise it above the limit; a run processes at most as many
    applications as [get_applications] returned for the status
    [discovered], and [applications_processed] grows by the growth of
    the count; when the count has reached the limit, the run changes
    nothing.  The interviews stay as they are; an application is as it
    was, or: its status was [discovered], the query returned it, its
    status is now [ready_to_apply], and its columns other than
    [status], [notes] and [updated_at] are as they were. *)
Theorem daily_limit_is_kept (d : database) (res : results) (count : Z) :
  NoDup (map AppTable.id (job_applications d)) ->
  exists selected d' res' count',
    get_applications (Some "discovered") None default_limit (Tables d)
    = Ret selected
    /\ _process_new_applications integer_of_text now daily_limit
         recruiter_message (Tables d) res count = (Tables d', res', count')
    /\ count <= count' <= Z.max count daily_limit
    /\ count' - count <= Z.of_nat (List.length selected)
    /\ applications_processed res'
       = applications_processed res + (count' - count)
    /\ (daily_limit <= count -> d' = d /\ res' = res /\ count' = count)
    /\ interviews d' = interviews d
    /\ Forall2
         (fun r r' =>
            AppTable.id r' = AppTable.id r
            /\ (r' = r
                \/ (AppTable.status r = Some "discovered"
                    /\ In (_row_to_application r) selected
                    /\ AppTable.status r' = Some "ready_to_apply"
                    /\ forall c, c <> AppTable.c_status ->
                                 c <> AppTable.c_notes ->
                                 c <> AppTable.c_updated_at ->
                                 AppTable.get_text c r'
                                 = AppTable.get_text c r)))
         (job_applications d) (job_applications d').
Proof.
  intros Hnodup.
  assert (Hrange : Sqlite.MIN_ROWID <= default_limit <= Sqlite.MAX_ROWID)
    by (vm_compute; split; discriminate).
  pose proof (get_applications_by_status_value (Some "discovered")
                default_limit d Hrange) as Hselected.
  set (rows := Sqlite.limit default_limit
                 (Sqlite.order_by_desc AppTable.application_date
                    (filter (has_status (Some "discovered"))
                       (job_applications d)))) in Hselected.
  unfold _process_new_applications. rewrite Hselected.
  destruct (process_new_applications_from_rows
              (map _row_to_application rows) (map _row_to_application rows)
              (incl_refl _) 0%nat d res count)
    as (d' & res' & count' & Hrun & Hintv & Hrows & Hcount & Hlen & Hp
        & _ & _).
  exists (map _row_to_application rows), d', res', count'.
  split; [reflexivity |]. split; [exact Hrun |]. split; [exact Hcount |].
  split; [exact Hlen |]. split; [exact Hp |]. split.
  { intros Hfull. destruct rows as [| r0 rows0];
      cbn [map process_new_applications_from] in Hrun.
    - injection Hrun as <- <- <-. repeat split.
    - apply Z.leb_le in Hfull. rewrite Hfull in Hrun.
      injection Hrun as <- <- <-. repeat split. }
  split; [exact Hintv |].
  apply (Forall2_impl_in _ _ _ _ Hrows). intros r r' Hrin Hr.
  destruct Hr as [Hid [-> | (Hstatus & Hkept & app & Hin & Happ)]];
    [split; [reflexivity | left; reflexivity] |].
  split; [exact Hid |]. right.
  apply in_map_iff in Hin. destruct Hin as (r0 & <- & Hr0).
  cbn [_row_to_application JobApp.id] in Happ. injection Happ as Happ.
  pose proof Hr0 as Hsel. unfold rows in Hsel.
  apply limit_in in Hsel.
  apply (Permutation_in _ (order_by_desc_perm _ _)) in Hsel.
  apply filter_In in Hsel. destruct Hsel as [Hr0in Hr0status].
  assert (r0 = r).
  { pose proof (find_by_identifier _ r0 Hnodup Hr0in) as H0.
    pose proof (find_by_identifier _ r Hnodup Hrin) as H1.
    rewrite Happ in H0. rewrite H0 in H1. injection H1 as ->. reflexivity. }
  subst r0. split.
  { unfold has_status in Hr0status. cbn [truthy_str] in Hr0status.
    change (negb ("discovered" =? "")%string) with true in Hr0status.
    cbv iota in Hr0status.
    apply eq_where_eq in Hr0status. exact Hr0status. }
  split; [apply in_map; exact Hr0 |].
  split; [exact Hstatus | exact Hkept].
Qed.

End DailyLimit.

(** With the limit 1, one of the two discovered applications is
    processed. *)
Lemma daily_limit_is_kept_witness :
  exists selected d' res' count',
    get_applications (Some "discovered") None default_limit
      (Tables (database_of discovered_store)) = Ret selected
    /\ _process_new_applications decimal_integer example_clock 1
         example_recruiter_message (Tables (database_of discovered_store))
         no_results 0 = (Tables d', res', count')
    /\ List.length selected = 2%nat
    /\ count' = 1
    /\ applications_processed res' = 1.
Proof.
  destruct (daily_limit_is_kept decimal_integer example_clock 1
              example_recruiter_message (database_of discovered_store)
              no_results 0)
    as (selected & d' & res' & count' & Hselected & Hrun & _).
  - vm_compute. repeat constructor; cbn [In]; intuition discriminate.
  - exists selected, d', res', count'. split; [exact Hselected |].
    split; [exact Hrun |].
    vm_compute in Hselected. injection Hselected as <-.
    vm_compute in Hrun. injection Hrun as _ <- <-.
    repeat split.
Defined.


(** ** Saving search results *)

(** X17: [save_all_to_tracker] of the dashboard saves nothing.  The
    dictionary of [create_job_application_from_search] always has the
    key [source], which is no field of [JobApplication], so the
    constructor raises TypeError for every search result: the store is
    never changed, and the message of success can only appear for an
    empty table of results, with the count 0. *)
Theorem save_all_to_tracker_saves_nothing (value : Type)
    (of_str : string -> value) (format_value : value -> string)
    (build : list (string * value) -> JobApp.JobApplication)
    (today stamp : nat -> string) (results : list (list (string * value)))
    (f : db_file) :
  snd (save_all_to_tracker value of_str format_value build today stamp
         results f) = f
  /\ (forall day job_data,
        find (fun kv => negb (existsb (String.eqb (fst kv)) field_names))
          (create_job_application_from_search value of_str format_value day
             job_data)
        = Some ("source", of_str "job_search")
        /\ JobApplication_init value build
             (create_job_application_from_search value of_str format_value
                day job_data)
           = inl TypeError)
  /\ (forall saved,
        fst (save_all_to_tracker value of_str format_value build today stamp
               results f) = inr saved ->
        results = [] /\ saved = 0).
Proof.
  assert (Hinit : forall day job_data,
    JobApplication_init value build
      (create_job_application_from_search value of_str format_value day
         job_data)
    = inl TypeError).
  { intros day job_data. reflexivity. }
  unfold save_all_to_tracker.
  destruct results as [| job rest]; cbn [save_all_from].
  - split; [reflexivity |].
    split; [intros day job_data; split; reflexivity |].
    intros saved H. injection H as <-. split; reflexivity.
  - rewrite Hinit. split; [reflexivity |].
    split; [intros day job_data; split; reflexivity |].
    intros saved H. discriminate.
Qed.

(** Two search results, saved to the store of one application: the
    store is as it was. *)
Lemma save_all_to_tracker_saves_nothing_witness :
  save_all_to_tracker string (fun s => s) (fun s => s)
    (fun _ => default_application)
    (fun _ => "2024-01-15") (fun _ => "2024-01-15T10:00:00")
    [[("title", "Data Engineer"); ("company", "Google")];
     [("title", "ML Engineer"); ("company", "Meta")]]
    one_application_store
  = (inl TypeError, one_application_store).
Proof.
  pose proof (save_all_to_tracker_saves_nothing string (fun s => s)
                (fun s => s) (fun _ => default_application)
                (fun _ => "2024-01-15") (fun _ => "2024-01-15T10:00:00")
                [[("title", "Data Engineer"); ("company", "Google")];
                 [("title", "ML Engineer"); ("company", "Meta")]]
                one_application_store) as (Hstore & _ & _).
  apply injective_projections; [reflexivity | exact Hstore].
Defined.
